(** * Polyglot Playground (week-4/multi-llm-aggregator/server.js)

    A shallow embedding of the Node proxy: the static file resolver
    ([serveStatic]), the three vendor adapters ([queryOpenAI],
    [queryGemini], [queryAnthropic]), their dispatcher ([queryProvider])
    and the [POST /api/query] handler, followed by the properties the
    specification states about them.

    Conventions.
    - JavaScript values are the JSON values plus [undefined].
    - A thrown exception is an [Error] object, kept as its name and message.
    - The network ([fetch]), the file system ([fs.readFile]), the process
      environment and [JSON.parse] are parameters: every theorem holds for
      all of them.
    - Strings are sequences of 8-bit characters (code units below 256). *)

From Stdlib Require Import String Ascii NArith DecimalString.
From stdpp Require Import base option list strings gmap.

Local Open Scope string_scope.
Set Warnings "-register-all,-clear-no-such-hyp".

(** ** JavaScript values *)

Module Js.

(** A JavaScript number as this program observes it: through [ToBoolean]
    (zero and NaN are falsy) and through [ToString]. *)
Record number := Number { num_truthy : bool; num_text : string }.

Inductive value :=
| VUndefined
| VNull
| VBool (b : bool)
| VNum (n : number)
| VStr (s : string)
| VArr (items : list value)
| VObj (props : list (string * value)).

Record js_error := JsError { err_name : string; err_message : string }.

Definition TypeError (msg : string) : js_error := JsError "TypeError" msg.
Definition Error (msg : string) : js_error := JsError "Error" msg.

(** The completion of an expression: a value or a thrown exception. *)
Inductive completion (A : Type) :=
| Normal (a : A)
| Throw (e : js_error).
Arguments Normal {A} a.
Arguments Throw {A} e.

Definition cbind {A B} (c : completion A) (k : A → completion B) : completion B :=
  match c with
  | Normal a => k a
  | Throw e => Throw e
  end.

#[global] Instance completion_ret : MRet completion := @Normal.
#[global] Instance completion_bind : MBind completion := λ A B k c, cbind c k.

(** [ToBoolean]. *)
Definition truthy (v : value) : bool :=
  match v with
  | VUndefined | VNull => false
  | VBool b => b
  | VNum n => num_truthy n
  | VStr s => negb (String.eqb s "")
  | VArr _ | VObj _ => true
  end.

(** [a || b]. *)
Definition or_else (a b : value) : value := if truthy a then a else b.

(** [v === undefined || v === null], the test behind [?.]. *)
Definition nullish (v : value) : bool :=
  match v with
  | VUndefined | VNull => true
  | _ => false
  end.

Definition is_digit (c : ascii) : bool :=
  let n := N_of_ascii c in (48 <=? n)%N && (n <=? 57)%N.

Fixpoint digits_value (acc : N) (s : string) : option N :=
  match s with
  | EmptyString => Some acc
  | String c s' =>
      if is_digit c then digits_value (acc * 10 + (N_of_ascii c - 48))%N s'
      else None
  end.

(** A property key that is an array index: a canonical decimal numeral
    below 2^32 - 1. *)
Definition array_index (k : string) : option N :=
  match k with
  | EmptyString => None
  | String c rest =>
      if Ascii.eqb c "0" && negb (String.eqb rest "") then None
      else match digits_value 0 k with
           | Some n => if (n <? 4294967295)%N then Some n else None
           | None => None
           end
  end.

(** Own property of an object; [undefined] when absent.  The keys of an
    object made by [JSON.parse] are distinct. *)
Fixpoint own_prop (k : string) (props : list (string * value)) : value :=
  match props with
  | [] => VUndefined
  | (k', v) :: rest => if String.eqb k k' then v else own_prop k rest
  end.

Fixpoint has_own (k : string) (props : list (string * value)) : bool :=
  match props with
  | [] => false
  | (k', _) :: rest => String.eqb k k' || has_own k rest
  end.

Fixpoint char_at (s : string) (i : nat) : value :=
  match s, i with
  | EmptyString, _ => VUndefined
  | String c _, O => VStr (String c EmptyString)
  | String _ s', S i' => char_at s' i'
  end.

(** [v[k]] and [v.k]: own data properties.  Reading a property of
    [undefined] or [null] throws.  Inherited built-ins ([length], the
    prototype methods) are not data of the request.  The program calls
    [map], [join] and [trim] by name, which is modelled at those calls;
    it can otherwise reach a built-in only through [config[provider]],
    for an identifier spelled like one, where [queryProvider] selects no
    adapter and never reads the value. *)
Definition get (v : value) (k : string) : completion value :=
  match v with
  | VUndefined =>
      Throw (TypeError ("Cannot read properties of undefined (reading '" +:+ k +:+ "')"))
  | VNull =>
      Throw (TypeError ("Cannot read properties of null (reading '" +:+ k +:+ "')"))
  | VObj props => Normal (own_prop k props)
  | VArr items =>
      Normal (match array_index k with
              | Some i => default VUndefined (items !! N.to_nat i)
              | None => VUndefined
              end)
  | VStr s =>
      Normal (match array_index k with
              | Some i => char_at s (N.to_nat i)
              | None => VUndefined
              end)
  | VBool _ | VNum _ => Normal VUndefined
  end.

(** [v?.k]: short-circuits to [undefined] on a nullish base. *)
Definition get_opt (v : value) (k : string) : completion value :=
  if nullish v then Normal VUndefined else get v k.

(** [Array.prototype.join] over an element printer: [undefined] and
    [null] elements print as the empty string. *)
Section Join.
Context (print : value → completion string) (sep : string).

Definition join_item (v : value) : completion string :=
  if nullish v then Normal "" else print v.

Fixpoint join_with (items : list value) : completion string :=
  match items with
  | [] => Normal ""
  | [v] => join_item v
  | v :: rest =>
      s ← join_item v;
      r ← join_with rest;
      Normal (s +:+ sep +:+ r)
  end.
End Join.

(** [ToString].  An object from [JSON.parse] prints as
    ["[object Object]"] unless it carries an own [toString] key, which is
    then not callable and leaves no primitive to convert to. *)
Fixpoint to_string (v : value) : completion string :=
  match v with
  | VUndefined => Normal "undefined"
  | VNull => Normal "null"
  | VBool true => Normal "true"
  | VBool false => Normal "false"
  | VNum n => Normal (num_text n)
  | VStr s => Normal s
  | VArr items => join_with to_string "," items
  | VObj props =>
      if has_own "toString" props
      then Throw (TypeError "Cannot convert object to primitive value")
      else Normal "[object Object]"
  end.

(** [items.join(sep)]. *)
Definition join (sep : string) (items : list value) : completion string :=
  join_with to_string sep items.

(** White space of [String.prototype.trim] among the code units below 256. *)
Definition is_white_space (c : ascii) : bool :=
  let n := N_of_ascii c in
  (n =? 9)%N || (n =? 10)%N || (n =? 11)%N || (n =? 12)%N || (n =? 13)%N
  || (n =? 32)%N || (n =? 160)%N.

Fixpoint trim_start (s : string) : string :=
  match s with
  | EmptyString => EmptyString
  | String c s' => if is_white_space c then trim_start s' else s
  end.

Definition trim (s : string) : string :=
  String.rev (trim_start (String.rev (trim_start s))).

(** [v.trim()] on a value that is not nullish: only a string has the
    method, anything else has no callable [trim]. *)
Definition call_trim (what : string) (v : value) : completion value :=
  match v with
  | VStr s => Normal (VStr (trim s))
  | _ => Throw (TypeError (what +:+ ".trim is not a function"))
  end.

(** [s.startsWith(prefix)]. *)
Fixpoint starts_with (prefix s : string) : bool :=
  match prefix, s with
  | EmptyString, _ => true
  | String a prefix', String b s' => Ascii.eqb a b && starts_with prefix' s'
  | String _ _, EmptyString => false
  end.

(** [hay.includes(needle)]. *)
Fixpoint includes (needle hay : string) : bool :=
  starts_with needle hay ||
  match hay with
  | EmptyString => false
  | String _ hay' => includes needle hay'
  end.

End Js.

Import Js.

(** ** The network and the adapter monad *)

(** The arguments of one [fetch] call.  [fr_body] is the object handed to
    [JSON.stringify], which cannot fail on values built from JSON. *)
Record fetch_request := FetchRequest {
  fr_url : string;
  fr_method : string;
  fr_headers : list (string * value);
  fr_body : value
}.

(** What the program reads of a [Response]: its status, and the outcome
    of [response.text()] and of [response.json()], each of which may
    reject. *)
Record response := Response {
  resp_status : nat;
  resp_text : completion string;
  resp_json : completion value
}.

(** [response.ok]: the status is in the range 200-299. *)
Definition resp_ok (r : response) : bool :=
  (200 <=? resp_status r)%nat && (resp_status r <=? 299)%nat.

(** The vendor side of one call: [fetch] resolves with a response or
    rejects. *)
Definition network := fetch_request → completion response.

(** [process.env]. *)
Definition environment := string → option string.

(** An asynchronous computation, awaited: it extends the log of [fetch]
    calls issued so far and completes normally or by a rejection. *)
Definition async (A : Type) : Type :=
  list fetch_request → list fetch_request * completion A.

Definition async_ret {A} (a : A) : async A := λ log, (log, Normal a).

Definition async_bind {A B} (m : async A) (k : A → async B) : async B :=
  λ log, match m log with
         | (log', Normal a) => k a log'
         | (log', Throw e) => (log', Throw e)
         end.

#[global] Instance async_mret : MRet async := @async_ret.
#[global] Instance async_mbind : MBind async := λ A B k m, async_bind m k.

(** A synchronous expression inside an [async] body. *)
Definition lift {A} (c : completion A) : async A := λ log, (log, c).

Definition throw {A} (e : js_error) : async A := lift (Throw e).

(** [try { body } catch (error) { handler }]. *)
Definition try_catch {A} (body : async A) (handler : js_error → async A) : async A :=
  λ log, match body log with
         | (log', Normal a) => (log', Normal a)
         | (log', Throw e) => handler e log'
         end.

(** [await fetch(...)]: the call is logged, the vendor answers. *)
Definition fetch (net : network) (req : fetch_request) : async response :=
  λ log, ((log ++ [req])%list, net req).

(** ** Normalized results *)

Inductive status := Success | MissingCredentials | Unsupported | Failed.

(** The [status] strings of the source. *)
Definition status_text (s : status) : string :=
  match s with
  | Success => "success"
  | MissingCredentials => "missing_credentials"
  | Unsupported => "unsupported"
  | Failed => "error"
  end.

(** [{ provider, status, message, raw }]; [raw] is [None] when the object
    literal has no [raw] key. *)
Record result := Result {
  provider : value;
  status_of : status;
  message : value;
  raw : option value
}.

Definition dquote : string := String (ascii_of_nat 34) EmptyString.
Definition newline : string := String (ascii_of_nat 10) EmptyString.

(** [`${n}`] for a status code. *)
Definition show_nat (n : nat) : string := NilEmpty.string_of_uint (Nat.to_uint n).

Definition number_of_nat (n : nat) : number :=
  Number (negb (n =? 0)%nat) (show_nat n).

(** [process.env.NAME]. *)
Definition env_get (env : environment) (name : string) : value :=
  match env name with
  | Some s => VStr s
  | None => VUndefined
  end.

(** [base?.map((item) => item.text)]: [base] is not nullish here; only an
    array has the method. *)
Definition map_text (what : string) (base : value) : completion (list value) :=
  match base with
  | VArr items => mapM (λ item, get item "text") items
  | _ => Throw (TypeError (what +:+ ".map is not a function"))
  end.

Definition no_response : value := VStr "No response received.".

(** ** The vendor adapters *)

(** [v === s] for a string literal [s]. *)
Definition is_literal (v : value) (s : string) : bool :=
  match v with
  | VStr s' => String.eqb s' s
  | _ => false
  end.

(** [base?.map((item) => item.text).join('\n')?.trim()]: the chain stops
    at a nullish [base]; a joined string always has [trim]. *)
Definition joined_text (what : string) (base : value) : completion value :=
  if nullish base then Normal VUndefined
  else
    texts ← map_text what base;
    joined ← join newline texts;
    call_trim "joined" (VStr joined).

(** [data.choices?.[0]?.message?.content] *)
Definition openai_content (data : value) : completion value :=
  choices ← get data "choices";
  first ← get_opt choices "0";
  msg ← get_opt first "message";
  get_opt msg "content".

(** [data.choices?.[0]?.message?.content?.trim()] *)
Definition openai_text (data : value) : completion value :=
  content ← openai_content data;
  if nullish content then Normal VUndefined
  else call_trim "data.choices?.[0]?.message?.content" content.

(** [data.candidates?.[0]?.content?.parts] *)
Definition gemini_parts (data : value) : completion value :=
  candidates ← get data "candidates";
  first ← get_opt candidates "0";
  content ← get_opt first "content";
  get_opt content "parts".

(** [data.candidates?.[0]?.content?.parts?.map((part) => part.text).join('\n')?.trim()] *)
Definition gemini_text (data : value) : completion value :=
  parts ← gemini_parts data;
  joined_text "data.candidates?.[0]?.content?.parts" parts.

(** [data.content?.map((entry) => entry.text).join('\n')?.trim()] *)
Definition anthropic_text (data : value) : completion value :=
  content ← get data "content";
  joined_text "data.content" content.

(** What an adapter makes of the vendor's response (from [if
    (!response.ok)] to its [return]): a status outside 200-299 is thrown
    with the status code and the body text; otherwise the answer is
    extracted from the JSON body by [extract]. *)
Definition reply (id vendor : string) (extract : value → completion value)
    (response : response) : completion result :=
  if negb (resp_ok response) then
    errorText ← resp_text response;
    Throw (Error (vendor +:+ " error: " +:+ show_nat (resp_status response)
                  +:+ " " +:+ errorText))
  else
    data ← resp_json response;
    text ← extract data;
    Normal (Result (VStr id) Success (or_else text no_response) (Some data)).

Definition missing_credentials (id variable : string) : result :=
  Result (VStr id) MissingCredentials (VStr (variable +:+ " is not set")) None.

Section Adapters.
Context (env : environment) (net : network).

Definition queryOpenAI (prompt : value) (config : value) : async result :=
  key ← lift (get config "apiKey");
  let apiKey := or_else key (env_get env "OPENAI_API_KEY") in
  if negb (truthy apiKey) then
    mret (missing_credentials "openai" "OPENAI_API_KEY")
  else
    model ← lift (get config "model");
    let requestBody :=
      VObj [("model", or_else model (VStr "gpt-4o-mini"));
            ("messages",
             VArr [VObj [("role", VStr "system");
                         ("content", VStr "You are a helpful assistant participating in a multi-model comparison.")];
                   VObj [("role", VStr "user"); ("content", prompt)]])] in
    bearer ← lift (to_string apiKey);
    response ← fetch net
      (FetchRequest "https://api.openai.com/v1/chat/completions" "POST"
         [("Content-Type", VStr "application/json");
          ("Authorization", VStr ("Bearer " +:+ bearer))]
         requestBody);
    lift (reply "openai" "OpenAI" openai_text response).

Definition queryGemini (prompt : value) (config : value) : async result :=
  key ← lift (get config "apiKey");
  let apiKey := or_else key (env_get env "GEMINI_API_KEY") in
  if negb (truthy apiKey) then
    mret (missing_credentials "gemini" "GEMINI_API_KEY")
  else
    m ← lift (get config "model");
    let model := or_else m (VStr "gemini-1.5-flash") in
    modelText ← lift (to_string model);
    keyText ← lift (to_string apiKey);
    let endpoint :=
      "https://generativelanguage.googleapis.com/v1beta/models/" +:+ modelText
      +:+ ":generateContent?key=" +:+ keyText in
    let requestBody :=
      VObj [("contents",
             VArr [VObj [("role", VStr "user");
                         ("parts", VArr [VObj [("text", prompt)]])]])] in
    response ← fetch net
      (FetchRequest endpoint "POST"
         [("Content-Type", VStr "application/json")] requestBody);
    lift (reply "gemini" "Gemini" gemini_text response).

Definition queryAnthropic (prompt : value) (config : value) : async result :=
  key ← lift (get config "apiKey");
  let apiKey := or_else key (env_get env "ANTHROPIC_API_KEY") in
  if negb (truthy apiKey) then
    mret (missing_credentials "anthropic" "ANTHROPIC_API_KEY")
  else
    m ← lift (get config "model");
    let model := or_else m (VStr "claude-3-haiku-20240307") in
    maxTokens ← lift (get config "maxTokens");
    let requestBody :=
      VObj [("model", model);
            ("max_tokens", or_else maxTokens (VNum (number_of_nat 1024)));
            ("messages",
             VArr [VObj [("role", VStr "user"); ("content", prompt)]])] in
    response ← fetch net
      (FetchRequest "https://api.anthropic.com/v1/messages" "POST"
         [("Content-Type", VStr "application/json");
          ("x-api-key", apiKey);
          ("anthropic-version", VStr "2023-06-01")]
         requestBody);
    lift (reply "anthropic" "Anthropic" anthropic_text response).

(** The [switch] compares with [===]: only the three strings select an
    adapter.  Both template literals convert [provider] to a string;
    [console.error] only logs. *)
Definition queryProvider (provider : value) (prompt : value)
    (providerConfig : value) : async result :=
  try_catch
    (if is_literal provider "openai" then queryOpenAI prompt providerConfig
     else if is_literal provider "gemini" then queryGemini prompt providerConfig
     else if is_literal provider "anthropic" then queryAnthropic prompt providerConfig
     else
       name ← lift (to_string provider);
       mret (Result provider Unsupported
               (VStr ("Provider " +:+ dquote +:+ name +:+ dquote
                      +:+ " is not implemented"))
               None))
    (λ error,
       _ ← lift (to_string provider);
       mret (Result provider Failed
               (or_else (VStr (err_message error)) (VStr "Unexpected error"))
               None)).

End Adapters.

(** ** Paths ([path.normalize], [path.join], [path.extname] of Node, POSIX) *)

Module Path.

Definition slash : ascii := ascii_of_nat 47.
Definition backslash : ascii := ascii_of_nat 92.
Definition dot : ascii := ascii_of_nat 46.

(** The segments between the [/] separators; never the empty list. *)
Fixpoint split (path : string) : list string :=
  match path with
  | EmptyString => [EmptyString]
  | String c rest =>
      if Ascii.eqb c slash then EmptyString :: split rest
      else match split rest with
           | seg :: segs => String c seg :: segs
           | [] => [String c EmptyString]
           end
  end.

Fixpoint join_segments (segs : list string) : string :=
  match segs with
  | [] => ""
  | [seg] => seg
  | seg :: rest => seg +:+ "/" +:+ join_segments rest
  end.

(** The loop of [normalizeString], segment by segment, over the stack of
    segments kept so far (top first): empty segments and [.] are dropped,
    [..] removes the segment before it, or is kept when nothing is left
    to remove and [allowAboveRoot] holds. *)
Fixpoint normalize_onto (allowAboveRoot : bool) (stack segs : list string)
    : list string :=
  match segs with
  | [] => rev stack
  | seg :: rest =>
      if String.eqb seg "" || String.eqb seg "." then
        normalize_onto allowAboveRoot stack rest
      else if String.eqb seg ".." then
        match stack with
        | top :: below =>
            if String.eqb top ".." then
              normalize_onto allowAboveRoot
                (if allowAboveRoot then seg :: stack else stack) rest
            else normalize_onto allowAboveRoot below rest
        | [] =>
            normalize_onto allowAboveRoot
              (if allowAboveRoot then [seg] else []) rest
        end
      else normalize_onto allowAboveRoot (seg :: stack) rest
  end.

Definition normalizeString (path : string) (allowAboveRoot : bool) : string :=
  join_segments (normalize_onto allowAboveRoot [] (split path)).

Definition starts_with_slash (path : string) : bool :=
  match path with
  | String c _ => Ascii.eqb c slash
  | EmptyString => false
  end.

Fixpoint ends_with_slash (path : string) : bool :=
  match path with
  | EmptyString => false
  | String c EmptyString => Ascii.eqb c slash
  | String _ rest => ends_with_slash rest
  end.

(** [path.normalize] *)
Definition normalize (path : string) : string :=
  if String.eqb path "" then "."
  else
    let isAbsolute := starts_with_slash path in
    let trailingSeparator := ends_with_slash path in
    let body := normalizeString path (negb isAbsolute) in
    if String.eqb body "" then
      if isAbsolute then "/" else if trailingSeparator then "./" else "."
    else
      let body := if trailingSeparator then body +:+ "/" else body in
      if isAbsolute then "/" +:+ body else body.

(** [path.join(a, b)] *)
Definition join (a b : string) : string :=
  match String.eqb a "", String.eqb b "" with
  | true, true => "."
  | true, false => normalize b
  | false, true => normalize a
  | false, false => normalize (a +:+ "/" +:+ b)
  end.

(** [s.replace(/^\.\.(\/|\\)/, '')] *)
Definition strip_leading_dotdot (s : string) : string :=
  match s with
  | String a (String b (String c rest)) =>
      if Ascii.eqb a dot && Ascii.eqb b dot
         && (Ascii.eqb c slash || Ascii.eqb c backslash)
      then rest else s
  | _ => s
  end.

(** The suffix of [s] from its last [.], if it has one. *)
Fixpoint from_last_dot (s : string) : option string :=
  match s with
  | EmptyString => None
  | String c rest =>
      match from_last_dot rest with
      | Some ext => Some ext
      | None => if Ascii.eqb c dot then Some s else None
      end
  end.

(** [path.extname]: the extension of the last component; empty when the
    component has no dot, starts with its only dot, or is [..]. *)
Definition extname (path : string) : string :=
  let base := default "" (last (filter (λ seg, seg ≠ "") (split path))) in
  match base with
  | EmptyString => ""
  | String _ rest =>
      if String.eqb base ".." then ""
      else default "" (from_last_dot rest)
  end.

Fixpoint has_slash (s : string) : bool :=
  match s with
  | EmptyString => false
  | String c s' => Ascii.eqb c slash || has_slash s'
  end.

(** An ordinary file or directory name. *)
Definition plain (seg : string) : Prop :=
  seg ≠ "" ∧ seg ≠ "." ∧ seg ≠ ".." ∧ has_slash seg = false.

(** Followed segment by segment from the root, the path steps above it. *)
Fixpoint climbs (depth : nat) (segs : list string) : bool :=
  match segs with
  | [] => false
  | seg :: rest =>
      if String.eqb seg "" || String.eqb seg "." then climbs depth rest
      else if String.eqb seg ".." then
        match depth with
        | O => true
        | S above => climbs above rest
        end
      else climbs (S depth) rest
  end.

Definition escapes (path : string) : bool := climbs 0 (split path).

(** The path names a place below [root]: it is absolute, it starts with
    the segments of [root], and it never steps up again. *)
Definition names (path : string) : list string :=
  filter (λ seg, seg ≠ "") (split path).

Fixpoint strip_segments (prefix segs : list string) : option (list string) :=
  match prefix, segs with
  | [], _ => Some segs
  | p :: prefix', seg :: segs' =>
      if String.eqb p seg then strip_segments prefix' segs' else None
  | _ :: _, [] => None
  end.

Definition under_root (root path : string) : bool :=
  starts_with_slash path &&
  match strip_segments (names root) (names path) with
  | Some rest => forallb (λ seg, negb (String.eqb seg "..")) rest
  | None => false
  end.

End Path.

(** ** The static file resolver *)

(** The outcome of [fs.readFile]: the bytes, the [ENOENT] error, or an
    error with another code. *)
Inductive read_outcome :=
| FileData (data : string)
| ENOENT
| ReadError (e : js_error).

Definition file_system := string → read_outcome.

Inductive body :=
| JsonError (error : string)
| JsonResponses (prompt : value) (responses : list (string * result))
| FileBody (data : string)
| PlainText (text : string).

(** [res.writeHead(code, { 'Content-Type': type }); res.end(body)] *)
Record http_response := HttpResponse {
  code : nat;
  content_type : string;
  payload_of : body
}.

Definition getContentType (filePath : string) : string :=
  let ext := Path.extname filePath in
  if String.eqb ext ".html" then "text/html; charset=utf-8"
  else if String.eqb ext ".css" then "text/css; charset=utf-8"
  else if String.eqb ext ".js" then "application/javascript; charset=utf-8"
  else if String.eqb ext ".json" then "application/json; charset=utf-8"
  else if String.eqb ext ".svg" then "image/svg+xml"
  else "application/octet-stream".

Section Static.
Context (dirname : string) (fs : file_system).

(** [path.join(__dirname, 'public')] *)
Definition publicDir : string := Path.join dirname "public".

(** Lines 67-69: the file a request path stands for. *)
Definition resolve (requestPath : string) : string :=
  let relativePath :=
    if String.eqb requestPath "/" then "/index.html" else requestPath in
  let requestedFile := Path.strip_leading_dotdot (Path.normalize relativePath) in
  Path.join publicDir requestedFile.

(** The paths handed to [fs.readFile], and the response written; a read
    error other than [ENOENT] is thrown again. *)
Definition serveStatic (requestPath : string)
    : list string * completion http_response :=
  let filePath := resolve requestPath in
  ([filePath],
   match fs filePath with
   | FileData data => Normal (HttpResponse 200 (getContentType filePath) (FileBody data))
   | ENOENT => Normal (HttpResponse 404 "text/plain" (PlainText "Not found"))
   | ReadError e => Throw e
   end).

End Static.

(** ** Objects as the response carries them *)

(** The own properties of an ordinary object in enumeration order, which
    is the order [JSON.stringify] and [{ ...acc }] follow: array-index
    keys first, ascending, then the other keys in creation order. *)
Section Objects.
Context {A : Type}.

Fixpoint has_key (k : string) (o : list (string * A)) : bool :=
  match o with
  | [] => false
  | (k', _) :: rest => String.eqb k k' || has_key k rest
  end.

Fixpoint update_prop (k : string) (v : A) (o : list (string * A))
    : list (string * A) :=
  match o with
  | [] => []
  | (k', v') :: rest =>
      if String.eqb k k' then (k', v) :: rest
      else (k', v') :: update_prop k v rest
  end.

Fixpoint insert_index (i : N) (k : string) (v : A) (o : list (string * A))
    : list (string * A) :=
  match o with
  | [] => [(k, v)]
  | (k', v') :: rest =>
      match array_index k' with
      | Some j =>
          if (j <? i)%N then (k', v') :: insert_index i k v rest
          else (k, v) :: o
      | None => (k, v) :: o
      end
  end.

(** [{ ...o, [k]: v }]: an existing key keeps its place and takes the
    new value; a new key is created. *)
Definition define_prop (k : string) (v : A) (o : list (string * A))
    : list (string * A) :=
  if has_key k o then update_prop k v o
  else match array_index k with
       | Some i => insert_index i k v o
       | None => (o ++ [(k, v)])%list
       end.

Definition keys (o : list (string * A)) : list string := o.*1.
End Objects.

(** ** [Promise.all] *)

Section PromiseAll.
Context {A : Type}.

(** The promises settle in some order; a fulfilment stores its value at
    the index of its promise, the first rejection rejects the whole. *)
Fixpoint settle_all (order : list nat) (settled : list (completion A))
    (values : list (option A)) : completion (list (option A)) :=
  match order with
  | [] => Normal values
  | i :: later =>
      match settled !! i with
      | Some (Normal a) => settle_all later settled (<[i := Some a]> values)
      | Some (Throw e) => Throw e
      | None => settle_all later settled values
      end
  end.

Fixpoint all_filled (values : list (option A)) : option (list A) :=
  match values with
  | [] => Some []
  | Some a :: rest => cons a <$> all_filled rest
  | None :: _ => None
  end.

(** [await Promise.all(tasks)] under a settlement order: [None] while a
    promise is still pending and none has rejected. *)
Definition promise_all (order : list nat) (settled : list (completion A))
    : option (completion (list A)) :=
  match settle_all order settled (replicate (length settled) None) with
  | Throw e => Some (Throw e)
  | Normal values => Normal <$> all_filled values
  end.
End PromiseAll.

(** ** The HTTP entry point *)

Definition is_string (v : value) : bool :=
  match v with
  | VStr _ => true
  | _ => false
  end.

(** A destructuring default: it applies to [undefined] only. *)
Definition defaulted (v fallback : value) : value :=
  match v with
  | VUndefined => fallback
  | _ => v
  end.

(** [providers.map(...)]: only an array has the method. *)
Definition array_items (v : value) : completion (list value) :=
  match v with
  | VArr items => Normal items
  | VUndefined => Throw (TypeError "Cannot read properties of undefined (reading 'map')")
  | VNull => Throw (TypeError "Cannot read properties of null (reading 'map')")
  | _ => Throw (TypeError "providers.map is not a function")
  end.

(** [results.reduce((acc, result) => ({ ...acc, [result.provider]: result }), acc)] *)
Fixpoint collect (acc : list (string * result)) (results : list result)
    : completion (list (string * result)) :=
  match results with
  | [] => Normal acc
  | r :: rest =>
      key ← to_string (provider r);
      collect (define_prop key r acc) rest
  end.

(** An [async] call started but not awaited: its promise, settled. *)
Definition start {A} (m : async A) : async (completion A) :=
  λ log, let '(log', c) := m log in (log', Normal c).

Definition json_error (status : nat) (error : string) : http_response :=
  HttpResponse status "application/json" (JsonError error).

Section Server.
Context (JSON_parse : string → completion value).
Context (env : environment).
(** The vendor side of the task at each index of [providers]. *)
Context (world : nat → network).
(** The order in which the tasks settle. *)
Context (order : list nat).
Context (dirname : string) (fs : file_system).

(** The callback of [providers.map], from index [i] on.  Every adapter
    runs up to its [fetch] when it is called, so the calls are issued in
    the order of the list; reading [config[provider]] may throw out of
    the whole [map]. *)
Fixpoint start_tasks (prompt config : value) (i : nat) (providers : list value)
    : async (list (completion result)) :=
  match providers with
  | [] => mret []
  | provider :: rest =>
      key ← lift (to_string provider);
      entry ← lift (get config key);
      task ← start (queryProvider env (world i) provider prompt
                      (or_else entry (VObj [])));
      tasks ← start_tasks prompt config (S i) rest;
      mret (task :: tasks)
  end.

(** [POST /api/query]; [None] when the handler never answers. *)
Definition handle_query (bodyText : string) : async (option http_response) :=
  match JSON_parse (if String.eqb bodyText "" then "{}" else bodyText) with
  | Throw _ => mret (Some (json_error 400 "Invalid JSON payload"))
  | Normal payload =>
      prompt ← lift (get payload "prompt");
      p ← lift (get payload "providers");
      let providers :=
        defaulted p (VArr [VStr "openai"; VStr "gemini"; VStr "anthropic"]) in
      c ← lift (get payload "config");
      let config := defaulted c (VObj []) in
      if negb (truthy prompt) || negb (is_string prompt) then
        mret (Some (json_error 400 "Prompt is required"))
      else
        items ← lift (array_items providers);
        tasks ← start_tasks prompt config 0 items;
        match promise_all order tasks with
        | None => mret None
        | Some settled =>
            results ← lift settled;
            responsePayload ← lift (collect [] results);
            mret (Some (HttpResponse 200 "application/json"
                          (JsonResponses prompt responsePayload)))
        end
  end.

(** What one request does: the [fetch] calls, the files read, and the
    response, if any. *)
Record handled := Handled {
  fetched : list fetch_request;
  files_read : list string;
  answer : option http_response
}.

(** The outer [catch]: any exception becomes the generic 500. *)
Definition or_500 {A} (c : completion A) (k : A → option http_response)
    : option http_response :=
  match c with
  | Normal a => k a
  | Throw _ => Some (json_error 500 "Internal server error")
  end.

(** The request listener, given the method, [url.pathname] and the body. *)
Definition server (method pathname bodyText : string) : handled :=
  if String.eqb method "POST" && String.eqb pathname "/api/query" then
    let '(log, c) := handle_query bodyText [] in
    Handled log [] (or_500 c id)
  else if String.eqb method "GET" then
    let '(reads, c) := serveStatic dirname fs pathname in
    Handled [] reads (or_500 c Some)
  else
    Handled [] [] (Some (json_error 405 "Method not allowed")).

End Server.

(** ** The client ([public/app.jsx]) *)

(** [o[k]] for an object that holds strings; [None] when the key is
    absent. *)
Fixpoint prop_of {A} (o : list (string * A)) (k : string) : option A :=
  match o with
  | [] => None
  | (k', v) :: rest => if String.eqb k k' then Some v else prop_of rest k
  end.

(** [Object.fromEntries(entries)]: the properties are created in the
    order of the entries, a later entry of a key replacing an earlier. *)
Definition fromEntries {A} (entries : list (string * A)) : list (string * A) :=
  fold_left (λ o entry, define_prop entry.1 entry.2 o) entries [].

Module Client.

Record descriptor := Descriptor {
  id : string;
  label : string;
  tagline : string;
  accent : string;
  placeholder : string
}.

Definition PROVIDERS : list descriptor :=
  [Descriptor "openai" "ChatGPT" "OpenAI GPT models with nuanced reasoning"
     "#7f5af0" "sk-...";
   Descriptor "gemini" "Gemini" "Google DeepMind multi-modal powerhouse"
     "#4ade80" "AIzaSy...";
   Descriptor "anthropic" "Claude" "Anthropic focus on constitutional safety"
     "#38bdf8" "sk-ant-..."].

(** [s.replace(/_/g, ' ')] *)
Fixpoint replace_underscores (s : string) : string :=
  match s with
  | EmptyString => EmptyString
  | String c s' =>
      String (if Ascii.eqb c (ascii_of_nat 95) then ascii_of_nat 32 else c)
        (replace_underscores s')
  end.

(** The [span] a status renders as. *)
Record chip := Chip { className : string; text : string }.

(** [StatusChip({ status })]: only a string has [replace]. *)
Definition StatusChip (status : value) : completion chip :=
  let normalized := or_else status (VStr "pending") in
  match normalized with
  | VStr s =>
      let label := replace_underscores s in
      Normal (Chip ("status-chip status-" +:+ s) label)
  | _ => Throw (TypeError "normalized.replace is not a function")
  end.

(** The state of [App]; [error] is [None] for [null]. *)
Record state := State {
  prompt : string;
  enabledProviders : gset string;
  apiKeys : list (string * string);
  results : value;
  isLoading : bool;
  error : option string
}.

(** The state of the first render. *)
Definition initial : state :=
  State "Explain quantum entanglement like I am a five year old."
    (list_to_set (id <$> PROVIDERS)) [] (VObj []) false None.

(** The updater [toggleProvider] hands to [setEnabledProviders]. *)
Definition toggleProvider (providerId : string) (prev : gset string) : gset string :=
  if bool_decide (providerId ∈ prev) then prev ∖ {[providerId]}
  else prev ∪ {[providerId]}.

(** The updater [handleApiKeyChange] hands to [setApiKeys]:
    [{ ...prev, [providerId]: value }]. *)
Definition handleApiKeyChange (providerId value : string)
    (prev : list (string * string)) : list (string * string) :=
  define_prop providerId value prev.

(** [PROVIDERS.filter((provider) => enabledProviders.has(provider.id)).map((p) => p.id)] *)
Definition selectedProviders (enabled : gset string) : list string :=
  id <$> filter (λ provider, id provider ∈ enabled) PROVIDERS.

(** [apiKeys[id] ? { apiKey: apiKeys[id] } : {}] *)
Definition key_config (keys : list (string * string)) (providerId : string) : value :=
  match prop_of keys providerId with
  | Some key => if String.eqb key "" then VObj [] else VObj [("apiKey", VStr key)]
  | None => VObj []
  end.

(** The object [handleSubmit] hands to [JSON.stringify]. *)
Definition request_body (st : state) (selected : list string) : value :=
  VObj [("prompt", VStr (prompt st));
        ("providers", VArr (VStr <$> selected));
        ("config",
         VObj (fromEntries ((λ p, (p, key_config (apiKeys st) p)) <$> selected)))].

(** What [handleSubmit] does before it awaits: it gives up with a
    message, or it sends a request and waits. *)
Inductive submission :=
| Refused (st : state)
| Sent (st : state) (req : fetch_request).

Definition handleSubmit (st : state) : submission :=
  let selected := selectedProviders (enabledProviders st) in
  if negb (truthy (VStr (trim (prompt st)))) then
    Refused (State (prompt st) (enabledProviders st) (apiKeys st) (VObj []) false
               (Some "Please provide a prompt before querying the models."))
  else if (length selected =? 0)%nat then
    Refused (State (prompt st) (enabledProviders st) (apiKeys st) (VObj []) false
               (Some "Select at least one model provider to compare responses."))
  else
    Sent (State (prompt st) (enabledProviders st) (apiKeys st) (VObj []) true None)
      (FetchRequest "/api/query" "POST"
         [("Content-Type", VStr "application/json")]
         (request_body st selected)).

(** The [try] block of [handleSubmit] after [fetch]: the new [results],
    or the exception that reaches the [catch]. *)
Definition received (outcome : completion response) : completion value :=
  response ← outcome;
  if negb (resp_ok response) then
    let errorPayload :=
      match resp_json response with
      | Normal payload => payload
      | Throw _ => VObj []
      end in
    e ← get errorPayload "error";
    msg ← to_string (or_else e (VStr "Unable to fetch responses."));
    Throw (Error msg)
  else
    payload ← resp_json response;
    responses ← get payload "responses";
    Normal (or_else responses (VObj [])).

(** The state once the request of a [Sent] state has settled. *)
Definition settle (st : state) (outcome : completion response) : state :=
  match received outcome with
  | Normal responses =>
      State (prompt st) (enabledProviders st) (apiKeys st) responses false (error st)
  | Throw requestError =>
      State (prompt st) (enabledProviders st) (apiKeys st) (results st) false
        (Some (err_message requestError))
  end.

(** [results[provider.id]?.status], as the grid hands it to [ResultCard]
    and [ResultCard] to [StatusChip]: [None] for the card without a result
    ("No response yet."), else the chip of the result's status. *)
Definition status_shown (st : state) (provider : descriptor)
    : completion (option chip) :=
  result ← get (results st) (id provider);
  if negb (truthy result) then Normal None
  else
    status ← get result "status";
    shown ← StatusChip status;
    Normal (Some shown).

End Client.

(** ** The response on the wire *)

(** The object a result is when [JSON.stringify] writes it: [raw] is a
    key only when the result has one.  Strings, booleans, [null], arrays
    and objects that came from [JSON.parse] are read back as they were
    written; so are the numbers but for one that overflowed when it was
    parsed, which is written as [null]. *)
Definition result_json (r : result) : value :=
  VObj ([("provider", provider r);
         ("status", VStr (status_text (status_of r)));
         ("message", message r)]
        ++ match raw r with
           | Some data => [("raw", data)]
           | None => []
           end).

(** What [response.json()] gives the client for a JSON body of the
    server; [None] for the bodies of the static files. *)
Definition body_json (b : body) : option value :=
  match b with
  | JsonError error => Some (VObj [("error", VStr error)])
  | JsonResponses prompt responses =>
      Some (VObj [("prompt", prompt);
                  ("responses", VObj (prod_map id result_json <$> responses))])
  | FileBody _ | PlainText _ => None
  end.

(** A JSON answer of the server as the client's [fetch] resolves with it,
    [text] being the body as written. *)
Definition on_the_wire (text : string) (r : http_response) : option response :=
  data ← body_json (payload_of r);
  Some (Response (code r) (Normal text) (Normal data)).

(** ** Vocabulary of the specification *)

(** The three identifiers that select an adapter. *)
Definition known_provider (p : string) : bool :=
  String.eqb p "openai" || String.eqb p "gemini" || String.eqb p "anthropic".

(** Unfolding the adapter monad. *)
Ltac run_async :=
  unfold mbind, mret, async_mbind, async_mret, async_bind, async_ret,
    completion_bind, completion_ret, cbind, throw, lift, fetch in *.

(** Case analysis on the vendor's answer to the call in the goal. *)
Ltac answered net :=
  match goal with
  | |- context [ net ?req ] => destruct (net req)
  end.

(** The adapter reached [fetch]: name the call it issued. *)
Ltac reached_fetch :=
  match goal with
  | |- context [ ?net ?req ] =>
      lazymatch type of req with
      | fetch_request => exists req; destruct (net req); split; reflexivity
      end
  end.

(** An adapter either stops before [fetch], with the
    [missing_credentials] result or an exception, and logs nothing, or it
    issues exactly one call and settles on the vendor's answer. *)
Definition adapter_shape (net : network) (id vendor variable : string)
    (extract : value → completion value)
    (log : list fetch_request) (run : list fetch_request * completion result) : Prop :=
  (run.1 = log ∧
   (run.2 = Normal (missing_credentials id variable) ∨ ∃ e, run.2 = Throw e))
  ∨ (∃ req, run.1 = (log ++ [req])%list ∧
            run.2 = (r ← net req; reply id vendor extract r)).

(** What the [catch] of [queryProvider] makes of an adapter's outcome. *)
Definition demoted (p : string) (run : list fetch_request * completion result)
    : list fetch_request * completion result :=
  match run with
  | (log, Normal r) => (log, Normal r)
  | (log, Throw e) =>
      (log, Normal (Result (VStr p) Failed
                      (or_else (VStr (err_message e)) (VStr "Unexpected error"))
                      None))
  end.

(** The invariant of a normalized result: a non-empty string message, and
    [raw] on [success] only. *)
Definition well_formed (r : result) : Prop :=
  (∃ s, message r = VStr s ∧ s ≠ "") ∧ (is_Some (raw r) → status_of r = Success).

(** An extraction yields [undefined] or a string. *)
Definition text_like (extract : value → completion value) : Prop :=
  ∀ data t, extract data = Normal t → t = VUndefined ∨ ∃ s, t = VStr s.

(** The empty string, or white space only. *)
Fixpoint all_white (s : string) : bool :=
  match s with
  | EmptyString => true
  | String c s' => is_white_space c && all_white s'
  end.

(** A text field that yields nothing: the field is missing, or it is a
    string of white space only. *)
Definition blank (v : value) : Prop :=
  nullish v = true ∨ ∃ s, v = VStr s ∧ all_white s = true.

(** A list of text segments that yields nothing: the list is missing, or
    the [text] fields of its items, joined by line breaks, are white space
    only. *)
Definition blank_parts (v : value) : Prop :=
  nullish v = true
  ∨ ∃ items texts s,
      v = VArr items
      ∧ mapM (λ item, get item "text") items = Normal texts
      ∧ join newline texts = Normal s
      ∧ all_white s = true.

(** A Gemini answer whose only texts are blanks and a missing field. *)
Definition blank_gemini_data : value :=
  VObj [("candidates",
         VArr [VObj [("content",
                      VObj [("parts", VArr [VObj [("text", VStr "  ")]; VObj []])])]])].

(** The call [queryGemini] issues for a model, a key and a prompt. *)
Definition gemini_request (model key : string) (prompt : value) : fetch_request :=
  FetchRequest
    ("https://generativelanguage.googleapis.com/v1beta/models/" +:+ model
     +:+ ":generateContent?key=" +:+ key)
    "POST" [("Content-Type", VStr "application/json")]
    (VObj [("contents",
            VArr [VObj [("role", VStr "user");
                        ("parts", VArr [VObj [("text", prompt)]])]])]).

(** The identifiers of a list, each at its first occurrence. *)
Fixpoint first_occurrences (ids : list string) : list string :=
  match ids with
  | [] => []
  | p :: rest => p :: filter (λ q, q ≠ p) (first_occurrences rest)
  end.

(** A request for [gemini], [openai] and [gemini] again. *)
Definition repeated_request : value :=
  VObj [("prompt", VStr "hello");
        ("providers", VArr (VStr <$> ["gemini"; "openai"; "gemini"]))].

(** The adapter reached [fetch]: the call it issued, and its shape. *)
Ltac called :=
  match goal with
  | |- context [ ?net ?req ] =>
      lazymatch type of req with
      | fetch_request =>
          right; exists req; destruct (net req); repeat split; try reflexivity
      end
  end.

(** The endpoint of a provider: the address its adapter may call. *)
Definition vendor_endpoint (p url : string) : bool :=
  if String.eqb p "openai" then
    String.eqb url "https://api.openai.com/v1/chat/completions"
  else if String.eqb p "gemini" then
    starts_with "https://generativelanguage.googleapis.com/v1beta/models/" url
  else if String.eqb p "anthropic" then
    String.eqb url "https://api.anthropic.com/v1/messages"
  else false.

(** What an adapter logs: nothing, or one [POST] to its own endpoint. *)
Definition calls_of (p : string) (log : list fetch_request)
    (run : list fetch_request * completion result) : Prop :=
  run.1 = log
  ∨ ∃ req, run.1 = (log ++ [req])%list
           ∧ fr_method req = "POST"
           ∧ vendor_endpoint p (fr_url req) = true.

(** The call [queryAnthropic] issues for a key and a prompt, with the
    default model and token limit. *)
Definition anthropic_request (key : string) (prompt : value) : fetch_request :=
  FetchRequest "https://api.anthropic.com/v1/messages" "POST"
    [("Content-Type", VStr "application/json");
     ("x-api-key", VStr key);
     ("anthropic-version", VStr "2023-06-01")]
    (VObj [("model", VStr "claude-3-haiku-20240307");
           ("max_tokens", VNum (number_of_nat 1024));
           ("messages",
            VArr [VObj [("role", VStr "user"); ("content", prompt)]])]).

(** An Anthropic answer in two text blocks. *)
Definition two_block_data : value :=
  VObj [("content",
         VArr [VObj [("type", VStr "text"); ("text", VStr "  Hi")];
               VObj [("type", VStr "text"); ("text", VStr "there ")]])].

(** The name holds a [.]. *)
Fixpoint has_dot (s : string) : bool :=
  match s with
  | EmptyString => false
  | String c s' => Ascii.eqb c Path.dot || has_dot s'
  end.

(** The extensions [getContentType] knows, without their dot. *)
Definition known_extensions : list string := ["html"; "css"; "js"; "json"; "svg"].

(** A client with two providers enabled and a key typed for one. *)
Definition typed_state : Client.state :=
  Client.State "hello" (list_to_set ["anthropic"; "openai"])
    [("openai", "sk-1")] (VObj []) false None.

(** The request [handleSubmit] sends from [typed_state]. *)
Definition typed_request : fetch_request :=
  FetchRequest "/api/query" "POST" [("Content-Type", VStr "application/json")]
    (VObj [("prompt", VStr "hello");
           ("providers", VArr [VStr "openai"; VStr "anthropic"]);
           ("config",
            VObj [("openai", VObj [("apiKey", VStr "sk-1")]);
                  ("anthropic", VObj [])])]).

(** [typed_state] once [handleSubmit] has sent its request. *)
Definition typed_sent : Client.state :=
  Client.State "hello" (list_to_set ["anthropic"; "openai"])
    [("openai", "sk-1")] (VObj []) true None.

(** A network on which every call is rejected. *)
Definition offline : nat → network := λ _ _, Throw (Error "offline").

(** The answer of the server to [typed_request] when [offline], no key
    being set in the environment. *)
Definition typed_answer : http_response :=
  HttpResponse 200 "application/json"
    (JsonResponses (VStr "hello")
       [("openai", Result (VStr "openai") Failed (VStr "offline") None);
        ("anthropic",
         Result (VStr "anthropic") MissingCredentials
           (VStr "ANTHROPIC_API_KEY is not set") None)]).

(** [config.apiKey || process.env.NAME], the key an adapter uses. *)
Definition api_key (env : environment) (variable : string) (config : value)
    : completion value :=
  key ← get config "apiKey";
  Normal (or_else key (env_get env variable)).

(** The environment variable of a known provider. *)
Definition variable_of (p : string) : string :=
  if String.eqb p "openai" then "OPENAI_API_KEY"
  else if String.eqb p "gemini" then "GEMINI_API_KEY"
  else if String.eqb p "anthropic" then "ANTHROPIC_API_KEY"
  else "".

(** The adapter of [p] has what it needs to call its vendor: a truthy
    key, which OpenAI and Gemini must be able to write into the bearer
    token and the address (Anthropic sends it as it is), and for Gemini a
    model name that can be written into the address. *)
Definition ready (env : environment) (p : string) (config : value) : Prop :=
  ∃ apiKey,
    api_key env (variable_of p) config = Normal apiKey
    ∧ truthy apiKey = true
    ∧ (p ≠ "anthropic" → ∃ text, to_string apiKey = Normal text)
    ∧ (p = "gemini" →
       ∃ m modelText,
         get config "model" = Normal m
         ∧ to_string (or_else m (VStr "gemini-1.5-flash")) = Normal modelText).

(** The vendor answers every call to the endpoint of [p] with [r]. *)
Definition answers (p : string) (net : network) (r : response) : Prop :=
  ∀ req, vendor_endpoint p (fr_url req) = true → net req = Normal r.

(** The adapter reached [fetch]: the call it issued answers the goal. *)
Ltac issued net :=
  match goal with
  | |- context [ net ?req ] =>
      lazymatch type of req with
      | fetch_request =>
          exists req; repeat split; try reflexivity; try (by destruct (net req))
      end
  end.

(** Where the request of the adapter of [p] carries the key: the bearer
    token for OpenAI, the [key] parameter of the address for Gemini, the
    [x-api-key] header for Anthropic; the headers hold nothing else but
    the content type and the version. *)
Definition carries_key (p : string) (apiKey : value) (req : fetch_request) : Prop :=
  if String.eqb p "openai" then
    ∃ text,
      to_string apiKey = Normal text
      ∧ fr_headers req = [("Content-Type", VStr "application/json");
                          ("Authorization", VStr ("Bearer " +:+ text))]
  else if String.eqb p "gemini" then
    ∃ text modelText,
      to_string apiKey = Normal text
      ∧ fr_url req = "https://generativelanguage.googleapis.com/v1beta/models/"
                     +:+ modelText +:+ ":generateContent?key=" +:+ text
      ∧ fr_headers req = [("Content-Type", VStr "application/json")]
  else if String.eqb p "anthropic" then
    fr_headers req = [("Content-Type", VStr "application/json");
                      ("x-api-key", apiKey);
                      ("anthropic-version", VStr "2023-06-01")]
  else False.

(** What an adapter logs, with its key: nothing, or one [POST] to its own
    endpoint that carries the key of its own variable. *)
Definition sends_of (env : environment) (p : string) (cfg : value)
    (log : list fetch_request) (run : list fetch_request * completion result) : Prop :=
  run.1 = log
  ∨ ∃ req apiKey,
      run.1 = (log ++ [req])%list
      ∧ fr_method req = "POST"
      ∧ vendor_endpoint p (fr_url req) = true
      ∧ api_key env (variable_of p) cfg = Normal apiKey
      ∧ truthy apiKey = true
      ∧ carries_key p apiKey req.

(** The adapter reached [fetch] with its key: name the call and the key. *)
Ltac sent net key :=
  match goal with
  | |- context [ net ?req ] =>
      lazymatch type of req with
      | fetch_request =>
          right; exists req, key; destruct (net req);
            repeat split; try reflexivity; try done;
            unfold carries_key; simpl; eauto 10
      end
  end.

(** An OpenAI answer without choices. *)
Definition empty_openai_data : value := VObj [("choices", VArr [])].

(** An Anthropic answer whose only block has no [text]. *)
Definition textless_anthropic_data : value :=
  VObj [("content", VArr [VObj [("type", VStr "tool_use")]])].

(** A vendor that answers every call with 200 and the JSON body [data]. *)
Definition always (data : value) : network :=
  λ _, Normal (Response 200 (Normal "") (Normal data)).

(** The status codes the server writes. *)
Definition server_codes : list nat := [200; 400; 404; 405; 500].

(** * Properties *)

(** ** The definitions on concrete inputs *)

Example normalize_absolute_traversal :
  Path.normalize "/../etc/passwd" = "/etc/passwd".
Proof. reflexivity. Qed.

Example normalize_relative_traversal :
  Path.normalize "../../etc/passwd" = "../../etc/passwd".
Proof. reflexivity. Qed.

Example normalize_dots_and_slashes :
  Path.normalize "/a/b/../../../c/./d//" = "/c/d/".
Proof. reflexivity. Qed.

Example resolve_root : resolve "/srv/app" "/" = "/srv/app/public/index.html".
Proof. reflexivity. Qed.

(** The leading [../] that the [replace] removes is one only; a pathname
    never is relative. *)
Example resolve_relative :
  resolve "/srv/app" "../../etc/passwd" = "/srv/app/etc/passwd".
Proof. reflexivity. Qed.

Example content_type_of_script :
  getContentType "/srv/app/public/app.jsx" = "application/octet-stream".
Proof. reflexivity. Qed.

Example trim_both_ends : trim (" " +:+ newline +:+ "a b  ") = "a b".
Proof. reflexivity. Qed.

Example to_string_nested_array :
  to_string (VArr [VNull; VStr "a"; VArr [VBool true; VUndefined]; VObj []]) =
  Normal ",a,true,,[object Object]".
Proof. reflexivity. Qed.

Example index_keys_come_first :
  keys (define_prop "7" 3 (define_prop "10" 2 (define_prop "b" 1 []))) =
  ["7"; "10"; "b"].
Proof. reflexivity. Qed.

Example promise_all_any_order :
  promise_all [2; 0; 1] [Normal "a"; Normal "b"; Normal "c"] =
  Some (Normal ["a"; "b"; "c"]).
Proof. reflexivity. Qed.

Example promise_all_first_rejection :
  promise_all [2; 1; 0] [Normal "a"; Throw (Error "x"); Throw (Error "y")] =
  Some (Throw (Error "y")).
Proof. reflexivity. Qed.

Example promise_all_pending :
  promise_all [0] [Normal "a"; Normal "b"] = None.
Proof. reflexivity. Qed.

Example openai_answer :
  openai_text
    (VObj [("choices",
            VArr [VObj [("message", VObj [("content", VStr "  hi ")])]])]) =
  Normal (VStr "hi").
Proof. reflexivity. Qed.

Example openai_null_body :
  openai_text VNull =
  Throw (TypeError "Cannot read properties of null (reading 'choices')").
Proof. reflexivity. Qed.

(** ** Strings *)

Lemma eqb_false_neq (a b : string) : a ≠ b → String.eqb a b = false.
Proof. intros H. by apply String.eqb_neq. Qed.

Lemma starts_with_append (n rest : string) : starts_with n (n +:+ rest) = true.
Proof.
  induction n as [|c n IH]; simpl; [done|].
  by rewrite Ascii.eqb_refl.
Qed.

Lemma includes_here (n rest : string) : includes n (n +:+ rest) = true.
Proof.
  assert (U : ∀ h, starts_with n h = true → includes n h = true).
  { intros [|c h] H; simpl; by rewrite H. }
  apply U, starts_with_append.
Qed.

Lemma append_assoc (a b c : string) : a +:+ b +:+ c = (a +:+ b) +:+ c.
Proof.
  induction a as [|x a IH]; [done|].
  change (String x (a +:+ b +:+ c) = String x ((a +:+ b) +:+ c)). by f_equal.
Qed.

Lemma includes_append (before n rest : string) :
  includes n (before +:+ n +:+ rest) = true.
Proof.
  induction before as [|c before IH].
  - exact (includes_here n rest).
  - change (starts_with n (String c (before +:+ n +:+ rest))
            || includes n (before +:+ n +:+ rest) = true).
    rewrite IH. apply orb_true_r.
Qed.

(** ** The dispatcher *)

Lemma is_literal_str (p s : string) : is_literal (VStr p) s = String.eqb p s.
Proof. reflexivity. Qed.

Lemma unknown_dispatch env net (p : string) prompt cfg log :
  known_provider p = false →
  queryProvider env net (VStr p) prompt cfg log =
  (log, Normal (Result (VStr p) Unsupported
                  (VStr ("Provider " +:+ dquote +:+ p +:+ dquote
                         +:+ " is not implemented")) None)).
Proof.
  unfold known_provider. intros H.
  apply orb_false_elim in H as [H Ha]. apply orb_false_elim in H as [Ho Hg].
  unfold queryProvider, try_catch. rewrite !is_literal_str, Ho, Hg, Ha.
  reflexivity.
Qed.

(** C6.  An identifier other than [openai], [gemini] and [anthropic],
    with any prompt and configuration, gets the [unsupported] result; its
    message quotes the identifier, and the log of [fetch] calls is left
    as it was: no network call is made. *)
Theorem C6_unknown_provider_unsupported env net (p : string) prompt cfg log :
  p ≠ "openai" → p ≠ "gemini" → p ≠ "anthropic" →
  ∃ msg,
    queryProvider env net (VStr p) prompt cfg log =
      (log, Normal (Result (VStr p) Unsupported (VStr msg) None))
    ∧ includes p msg = true.
Proof.
  intros Ho Hg Ha. eexists. split.
  - apply unknown_dispatch. unfold known_provider.
    by rewrite !eqb_false_neq.
  - apply (includes_append ("Provider " +:+ dquote)).
Qed.

Lemma C6_witness :
  ∃ msg,
    queryProvider (λ _, None) (λ _, Throw (Error "offline")) (VStr "mistral")
      (VStr "hello") (VObj []) [] =
      ([], Normal (Result (VStr "mistral") Unsupported (VStr msg) None))
    ∧ includes "mistral" msg = true.
Proof.
  apply (C6_unknown_provider_unsupported (λ _, None) (λ _, Throw (Error "offline"))
           "mistral" (VStr "hello") (VObj []) []); done.
Defined.

(** ** The adapters *)

Lemma queryOpenAI_shape env net prompt cfg log :
  adapter_shape net "openai" "OpenAI" "OPENAI_API_KEY" openai_text log
    (queryOpenAI env net prompt cfg log).
Proof.
  unfold adapter_shape, queryOpenAI. run_async.
  destruct (get cfg "apiKey") as [key|e]; [|left; eauto].
  destruct (truthy _); simpl; [|left; eauto].
  destruct (get cfg "model") as [model|e]; [|left; eauto].
  destruct (to_string _) as [bearer|e]; [|left; eauto].
  right. reached_fetch.
Qed.

Lemma queryGemini_shape env net prompt cfg log :
  adapter_shape net "gemini" "Gemini" "GEMINI_API_KEY" gemini_text log
    (queryGemini env net prompt cfg log).
Proof.
  unfold adapter_shape, queryGemini. run_async.
  destruct (get cfg "apiKey") as [key|e]; [|left; eauto].
  destruct (truthy _); simpl; [|left; eauto].
  destruct (get cfg "model") as [model|e]; [|left; eauto].
  destruct (to_string (or_else model _)) as [modelText|e]; [|left; eauto].
  destruct (to_string _) as [keyText|e]; [|left; eauto].
  right. reached_fetch.
Qed.

Lemma queryAnthropic_shape env net prompt cfg log :
  adapter_shape net "anthropic" "Anthropic" "ANTHROPIC_API_KEY" anthropic_text log
    (queryAnthropic env net prompt cfg log).
Proof.
  unfold adapter_shape, queryAnthropic. run_async.
  destruct (get cfg "apiKey") as [key|e]; [|left; eauto].
  destruct (truthy _); simpl; [|left; eauto].
  destruct (get cfg "model") as [model|e]; [|left; eauto].
  destruct (get cfg "maxTokens") as [maxTokens|e]; [|left; eauto].
  right. reached_fetch.
Qed.

Lemma queryProvider_openai env net prompt cfg log :
  queryProvider env net (VStr "openai") prompt cfg log =
  demoted "openai" (queryOpenAI env net prompt cfg log).
Proof.
  unfold queryProvider, try_catch, demoted. simpl.
  by destruct (queryOpenAI _ _ _ _ _) as [? []].
Qed.

Lemma queryProvider_gemini env net prompt cfg log :
  queryProvider env net (VStr "gemini") prompt cfg log =
  demoted "gemini" (queryGemini env net prompt cfg log).
Proof.
  unfold queryProvider, try_catch, demoted. simpl.
  by destruct (queryGemini _ _ _ _ _) as [? []].
Qed.

Lemma queryProvider_anthropic env net prompt cfg log :
  queryProvider env net (VStr "anthropic") prompt cfg log =
  demoted "anthropic" (queryAnthropic env net prompt cfg log).
Proof.
  unfold queryProvider, try_catch, demoted. simpl.
  by destruct (queryAnthropic _ _ _ _ _) as [? []].
Qed.

Lemma known_provider_cases (p : string) :
  known_provider p = true → p = "openai" ∨ p = "gemini" ∨ p = "anthropic".
Proof.
  unfold known_provider. intros H.
  apply orb_true_iff in H as [H|H]; [apply orb_true_iff in H as [H|H]|];
    apply String.eqb_eq in H; auto.
Qed.

(** For a string identifier the dispatcher always returns a result, and
    the result names the identifier. *)
Lemma queryProvider_returns env net (p : string) prompt cfg log :
  ∃ log' r, queryProvider env net (VStr p) prompt cfg log = (log', Normal r)
            ∧ provider r = VStr p.
Proof.
  destruct (known_provider p) eqn:K.
  - assert (S : ∀ id vendor variable extract run,
               adapter_shape net id vendor variable extract log run →
               ∃ log' r, demoted id run = (log', Normal r) ∧ provider r = VStr id).
    { intros id vendor variable extract [log' c] [[_ [E|[e E]]]|[req [_ E]]];
        simpl in E; subst c; simpl; eauto.
      unfold reply. destruct (net req) as [r|e]; simpl; eauto.
      destruct (negb _); simpl.
      - destruct (resp_text r); simpl; eauto.
      - destruct (resp_json r) as [data|]; simpl; eauto.
        destruct (extract data); simpl; eauto. }
    apply known_provider_cases in K as [-> | [-> | ->]].
    + rewrite queryProvider_openai. eapply S, queryOpenAI_shape.
    + rewrite queryProvider_gemini. eapply S, queryGemini_shape.
    + rewrite queryProvider_anthropic. eapply S, queryAnthropic_shape.
  - rewrite unknown_dispatch by done. eauto.
Qed.

Lemma or_else_message (m : string) :
  or_else (VStr m) (VStr "Unexpected error") =
  VStr (if decide (m = "") then "Unexpected error" else m).
Proof.
  unfold or_else. simpl. case_decide as E.
  - by rewrite E.
  - by rewrite eqb_false_neq.
Qed.

Lemma demoted_throw p log e :
  demoted p (log, Throw e) =
  (log, Normal (Result (VStr p) Failed
                  (VStr (if decide (err_message e = "") then "Unexpected error"
                         else err_message e)) None)).
Proof. unfold demoted. by rewrite or_else_message. Qed.

(** C3, as the code has it.  For every string identifier [queryProvider]
    returns a result and never rejects; an exception thrown by an adapter
    is caught at the call and becomes the [error] result of that provider,
    whose message is the exception's message, or ["Unexpected error"] when
    that message is empty. *)
Theorem C3_adapter_failures_are_demoted env net prompt cfg log :
  (∀ p : string,
     ∃ log' r, queryProvider env net (VStr p) prompt cfg log = (log', Normal r))
  ∧ (∀ log' e,
       queryOpenAI env net prompt cfg log = (log', Throw e) →
       queryProvider env net (VStr "openai") prompt cfg log =
       (log', Normal (Result (VStr "openai") Failed
                        (VStr (if decide (err_message e = "")
                               then "Unexpected error" else err_message e))
                        None)))
  ∧ (∀ log' e,
       queryGemini env net prompt cfg log = (log', Throw e) →
       queryProvider env net (VStr "gemini") prompt cfg log =
       (log', Normal (Result (VStr "gemini") Failed
                        (VStr (if decide (err_message e = "")
                               then "Unexpected error" else err_message e))
                        None)))
  ∧ (∀ log' e,
       queryAnthropic env net prompt cfg log = (log', Throw e) →
       queryProvider env net (VStr "anthropic") prompt cfg log =
       (log', Normal (Result (VStr "anthropic") Failed
                        (VStr (if decide (err_message e = "")
                               then "Unexpected error" else err_message e))
                        None))).
Proof.
  repeat split.
  - intros p. destruct (queryProvider_returns env net p prompt cfg log)
      as (log' & r & E & _). eauto.
  - intros log' e E. by rewrite queryProvider_openai, E, demoted_throw.
  - intros log' e E. by rewrite queryProvider_gemini, E, demoted_throw.
  - intros log' e E. by rewrite queryProvider_anthropic, E, demoted_throw.
Qed.

(** ** The shape of results *)

Lemma call_trim_text what v t :
  call_trim what v = Normal t → ∃ s, t = VStr s.
Proof. destruct v; simpl; intros E; inversion E; eauto. Qed.

Lemma joined_text_like what base t :
  joined_text what base = Normal t → t = VUndefined ∨ ∃ s, t = VStr s.
Proof.
  unfold joined_text. destruct (nullish base).
  - intros E. inversion E. auto.
  - run_async. destruct (map_text what base); [|done].
    destruct (join newline a); [|done]. simpl. intros E. inversion E. eauto.
Qed.

Lemma openai_text_like : text_like openai_text.
Proof.
  intros data t. unfold openai_text. run_async.
  destruct (openai_content data) as [content|]; [|done].
  destruct (nullish content).
  - intros E. inversion E. auto.
  - intros E. right. by eapply call_trim_text.
Qed.

Lemma gemini_text_like : text_like gemini_text.
Proof.
  intros data t. unfold gemini_text. run_async.
  destruct (gemini_parts data); [|done]. apply joined_text_like.
Qed.

Lemma anthropic_text_like : text_like anthropic_text.
Proof.
  intros data t. unfold anthropic_text. run_async.
  destruct (get data "content"); [|done]. apply joined_text_like.
Qed.

Lemma or_else_no_response t :
  t = VUndefined ∨ (∃ s, t = VStr s) →
  ∃ s, or_else t no_response = VStr s ∧ s ≠ "".
Proof.
  intros [->|[s ->]]; unfold or_else, no_response; simpl.
  - eexists. split; [reflexivity|done].
  - destruct (String.eqb s "") eqn:E; simpl.
    + eexists. split; [reflexivity|done].
    + exists s. split; [done|]. by apply String.eqb_neq.
Qed.

Lemma reply_well_formed id vendor extract r res :
  text_like extract →
  reply id vendor extract r = Normal res → well_formed res.
Proof.
  intros T. unfold reply. run_async. destruct (negb _).
  - by destruct (resp_text r).
  - destruct (resp_json r) as [data|]; [|done].
    destruct (extract data) as [t|] eqn:E; [|done].
    intros [= <-]. split; simpl; [|done].
    apply or_else_no_response. eauto.
Qed.

Lemma demoted_well_formed net id vendor variable extract log run log' res :
  text_like extract →
  adapter_shape net id vendor variable extract log run →
  demoted id run = (log', Normal res) → well_formed res.
Proof.
  intros T S. destruct run as [l c]. simpl in S.
  assert (F : ∀ e, well_formed
                (Result (VStr id) Failed
                   (or_else (VStr (err_message e)) (VStr "Unexpected error")) None)).
  { intros e. rewrite or_else_message. split; simpl.
    - eexists. split; [reflexivity|]. by case_decide.
    - by intros [? ?]. }
  destruct c as [r|e]; simpl; intros [= <- <-]; [|apply F].
  destruct S as [[_ [[= ->]|[e [=]]]]|[req [_ E]]].
  - split; simpl; [|by intros [? ?]].
    eexists. split; [reflexivity|]. unfold missing_credentials.
    destruct variable; done.
  - destruct (net req) as [resp|]; [|done]. by eapply reply_well_formed.
Qed.

(** C4.  Whatever the identifier, prompt, configuration and vendor
    outcome, every result [queryProvider] produces has a message that is a
    non-empty string and carries [raw] only when its status is [success].
    A result is produced for every string identifier: only an identifier
    that is not a string can make the call reject. *)
Theorem C4_results_are_well_formed env net provider prompt cfg log :
  match queryProvider env net provider prompt cfg log with
  | (_, Normal r) => well_formed r
  | (_, Throw _) => is_string provider = false
  end.
Proof.
  assert (U : ∀ v, is_string v = false →
    match queryProvider env net v prompt cfg log with
    | (_, Normal r) => well_formed r
    | (_, Throw _) => is_string v = false
    end).
  { intros v Hv. unfold queryProvider, try_catch.
    replace (is_literal v "openai") with false by by destruct v.
    replace (is_literal v "gemini") with false by by destruct v.
    replace (is_literal v "anthropic") with false by by destruct v.
    run_async. destruct (to_string v) as [name|e]; simpl; [|done].
    split; simpl; [|by intros [? ?]].
    eexists. split; [reflexivity|done]. }
  destruct provider as [| | | |p| |]; try (by apply U).
  destruct (queryProvider env net (VStr p) prompt cfg log) as [log' [r|e]] eqn:E.
  - destruct (known_provider p) eqn:K.
    + apply known_provider_cases in K as [-> | [-> | ->]].
      * rewrite queryProvider_openai in E.
        eapply demoted_well_formed, E;
          [apply openai_text_like | apply queryOpenAI_shape].
      * rewrite queryProvider_gemini in E.
        eapply demoted_well_formed, E;
          [apply gemini_text_like | apply queryGemini_shape].
      * rewrite queryProvider_anthropic in E.
        eapply demoted_well_formed, E;
          [apply anthropic_text_like | apply queryAnthropic_shape].
    + rewrite unknown_dispatch in E by done. injection E as <- <-.
      split; simpl; [|by intros [? ?]].
      eexists. split; [reflexivity|done].
  - destruct (queryProvider_returns env net p prompt cfg log) as (? & ? & E' & _).
    congruence.
Qed.

(** ** Credentials *)

Lemma env_get_unset env name : env name = None → env_get env name = VUndefined.
Proof. unfold env_get. by intros ->. Qed.

(** C5.  When the configuration has no [apiKey] and the vendor's
    environment variable is unset, each adapter returns the
    [missing_credentials] result at once; the log of [fetch] calls is
    unchanged, so no network call is issued. *)
Theorem C5_missing_credentials env net prompt cfg log :
  get cfg "apiKey" = Normal VUndefined →
  (env "OPENAI_API_KEY" = None →
   queryOpenAI env net prompt cfg log =
   (log, Normal (Result (VStr "openai") MissingCredentials
                   (VStr "OPENAI_API_KEY is not set") None)))
  ∧ (env "GEMINI_API_KEY" = None →
     queryGemini env net prompt cfg log =
     (log, Normal (Result (VStr "gemini") MissingCredentials
                     (VStr "GEMINI_API_KEY is not set") None)))
  ∧ (env "ANTHROPIC_API_KEY" = None →
     queryAnthropic env net prompt cfg log =
     (log, Normal (Result (VStr "anthropic") MissingCredentials
                     (VStr "ANTHROPIC_API_KEY is not set") None))).
Proof.
  intros K. repeat split; intros E.
  - unfold queryOpenAI. run_async. by rewrite K, (env_get_unset _ _ E).
  - unfold queryGemini. run_async. by rewrite K, (env_get_unset _ _ E).
  - unfold queryAnthropic. run_async. by rewrite K, (env_get_unset _ _ E).
Qed.

Lemma C5_witness :
  queryOpenAI (λ _, None) (λ _, Throw (Error "offline")) (VStr "hello")
    (VObj [("model", VStr "gpt-4o")]) [] =
  ([], Normal (Result (VStr "openai") MissingCredentials
                 (VStr "OPENAI_API_KEY is not set") None)).
Proof.
  apply (C5_missing_credentials (λ _, None) (λ _, Throw (Error "offline"))
           (VStr "hello") (VObj [("model", VStr "gpt-4o")]) []); reflexivity.
Defined.

(** The key an adapter resolves depends on [apiKey] only through
    [apiKey || process.env.NAME]. *)
Lemma or_else_empty_string fallback :
  or_else (VStr "") fallback = or_else VUndefined fallback.
Proof. reflexivity. Qed.

(** C10.  An [apiKey] that is the empty string counts as no override: each
    adapter behaves exactly as on a configuration without [apiKey] (and
    the same [model] and [maxTokens]), so the key comes from the
    environment variable, and the result is [missing_credentials] when
    that variable is unset or empty too. *)
Theorem C10_empty_key_is_no_override env net prompt cfg log :
  get cfg "apiKey" = Normal (VStr "") →
  (∀ cfg',
     get cfg' "apiKey" = Normal VUndefined →
     get cfg' "model" = get cfg "model" →
     get cfg' "maxTokens" = get cfg "maxTokens" →
     queryOpenAI env net prompt cfg log = queryOpenAI env net prompt cfg' log
     ∧ queryGemini env net prompt cfg log = queryGemini env net prompt cfg' log
     ∧ queryAnthropic env net prompt cfg log = queryAnthropic env net prompt cfg' log)
  ∧ (env "OPENAI_API_KEY" = None ∨ env "OPENAI_API_KEY" = Some "" →
     queryOpenAI env net prompt cfg log =
     (log, Normal (Result (VStr "openai") MissingCredentials
                     (VStr "OPENAI_API_KEY is not set") None)))
  ∧ (env "GEMINI_API_KEY" = None ∨ env "GEMINI_API_KEY" = Some "" →
     queryGemini env net prompt cfg log =
     (log, Normal (Result (VStr "gemini") MissingCredentials
                     (VStr "GEMINI_API_KEY is not set") None)))
  ∧ (env "ANTHROPIC_API_KEY" = None ∨ env "ANTHROPIC_API_KEY" = Some "" →
     queryAnthropic env net prompt cfg log =
     (log, Normal (Result (VStr "anthropic") MissingCredentials
                     (VStr "ANTHROPIC_API_KEY is not set") None)))
  ∧ (∀ k, env "OPENAI_API_KEY" = Some k → k ≠ "" →
     ∃ req c, queryOpenAI env net prompt cfg log = ((log ++ [req])%list, c)
              ∧ ("Authorization", VStr ("Bearer " +:+ k)) ∈ fr_headers req)
  ∧ (∀ k m modelText, env "GEMINI_API_KEY" = Some k → k ≠ "" →
     get cfg "model" = Normal m →
     to_string (or_else m (VStr "gemini-1.5-flash")) = Normal modelText →
     ∃ req c, queryGemini env net prompt cfg log = ((log ++ [req])%list, c)
              ∧ fr_url req =
                "https://generativelanguage.googleapis.com/v1beta/models/"
                +:+ modelText +:+ ":generateContent?key=" +:+ k)
  ∧ (∀ k, env "ANTHROPIC_API_KEY" = Some k → k ≠ "" →
     ∃ req c, queryAnthropic env net prompt cfg log = ((log ++ [req])%list, c)
              ∧ ("x-api-key", VStr k) ∈ fr_headers req).
Proof.
  assert (G : ∀ v k x, get v k = Normal x → ∀ k', ∃ y, get v k' = Normal y).
  { intros v k x E k'. destruct v; simpl in *; eauto; done. }
  intros K. split; [|repeat split].
  - intros cfg' K' M T.
    unfold queryOpenAI, queryGemini, queryAnthropic. run_async.
    by rewrite K, K', M, T, !or_else_empty_string.
  - intros E. unfold queryOpenAI, env_get. run_async.
    rewrite K. by destruct E as [-> | ->].
  - intros E. unfold queryGemini, env_get. run_async.
    rewrite K. by destruct E as [-> | ->].
  - intros E. unfold queryAnthropic, env_get. run_async.
    rewrite K. by destruct E as [-> | ->].
  - intros k E Hk. destruct (G _ _ _ K "model") as [m M].
    unfold queryOpenAI, env_get. run_async. rewrite K, E, M.
    unfold or_else at 1. simpl. rewrite (eqb_false_neq _ _ Hk). simpl.
    answered net; do 2 eexists; (split; [reflexivity|]); simpl;
      rewrite !elem_of_cons; auto.
  - intros k m modelText E Hk M T.
    unfold queryGemini, env_get. run_async. rewrite K, E, M.
    unfold or_else at 1. simpl. rewrite (eqb_false_neq _ _ Hk). simpl.
    rewrite T. simpl. answered net; do 2 eexists; split; reflexivity.
  - intros k E Hk. destruct (G _ _ _ K "model") as [m M].
    destruct (G _ _ _ K "maxTokens") as [t T].
    unfold queryAnthropic, env_get. run_async. rewrite K, E, M, T.
    unfold or_else at 1. simpl. rewrite (eqb_false_neq _ _ Hk). simpl.
    answered net; do 2 eexists; (split; [reflexivity|]); simpl;
      rewrite !elem_of_cons; auto.
Qed.

Lemma C10_witness :
  queryAnthropic (λ _, Some "") (λ _, Throw (Error "offline")) (VStr "hello")
    (VObj [("apiKey", VStr "")]) [] =
  ([], Normal (Result (VStr "anthropic") MissingCredentials
                 (VStr "ANTHROPIC_API_KEY is not set") None)).
Proof.
  apply (C10_empty_key_is_no_override (λ _, Some "")
           (λ _, Throw (Error "offline")) (VStr "hello")
           (VObj [("apiKey", VStr "")]) []);
    [reflexivity | right; reflexivity].
Defined.

(** ** The call of an adapter that has a key *)

Lemma get_of_object v k :
  v ≠ VNull → v ≠ VUndefined → ∃ x, get v k = Normal x.
Proof. destruct v; simpl; eauto; done. Qed.

Lemma get_elsewhere v k x k' : get v k = Normal x → ∃ y, get v k' = Normal y.
Proof. intros E. apply get_of_object; intros ->; done. Qed.

Lemma api_key_inv env variable cfg apiKey :
  api_key env variable cfg = Normal apiKey →
  ∃ key, get cfg "apiKey" = Normal key
         ∧ apiKey = or_else key (env_get env variable).
Proof.
  unfold api_key. destruct (get cfg "apiKey") as [key|e] eqn:G; [|done].
  intros [= <-]. eauto.
Qed.

Lemma queryOpenAI_reaches env net prompt cfg log :
  ready env "openai" cfg →
  ∃ req,
    vendor_endpoint "openai" (fr_url req) = true
    ∧ queryOpenAI env net prompt cfg log =
      ((log ++ [req])%list, r ← net req; reply "openai" "OpenAI" openai_text r).
Proof.
  intros R. unfold ready in R.
  change (variable_of "openai") with "OPENAI_API_KEY" in R.
  destruct R as (apiKey & (key & G & ->)%api_key_inv & T & P & _).
  destruct P as [text P]; [done|].
  destruct (get_elsewhere _ _ _ "model" G) as [m M].
  unfold queryOpenAI. run_async. rewrite G, T, M. simpl. rewrite P. simpl.
  issued net.
Qed.

Lemma queryGemini_reaches env net prompt cfg log :
  ready env "gemini" cfg →
  ∃ req,
    vendor_endpoint "gemini" (fr_url req) = true
    ∧ queryGemini env net prompt cfg log =
      ((log ++ [req])%list, r ← net req; reply "gemini" "Gemini" gemini_text r).
Proof.
  intros R. unfold ready in R.
  change (variable_of "gemini") with "GEMINI_API_KEY" in R.
  destruct R as (apiKey & (key & G & ->)%api_key_inv & T & P & M).
  destruct P as [text P]; [done|].
  destruct M as (m & modelText & M & PM); [done|].
  unfold queryGemini. run_async. rewrite G, T, M. simpl. rewrite PM, P. simpl.
  issued net.
Qed.

Lemma queryAnthropic_reaches env net prompt cfg log :
  ready env "anthropic" cfg →
  ∃ req,
    vendor_endpoint "anthropic" (fr_url req) = true
    ∧ queryAnthropic env net prompt cfg log =
      ((log ++ [req])%list,
       r ← net req; reply "anthropic" "Anthropic" anthropic_text r).
Proof.
  intros R. unfold ready in R.
  change (variable_of "anthropic") with "ANTHROPIC_API_KEY" in R.
  destruct R as (apiKey & (key & G & ->)%api_key_inv & T & _).
  destruct (get_elsewhere _ _ _ "model" G) as [m M].
  destruct (get_elsewhere _ _ _ "maxTokens" G) as [t Mt].
  unfold queryAnthropic. run_async. rewrite G, T, M, Mt. simpl.
  issued net.
Qed.

(** A known provider that is ready is called, and what [queryProvider]
    returns is what its [catch] makes of the reply. *)
Lemma queryProvider_reaches env net (p : string) prompt cfg log r :
  known_provider p = true → ready env p cfg → answers p net r →
  ∃ req vendor extract,
    net req = Normal r
    ∧ queryProvider env net (VStr p) prompt cfg log =
      demoted p ((log ++ [req])%list, reply p vendor extract r)
    ∧ (extract = openai_text ∨ extract = gemini_text ∨ extract = anthropic_text).
Proof.
  intros K R N. apply known_provider_cases in K as [-> | [-> | ->]].
  - destruct (queryOpenAI_reaches env net prompt cfg log R) as (req & V & Q).
    exists req, "OpenAI", openai_text. split; [by apply N|].
    rewrite queryProvider_openai, Q, (N req V). auto.
  - destruct (queryGemini_reaches env net prompt cfg log R) as (req & V & Q).
    exists req, "Gemini", gemini_text. split; [by apply N|].
    rewrite queryProvider_gemini, Q, (N req V). auto.
  - destruct (queryAnthropic_reaches env net prompt cfg log R) as (req & V & Q).
    exists req, "Anthropic", anthropic_text. split; [by apply N|].
    rewrite queryProvider_anthropic, Q, (N req V). auto.
Qed.

(** What the [catch] makes of a reply is a result. *)
Lemma demoted_result p log c : ∃ res, demoted p (log, c) = (log, Normal res).
Proof. destruct c; simpl; eauto. Qed.

Lemma queryProvider_called env net (p : string) prompt cfg log r :
  known_provider p = true → ready env p cfg → answers p net r →
  ∃ req res,
    queryProvider env net (VStr p) prompt cfg log = ((log ++ [req])%list, Normal res)
    ∧ net req = Normal r.
Proof.
  intros K R N.
  destruct (queryProvider_reaches env net p prompt cfg log r K R N)
    as (req & vendor & extract & A & Q & _).
  destruct (demoted_result p (log ++ [req])%list (reply p vendor extract r))
    as [res D].
  exists req, res. by rewrite Q, D.
Qed.

(** ** Vendor answers *)

(** The call an adapter logged is the call the vendor answered. *)
Lemma shape_answered net id vendor variable extract log run req c :
  adapter_shape net id vendor variable extract log run →
  run = ((log ++ [req])%list, c) →
  c = (r ← net req; reply id vendor extract r).
Proof.
  intros [[L _]|[req' [L E]]] ->; simpl in *.
  - apply (f_equal length) in L. rewrite length_app in L. simpl in L. lia.
  - apply app_inj_tail in L as [_ ->]. done.
Qed.

Lemma demoted_log p run log c : demoted p run = (log, c) → run.1 = log.
Proof. destruct run as [l [r|e]]; simpl; congruence. Qed.

Lemma reply_vendor_error id vendor extract r txt :
  resp_ok r = false → resp_text r = Normal txt →
  reply id vendor extract r =
  Throw (Error (vendor +:+ " error: " +:+ show_nat (resp_status r) +:+ " " +:+ txt)).
Proof. intros O T. unfold reply. run_async. by rewrite O, T. Qed.

Lemma demoted_vendor_error net id vendor variable extract log run req r txt res :
  adapter_shape net id vendor variable extract log run →
  demoted id run = ((log ++ [req])%list, Normal res) →
  net req = Normal r → resp_ok r = false → resp_text r = Normal txt →
  res = Result (VStr id) Failed
          (VStr (vendor +:+ " error: " +:+ show_nat (resp_status r) +:+ " " +:+ txt))
          None.
Proof.
  intros S D N O T. pose proof (demoted_log _ _ _ _ D) as L.
  destruct run as [l c]. simpl in L. subst l.
  rewrite (shape_answered _ _ _ _ _ _ _ _ _ S eq_refl) in D.
  rewrite N in D. run_async.
  rewrite (reply_vendor_error _ _ _ _ _ O T), demoted_throw in D.
  injection D as <-. f_equal. f_equal. simpl.
  case_decide as Z; [|done].
  destruct vendor; discriminate Z.
Qed.

Lemma vendor_status_in_message env net (p : string) prompt cfg log req r txt res :
  known_provider p = true →
  queryProvider env net (VStr p) prompt cfg log = ((log ++ [req])%list, Normal res) →
  net req = Normal r →
  resp_ok r = false →
  resp_text r = Normal txt →
  status_of res = Failed
  ∧ ∃ msg, message res = VStr msg
           ∧ includes (show_nat (resp_status r)) msg = true.
Proof.
  intros K Q N O T.
  assert (∃ vendor, res = Result (VStr p) Failed
            (VStr (vendor +:+ " error: " +:+ show_nat (resp_status r) +:+ " " +:+ txt))
            None) as [vendor ->].
  { apply known_provider_cases in K as [-> | [-> | ->]].
    - rewrite queryProvider_openai in Q. eexists.
      eapply demoted_vendor_error; eauto using queryOpenAI_shape.
    - rewrite queryProvider_gemini in Q. eexists.
      eapply demoted_vendor_error; eauto using queryGemini_shape.
    - rewrite queryProvider_anthropic in Q. eexists.
      eapply demoted_vendor_error; eauto using queryAnthropic_shape. }
  split; [done|]. eexists. split; [reflexivity|].
  rewrite (append_assoc vendor). apply includes_append.
Qed.

(** C7, as the code has it.  When the call of a known provider's adapter
    is answered with a status outside 200-299 and the body of that answer
    can be read as text, the provider's result has status [error] and its
    message contains the status code in decimal.  A provider that has a
    key does make that call. *)
Theorem C7_vendor_status_in_message env net (p : string) prompt cfg log r txt :
  known_provider p = true →
  resp_ok r = false →
  resp_text r = Normal txt →
  (∀ req res,
     queryProvider env net (VStr p) prompt cfg log
       = ((log ++ [req])%list, Normal res) →
     net req = Normal r →
     status_of res = Failed
     ∧ ∃ msg, message res = VStr msg
              ∧ includes (show_nat (resp_status r)) msg = true)
  ∧ (ready env p cfg → answers p net r →
     ∃ req res,
       queryProvider env net (VStr p) prompt cfg log
         = ((log ++ [req])%list, Normal res)
       ∧ net req = Normal r
       ∧ status_of res = Failed
       ∧ ∃ msg, message res = VStr msg
                ∧ includes (show_nat (resp_status r)) msg = true).
Proof.
  intros K O T. split.
  - intros req res Q N. by eapply vendor_status_in_message.
  - intros R N.
    destruct (queryProvider_called env net p prompt cfg log r K R N)
      as (req & res & Q & A).
    exists req, res. split; [done|]. split; [done|].
    by eapply vendor_status_in_message.
Qed.

Lemma C7_witness :
  ∃ res msg,
    queryProvider (λ _, Some "key")
      (λ _, Normal (Response 429 (Normal "slow down") (Normal VNull)))
      (VStr "gemini") (VStr "hello") (VObj []) [] =
      ([gemini_request "gemini-1.5-flash" "key" (VStr "hello")], Normal res)
    ∧ status_of res = Failed
    ∧ message res = VStr msg
    ∧ includes "429" msg = true.
Proof.
  destruct (C7_vendor_status_in_message (λ _, Some "key")
              (λ _, Normal (Response 429 (Normal "slow down") (Normal VNull)))
              "gemini" (VStr "hello") (VObj []) []
              (Response 429 (Normal "slow down") (Normal VNull)) "slow down"
              eq_refl eq_refl eq_refl) as [_ B].
  destruct B as (req & res & Q & _ & S & msg & M & I).
  - exists (VStr "key").
    split; [reflexivity|]. split; [reflexivity|].
    split; [intros _; exists "key"; reflexivity|].
    intros _. exists VUndefined, "gemini-1.5-flash". split; reflexivity.
  - intros req _. reflexivity.
  - exists res, msg. split; [|split; [exact S|split; [exact M|exact I]]].
    rewrite Q. injection Q as <- _. reflexivity.
Defined.

(** ** Empty answers *)

Lemma trim_all_white s : all_white s = true → trim s = "".
Proof.
  intros W. unfold trim.
  assert (trim_start s = "") as ->; [|done].
  induction s as [|c s IH]; simpl in *; [done|].
  apply andb_true_iff in W as [-> W]. auto.
Qed.

Lemma blank_text_falsy what v :
  blank v →
  (if nullish v then Normal VUndefined else call_trim what v) = Normal VUndefined
  ∨ (if nullish v then Normal VUndefined else call_trim what v) = Normal (VStr "").
Proof.
  intros [N|(s & -> & W)].
  - rewrite N. auto.
  - simpl. rewrite (trim_all_white _ W). auto.
Qed.

Lemma blank_parts_falsy what v :
  blank_parts v →
  joined_text what v = Normal VUndefined ∨ joined_text what v = Normal (VStr "").
Proof.
  unfold joined_text. intros [N|(items & texts & s & -> & M & J & W)].
  - rewrite N. auto.
  - simpl. run_async. rewrite M, J. simpl. rewrite (trim_all_white _ W). auto.
Qed.

Lemma reply_no_response id vendor extract r data :
  resp_ok r = true → resp_json r = Normal data →
  extract data = Normal VUndefined ∨ extract data = Normal (VStr "") →
  reply id vendor extract r =
  Normal (Result (VStr id) Success (VStr "No response received.") (Some data)).
Proof.
  intros O J E. unfold reply. run_async. rewrite O, J. simpl.
  by destruct E as [-> | ->].
Qed.

(** C8, as the code has it.  An adapter that has a key calls its vendor;
    when the calls to the vendor's endpoint are answered with a status in
    200-299 and a JSON body on which the chain to the text can be
    followed and yields nothing (a field on the way is missing or
    [null], or the text is empty or white space only; for Gemini and
    Anthropic, the [text] fields of the items joined by line breaks), the
    adapter returns the [success] result with the message
    ["No response received."] and the body as [raw]. *)
Theorem C8_no_response_placeholder env net prompt cfg log r data :
  resp_ok r = true →
  resp_json r = Normal data →
  (∀ content,
     ready env "openai" cfg → answers "openai" net r →
     openai_content data = Normal content → blank content →
     ∃ req,
       queryOpenAI env net prompt cfg log =
       ((log ++ [req])%list,
        Normal (Result (VStr "openai") Success
                  (VStr "No response received.") (Some data))))
  ∧ (∀ parts,
       ready env "gemini" cfg → answers "gemini" net r →
       gemini_parts data = Normal parts → blank_parts parts →
       ∃ req,
         queryGemini env net prompt cfg log =
         ((log ++ [req])%list,
          Normal (Result (VStr "gemini") Success
                    (VStr "No response received.") (Some data))))
  ∧ (∀ content,
       ready env "anthropic" cfg → answers "anthropic" net r →
       get data "content" = Normal content → blank_parts content →
       ∃ req,
         queryAnthropic env net prompt cfg log =
         ((log ++ [req])%list,
          Normal (Result (VStr "anthropic") Success
                    (VStr "No response received.") (Some data)))).
Proof.
  intros O J. split; [|split].
  - intros content R N C B.
    destruct (queryOpenAI_reaches env net prompt cfg log R) as (req & V & ->).
    exists req. f_equal. rewrite (N req V).
    apply reply_no_response; [done..|].
    unfold openai_text. run_async. rewrite C. by apply blank_text_falsy.
  - intros parts R N C B.
    destruct (queryGemini_reaches env net prompt cfg log R) as (req & V & ->).
    exists req. f_equal. rewrite (N req V).
    apply reply_no_response; [done..|].
    unfold gemini_text. run_async. rewrite C. by apply blank_parts_falsy.
  - intros content R N C B.
    destruct (queryAnthropic_reaches env net prompt cfg log R) as (req & V & ->).
    exists req. f_equal. rewrite (N req V).
    apply reply_no_response; [done..|].
    unfold anthropic_text. run_async. rewrite C. by apply blank_parts_falsy.
Qed.

Lemma C8_witness :
  (∃ req,
     queryOpenAI (λ _, Some "key") (always empty_openai_data)
       (VStr "hello") (VObj []) [] =
     ([req], Normal (Result (VStr "openai") Success (VStr "No response received.")
                       (Some empty_openai_data))))
  ∧ (∃ req,
       queryGemini (λ _, Some "key") (always blank_gemini_data)
         (VStr "hello") (VObj []) [] =
       ([req], Normal (Result (VStr "gemini") Success (VStr "No response received.")
                         (Some blank_gemini_data))))
  ∧ (∃ req,
       queryAnthropic (λ _, Some "key") (always textless_anthropic_data)
         (VStr "hello") (VObj []) [] =
       ([req], Normal (Result (VStr "anthropic") Success
                         (VStr "No response received.")
                         (Some textless_anthropic_data)))).
Proof.
  assert (R : ∀ p, ready (λ _, Some "key") p (VObj [])).
  { intros p. exists (VStr "key").
    split; [reflexivity|]. split; [reflexivity|].
    split; [intros _; exists "key"; reflexivity|].
    intros _. exists VUndefined, "gemini-1.5-flash". split; reflexivity. }
  split; [|split].
  - destruct (C8_no_response_placeholder (λ _, Some "key")
                (always empty_openai_data) (VStr "hello") (VObj []) []
                (Response 200 (Normal "") (Normal empty_openai_data))
                empty_openai_data eq_refl eq_refl) as (A & _ & _).
    apply (A VUndefined);
      [apply R | intros req _; reflexivity | reflexivity | left; reflexivity].
  - destruct (C8_no_response_placeholder (λ _, Some "key")
                (always blank_gemini_data) (VStr "hello") (VObj []) []
                (Response 200 (Normal "") (Normal blank_gemini_data))
                blank_gemini_data eq_refl eq_refl) as (_ & G & _).
    apply (G (VArr [VObj [("text", VStr "  ")]; VObj []]));
      [apply R | intros req _; reflexivity | reflexivity |].
    right. exists [VObj [("text", VStr "  ")]; VObj []], [VStr "  "; VUndefined].
    eexists. repeat split; reflexivity.
  - destruct (C8_no_response_placeholder (λ _, Some "key")
                (always textless_anthropic_data) (VStr "hello") (VObj []) []
                (Response 200 (Normal "") (Normal textless_anthropic_data))
                textless_anthropic_data eq_refl eq_refl) as (_ & _ & A).
    apply (A (VArr [VObj [("type", VStr "tool_use")]]));
      [apply R | intros req _; reflexivity | reflexivity |].
    right. exists [VObj [("type", VStr "tool_use")]], [VUndefined].
    eexists. repeat split; reflexivity.
Defined.

(** C8, as stated, fails on a body the text cannot be read from at all:
    with a status in 200-299 and the JSON body [null], where every field
    is missing, or with an Anthropic [content] whose entry is [null],
    reading the field throws, and the provider's result has status
    [error] with the message of that exception, not [success] with
    ["No response received."]. *)
Lemma C8_counterexample :
  (∃ req e res,
     queryOpenAI (λ _, Some "key") (always VNull) (VStr "hello") (VObj []) []
       = ([req], Throw e)
     ∧ always VNull req = Normal (Response 200 (Normal "") (Normal VNull))
     ∧ resp_ok (Response 200 (Normal "") (Normal VNull)) = true
     ∧ queryProvider (λ _, Some "key") (always VNull) (VStr "openai")
         (VStr "hello") (VObj []) [] = ([req], Normal res)
     ∧ status_of res = Failed
     ∧ message res = VStr "Cannot read properties of null (reading 'choices')")
  ∧ (∃ req e res,
       queryAnthropic (λ _, Some "key") (always (VObj [("content", VArr [VNull])]))
         (VStr "hello") (VObj []) [] = ([req], Throw e)
       ∧ queryProvider (λ _, Some "key") (always (VObj [("content", VArr [VNull])]))
           (VStr "anthropic") (VStr "hello") (VObj []) [] = ([req], Normal res)
       ∧ status_of res = Failed
       ∧ message res = VStr "Cannot read properties of null (reading 'text')").
Proof.
  split.
  - eexists _, _, _. split; [vm_compute; reflexivity|].
    split; [reflexivity|]. split; [reflexivity|].
    split; [vm_compute; reflexivity|]. split; reflexivity.
  - eexists _, _, _. split; [vm_compute; reflexivity|].
    split; [vm_compute; reflexivity|]. split; reflexivity.
Qed.

(** C3, as stated, fails when the exception carries an empty message:
    [fetch] rejects with such an error, the adapter throws it, and the
    result's message is the fallback text, not the exception's message. *)
Lemma C3_counterexample :
  ∃ log' e r,
    queryOpenAI (λ _, Some "key") (λ _, Throw (Error "")) (VStr "hello") (VObj []) []
      = (log', Throw e)
    ∧ queryProvider (λ _, Some "key") (λ _, Throw (Error "")) (VStr "openai")
        (VStr "hello") (VObj []) [] = (log', Normal r)
    ∧ status_of r = Failed
    ∧ message r = VStr "Unexpected error"
    ∧ message r ≠ VStr (err_message e).
Proof.
  eexists _, (Error ""), _.
  split; [vm_compute; reflexivity|].
  split; [vm_compute; reflexivity|].
  repeat split; [reflexivity..|discriminate].
Qed.

Lemma C3_witness :
  queryProvider (λ _, Some "key") (λ _, Throw (TypeError "fetch failed"))
    (VStr "anthropic") (VStr "hello") (VObj []) [] =
  ([FetchRequest "https://api.anthropic.com/v1/messages" "POST"
      [("Content-Type", VStr "application/json");
       ("x-api-key", VStr "key");
       ("anthropic-version", VStr "2023-06-01")]
      (VObj [("model", VStr "claude-3-haiku-20240307");
             ("max_tokens", VNum (number_of_nat 1024));
             ("messages",
              VArr [VObj [("role", VStr "user"); ("content", VStr "hello")]])])],
   Normal (Result (VStr "anthropic") Failed (VStr "fetch failed") None)).
Proof.
  pose proof (C3_adapter_failures_are_demoted (λ _, Some "key")
                (λ _, Throw (TypeError "fetch failed")) (VStr "hello") (VObj []) [])
    as (_ & _ & _ & A).
  exact (A _ (TypeError "fetch failed") eq_refl).
Defined.

(** C7, as stated, fails when the body of the vendor's answer cannot be
    read: [response.text()] rejects, and the result's message is that
    rejection's, without the status code. *)
Lemma C7_counterexample :
  let r := Response 503 (Throw (TypeError "terminated")) (Throw (TypeError "terminated")) in
  let net : network := λ _, Normal r in
  ∃ req res msg,
    queryProvider (λ _, Some "key") net (VStr "openai") (VStr "hello") (VObj []) []
      = ([req], Normal res)
    ∧ net req = Normal r
    ∧ resp_ok r = false
    ∧ status_of res = Failed
    ∧ message res = VStr msg
    ∧ includes (show_nat (resp_status r)) msg = false.
Proof.
  intros r net. eexists _, _, "terminated".
  split; [vm_compute; reflexivity|].
  repeat split; reflexivity.
Qed.

(** ** [Promise.all] *)

Section PromiseAllFacts.
Context {A : Type}.
Implicit Types (xs : list A) (values : list (option A)) (order : list nat).

Lemma settle_all_fulfilled xs order values :
  length values = length xs →
  ∃ values',
    settle_all order (Normal <$> xs) values = Normal values'
    ∧ ∀ j, (j ∈ order → values' !! j = Some <$> xs !! j)
           ∧ (j ∉ order → values' !! j = values !! j).
Proof.
  revert values. induction order as [|i later IH]; intros values L; simpl.
  { exists values. split; [done|]. intros j. split; [|done].
    by intros ?%elem_of_nil. }
  rewrite list_lookup_fmap. destruct (xs !! i) as [a|] eqn:X; simpl.
  - destruct (IH (<[i:=Some a]> values)) as (values' & E & V).
    { by rewrite length_insert. }
    exists values'. split; [done|]. intros j. destruct (V j) as [V1 V2].
    destruct (decide (j ∈ later)) as [J|J].
    + split; [auto|]. by intros [_ ?]%not_elem_of_cons.
    + rewrite (V2 J). split.
      * intros [->|?]%elem_of_cons; [|done].
        rewrite list_lookup_insert_eq, X; [done|].
        rewrite L. by eapply lookup_lt_Some.
      * intros [? _]%not_elem_of_cons.
        by rewrite list_lookup_insert_ne.
  - destruct (IH values L) as (values' & E & V).
    exists values'. split; [done|]. intros j. destruct (V j) as [V1 V2].
    destruct (decide (j ∈ later)) as [J|J].
    + split; [auto|]. by intros [_ ?]%not_elem_of_cons.
    + rewrite (V2 J). split.
      * intros [->|?]%elem_of_cons; [|done].
        rewrite X. simpl. apply lookup_ge_None. rewrite L.
        by apply lookup_ge_None.
      * done.
Qed.

Lemma all_filled_fulfilled xs : all_filled (Some <$> xs) = Some xs.
Proof.
  induction xs as [|x xs IH]; [done|].
  change (cons x <$> all_filled (Some <$> xs) = Some (x :: xs)).
  by rewrite IH.
Qed.

(** When every promise is fulfilled, [Promise.all] resolves with the
    values in the order of the promises, whatever the order in which
    they settled. *)
Lemma promise_all_fulfilled xs order :
  order ≡ₚ seq 0 (length xs) →
  promise_all order (Normal <$> xs) = Some (Normal xs).
Proof.
  intros P. unfold promise_all. rewrite length_fmap.
  destruct (settle_all_fulfilled xs order (replicate (length xs) None))
    as (values' & -> & V); [by rewrite length_replicate|].
  assert (values' = Some <$> xs) as ->; [|by rewrite all_filled_fulfilled].
  apply list_eq. intros j. rewrite list_lookup_fmap.
  destruct (V j) as [V1 V2].
  destruct (decide (j < length xs)) as [Lt|Ge].
  - apply V1. rewrite P. apply elem_of_seq. lia.
  - rewrite V2.
    + rewrite (lookup_ge_None_2 xs) by lia.
      apply lookup_replicate_None. lia.
    + rewrite P, elem_of_seq. lia.
Qed.

Lemma promise_all_nil order : promise_all order (@nil (completion A)) = Some (Normal []).
Proof.
  unfold promise_all. simpl.
  assert (settle_all order [] [] = Normal (@nil (option A))) as ->; [|done].
  induction order as [|i later IH]; simpl; [done|]. apply IH.
Qed.
End PromiseAllFacts.

(** ** The response mapping *)

Lemma first_occurrences_elem ids p : p ∈ first_occurrences ids ↔ p ∈ ids.
Proof.
  induction ids as [|q ids IH]; simpl; [done|].
  rewrite !elem_of_cons, list_elem_of_filter, IH.
  destruct (decide (p = q)); naive_solver.
Qed.

Lemma first_occurrences_NoDup ids : NoDup (first_occurrences ids).
Proof.
  induction ids as [|q ids IH]; simpl; [constructor|].
  apply NoDup_cons. split.
  - rewrite list_elem_of_filter. naive_solver.
  - by apply NoDup_filter.
Qed.

Lemma filter_all {A} (P : A → Prop) `{∀ x, Decision (P x)} (l : list A) :
  (∀ x, P x) → filter P l = l.
Proof.
  intros HP. induction l as [|x l IH]; [done|].
  rewrite filter_cons_True by done. by rewrite IH.
Qed.

Section ObjectFacts.
Context {A : Type}.
Implicit Types (o : list (string * A)).

Lemma has_key_elem k o : has_key k o = true ↔ k ∈ keys o.
Proof.
  unfold keys. induction o as [|[k' v] o IH]; simpl.
  - rewrite elem_of_nil. naive_solver.
  - rewrite elem_of_cons, orb_true_iff, IH, String.eqb_eq. done.
Qed.

Lemma keys_update_prop k v o : keys (update_prop k v o) = keys o.
Proof.
  unfold keys. induction o as [|[k' v'] o IH]; simpl; [done|].
  destruct (String.eqb k k'); simpl; [done|]. f_equal. exact IH.
Qed.

Lemma update_prop_elem k v o p r :
  (p, r) ∈ update_prop k v o → (p, r) ∈ o ∨ r = v ∧ p = k.
Proof.
  induction o as [|[k' v'] o IH]; simpl; [by intros ?%elem_of_nil|].
  destruct (String.eqb k k') eqn:E.
  - apply String.eqb_eq in E as ->.
    rewrite !elem_of_cons. naive_solver.
  - rewrite !elem_of_cons. naive_solver.
Qed.

(** A key that is not an array index keeps its place, or goes last. *)
Lemma keys_define_prop k v o :
  array_index k = None →
  keys (define_prop k v o) =
  if decide (k ∈ keys o) then keys o else (keys o ++ [k])%list.
Proof.
  intros N. unfold define_prop. rewrite N.
  destruct (has_key k o) eqn:H.
  - apply has_key_elem in H. rewrite decide_True by done.
    apply keys_update_prop.
  - rewrite decide_False.
    + unfold keys. by rewrite fmap_app.
    + intros K%has_key_elem. congruence.
Qed.

Lemma define_prop_elem k v o p r :
  array_index k = None →
  (p, r) ∈ define_prop k v o → (p, r) ∈ o ∨ r = v ∧ p = k.
Proof.
  intros N. unfold define_prop. rewrite N. destruct (has_key k o).
  - apply update_prop_elem.
  - rewrite elem_of_app, elem_of_cons, elem_of_nil. naive_solver.
Qed.
End ObjectFacts.

Lemma known_not_index p : known_provider p = true → array_index p = None.
Proof. by intros [-> | [-> | ->]]%known_provider_cases. Qed.

(** The [reduce] over results that name known identifiers: the keys of the
    mapping are the identifiers in the order of their first occurrence. *)
Lemma collect_known ids rs acc :
  Forall2 (λ p r, provider r = VStr p) ids rs →
  Forall (λ p, known_provider p = true) ids →
  ∃ responses,
    collect acc rs = Normal responses
    ∧ keys responses =
      (keys acc ++ filter (λ p, p ∉ keys acc) (first_occurrences ids))%list
    ∧ ∀ p r, (p, r) ∈ responses → (p, r) ∈ acc ∨ provider r = VStr p.
Proof.
  intros F. revert acc. induction F as [|p r ids rs Hp F IH]; intros acc K.
  { exists acc. simpl. rewrite app_nil_r. auto. }
  apply Forall_cons in K as [Kp K].
  pose proof (known_not_index _ Kp) as N.
  destruct (IH (define_prop p r acc) K) as (responses & E & Ks & V).
  exists responses. split; [|split].
  - simpl. rewrite Hp. exact E.
  - rewrite Ks, (keys_define_prop _ _ _ N). simpl.
    destruct (decide (p ∈ keys acc)) as [I|I].
    + rewrite filter_cons_False by (intros ?; done).
      rewrite list_filter_filter. f_equal. apply list_filter_iff.
      intros q. split; [|naive_solver]. intros Q. split; [done|congruence].
    + rewrite filter_cons_True by done.
      rewrite <- app_assoc. simpl. do 2 f_equal.
      rewrite list_filter_filter. apply list_filter_iff.
      intros q. rewrite elem_of_app, elem_of_cons, elem_of_nil. naive_solver.
  - intros q s Q. destruct (V q s Q) as [D|D]; [|by right].
    apply define_prop_elem in D as [D|[-> ->]]; auto.
Qed.

(** ** The query handler *)

(** With a configuration that can be indexed, every task of a list of
    string identifiers is started and settles with a result that names
    its identifier. *)
Lemma start_tasks_strings env world prompt config ids :
  config ≠ VNull → config ≠ VUndefined →
  ∀ i log, ∃ log' rs,
    start_tasks env world prompt config i (VStr <$> ids) log =
      (log', Normal (Normal <$> rs))
    ∧ Forall2 (λ p r, provider r = VStr p) ids rs.
Proof.
  intros C1 C2. induction ids as [|p ids IH]; intros i log.
  { exists log, []. split; [done|constructor]. }
  destruct (get_of_object config p C1 C2) as [entry G].
  destruct (queryProvider_returns env (world i) p prompt
              (or_else entry (VObj [])) log) as (log1 & r & Q & P).
  destruct (IH (S i) log1) as (log2 & rs & T & F).
  exists log2, (r :: rs). split; [|by constructor].
  rewrite fmap_cons. cbn [start_tasks]. run_async. unfold start.
  change (to_string (VStr p)) with (Normal p). cbv beta iota.
  rewrite G, Q. cbv beta iota. by rewrite T.
Qed.

Lemma truthy_nonempty s : s ≠ "" → truthy (VStr s) = true.
Proof. intros N. simpl. by rewrite eqb_false_neq. Qed.

Lemma handle_query_known JSON_parse env world bodyText payload
    (prompt : string) (ids : list string) config log :
  JSON_parse (if String.eqb bodyText "" then "{}" else bodyText) = Normal payload →
  get payload "prompt" = Normal (VStr prompt) →
  prompt ≠ "" →
  get payload "providers" = Normal (VArr (VStr <$> ids)) →
  Forall (λ p, known_provider p = true) ids →
  get payload "config" = Normal config →
  config ≠ VNull →
  ∃ log' responses,
    (∀ order, order ≡ₚ seq 0 (length ids) →
       handle_query JSON_parse env world order bodyText log =
       (log', Normal (Some (HttpResponse 200 "application/json"
                              (JsonResponses (VStr prompt) responses)))))
    ∧ keys responses = first_occurrences ids
    ∧ ∀ p r, (p, r) ∈ responses → provider r = VStr p.
Proof.
  intros J P N V K C CN.
  destruct (start_tasks_strings env world (VStr prompt)
              (defaulted config (VObj [])) ids) with (i := 0) (log := log)
    as (log' & rs & T & F); [by destruct config..|].
  destruct (collect_known ids rs [] F K) as (responses & E & Ks & M).
  exists log', responses. split; [|split].
  - intros order O.
    unfold handle_query. rewrite J. run_async. rewrite P, V, C.
    rewrite (truthy_nonempty _ N). simpl. rewrite T.
    rewrite promise_all_fulfilled
      by (by rewrite <- (Forall2_length _ _ _ F)).
    by rewrite E.
  - rewrite Ks. simpl. apply filter_all. by intros p ?%elem_of_nil.
  - intros p r I. destruct (M p r I) as [[]%elem_of_nil|]. done.
Qed.

(** C1, as the code has it.  For a [POST /api/query] whose body parses,
    whose prompt is a non-empty string, whose [providers] is a list of
    known identifiers and whose [config] is absent or anything but [null],
    the server answers 200 with one mapping, the same in whatever order
    the tasks settle.  The keys of that mapping are the requested
    identifiers in the order of the list, each at its first occurrence:
    one entry per identifier, and the entry of a key is a result of that
    provider. *)
Theorem C1_responses_follow_providers JSON_parse env world dirname fs
    bodyText payload (prompt : string) (ids : list string) config :
  JSON_parse (if String.eqb bodyText "" then "{}" else bodyText) = Normal payload →
  get payload "prompt" = Normal (VStr prompt) →
  prompt ≠ "" →
  get payload "providers" = Normal (VArr (VStr <$> ids)) →
  Forall (λ p, known_provider p = true) ids →
  get payload "config" = Normal config →
  config ≠ VNull →
  ∃ responses,
    (∀ order, order ≡ₚ seq 0 (length ids) →
       answer (server JSON_parse env world order dirname fs
                 "POST" "/api/query" bodyText) =
       Some (HttpResponse 200 "application/json"
               (JsonResponses (VStr prompt) responses)))
    ∧ keys responses = first_occurrences ids
    ∧ (∀ p, p ∈ keys responses ↔ p ∈ ids)
    ∧ NoDup (keys responses)
    ∧ (∀ p r, (p, r) ∈ responses → provider r = VStr p).
Proof.
  intros J P N V K C CN.
  destruct (handle_query_known JSON_parse env world bodyText payload
              prompt ids config [] J P N V K C CN)
    as (log' & responses & H & Ks & M).
  exists responses. split; [|rewrite Ks; split; [done|]; split; [|split]].
  - intros order O. unfold server. simpl. by rewrite (H order O).
  - apply first_occurrences_elem.
  - apply first_occurrences_NoDup.
  - exact M.
Qed.

Lemma C1_witness :
  ∃ responses,
    answer (server (λ _, Normal repeated_request) (λ _, None)
              (λ _ _, Throw (Error "offline")) [2; 0; 1] "/srv/app" (λ _, ENOENT)
              "POST" "/api/query" "body") =
      Some (HttpResponse 200 "application/json"
              (JsonResponses (VStr "hello") responses))
    ∧ keys responses = ["gemini"; "openai"].
Proof.
  destruct (C1_responses_follow_providers (λ _, Normal repeated_request)
              (λ _, None) (λ _ _, Throw (Error "offline")) "/srv/app"
              (λ _, ENOENT) "body" repeated_request "hello"
              ["gemini"; "openai"; "gemini"] VUndefined)
    as (responses & H & Ks & _); try reflexivity; try discriminate.
  - repeat constructor.
  - exists responses. split; [|exact Ks].
    apply H. change (seq 0 3) with [0; 1; 2].
    apply (Permutation_cons_app [0; 1] []). reflexivity.
Defined.

(** C1, as stated, fails on a request whose [config] is [null]: reading
    [config[provider]] throws before any task is started, and the server
    answers 500 without a mapping. *)
Lemma C1_counterexample :
  let payload :=
    VObj [("prompt", VStr "hello");
          ("providers", VArr [VStr "openai"]);
          ("config", VNull)] in
  get payload "prompt" = Normal (VStr "hello")
  ∧ get payload "providers" = Normal (VArr (VStr <$> ["openai"]))
  ∧ known_provider "openai" = true
  ∧ server (λ _, Normal payload) (λ _, Some "key")
      (λ _ _, Throw (Error "offline")) [0] "/srv/app" (λ _, ENOENT)
      "POST" "/api/query" "body" =
    Handled [] [] (Some (HttpResponse 500 "application/json"
                           (JsonError "Internal server error"))).
Proof. repeat split; reflexivity. Qed.

(** C9.  For a [POST /api/query] whose body parses, whose prompt is a
    non-empty string and whose [providers] is the empty array, no task is
    started, no [fetch] call is made and no file is read, and the server
    answers 200 with the empty mapping, whatever [config] is. *)
Theorem C9_empty_providers JSON_parse env world order dirname fs
    bodyText payload (prompt : string) :
  JSON_parse (if String.eqb bodyText "" then "{}" else bodyText) = Normal payload →
  get payload "prompt" = Normal (VStr prompt) →
  prompt ≠ "" →
  get payload "providers" = Normal (VArr []) →
  server JSON_parse env world order dirname fs "POST" "/api/query" bodyText =
    Handled [] [] (Some (HttpResponse 200 "application/json"
                           (JsonResponses (VStr prompt) [])))
  ∧ ∀ config log,
      start_tasks env world (VStr prompt) config 0 [] log = (log, Normal []).
Proof.
  intros J P N V. split; [|done].
  destruct (get_elsewhere _ _ _ "config" P) as [config C].
  unfold server, handle_query. simpl. rewrite J. run_async.
  rewrite P, V, C, (truthy_nonempty _ N). simpl.
  by rewrite promise_all_nil.
Qed.

Lemma C9_witness :
  server (λ _, Normal (VObj [("prompt", VStr "hello"); ("providers", VArr []);
                             ("config", VNull)]))
    (λ _, Some "key") (λ _ _, Throw (Error "offline")) [] "/srv/app"
    (λ _, ENOENT) "POST" "/api/query" "body" =
  Handled [] [] (Some (HttpResponse 200 "application/json"
                         (JsonResponses (VStr "hello") []))).
Proof.
  apply (C9_empty_providers
           (λ _, Normal (VObj [("prompt", VStr "hello"); ("providers", VArr []);
                               ("config", VNull)]))
           (λ _, Some "key") (λ _ _, Throw (Error "offline")) [] "/srv/app"
           (λ _, ENOENT) "body"
           (VObj [("prompt", VStr "hello"); ("providers", VArr []);
                  ("config", VNull)])
           "hello"); try reflexivity; discriminate.
Defined.

(** ** Paths *)

Lemma append_nil_r (s : string) : s +:+ "" = s.
Proof.
  induction s as [|c s IH]; [done|].
  change (String c (s +:+ "") = String c s). by rewrite IH.
Qed.

Lemma split_cons_slash rest :
  Path.split (String Path.slash rest) = "" :: Path.split rest.
Proof. reflexivity. Qed.

Lemma split_not_nil p : Path.split p ≠ [].
Proof.
  induction p as [|c rest IH]; simpl; [done|].
  destruct (Ascii.eqb c Path.slash); [done|].
  by destruct (Path.split rest).
Qed.

Lemma split_cons_other c rest :
  Ascii.eqb c Path.slash = false →
  ∃ seg segs, Path.split rest = seg :: segs
              ∧ Path.split (String c rest) = String c seg :: segs.
Proof.
  intros E. simpl. rewrite E.
  destruct (Path.split rest) as [|seg segs] eqn:S; [by apply split_not_nil in S|].
  eauto.
Qed.

Lemma split_no_slash p : Forall (λ seg, Path.has_slash seg = false) (Path.split p).
Proof.
  induction p as [|c rest IH]; simpl.
  - by repeat constructor.
  - destruct (Ascii.eqb c Path.slash) eqn:E.
    + by constructor.
    + destruct (Path.split rest) as [|seg segs].
      * repeat constructor. simpl. by rewrite E.
      * apply Forall_cons in IH as [H1 H2]. constructor; [|done].
        simpl. by rewrite E, H1.
Qed.

Lemma split_plain s : Path.has_slash s = false → Path.split s = [s].
Proof.
  induction s as [|c s IH]; simpl; [done|].
  intros [E H]%orb_false_elim. rewrite E, (IH H). done.
Qed.

(** Splitting distributes over a separator. *)
Lemma split_append a b :
  Path.split (a +:+ String Path.slash b) = (Path.split a ++ Path.split b)%list.
Proof.
  induction a as [|c a IH].
  - reflexivity.
  - change (String c a +:+ String Path.slash b)
      with (String c (a +:+ String Path.slash b)).
    simpl. destruct (Ascii.eqb c Path.slash).
    + by rewrite IH.
    + rewrite IH. destruct (Path.split a) as [|seg segs] eqn:S; [|done].
      by apply split_not_nil in S.
Qed.

Lemma join_segments_cons seg rest :
  rest ≠ [] →
  Path.join_segments (seg :: rest) =
  seg +:+ String Path.slash (Path.join_segments rest).
Proof. destruct rest; [done|]. reflexivity. Qed.

Lemma split_join segs :
  Forall (λ seg, Path.has_slash seg = false) segs → segs ≠ [] →
  Path.split (Path.join_segments segs) = segs.
Proof.
  induction segs as [|seg rest IH]; [done|]. intros F _.
  apply Forall_cons in F as [H F]. destruct rest as [|seg' rest'].
  - simpl. by apply split_plain.
  - rewrite join_segments_cons by done.
    rewrite split_append, (split_plain _ H), IH by done. done.
Qed.

Lemma plain_no_slash segs :
  Forall Path.plain segs → Forall (λ seg, Path.has_slash seg = false) segs.
Proof.
  intros F. eapply Forall_impl; [exact F|]. by intros seg (_ & _ & _ & H).
Qed.

Lemma join_segments_empty segs :
  Forall Path.plain segs → Path.join_segments segs = "" → segs = [].
Proof.
  destruct segs as [|seg rest]; [done|].
  intros [(N & _) _]%Forall_cons. destruct seg as [|c seg]; [done|].
  by destruct rest.
Qed.

(** The normalization loop keeps earlier segments and continues. *)
Lemma normalize_onto_app allow xs ys : ∀ stack,
  Path.normalize_onto allow stack (xs ++ ys) =
  Path.normalize_onto allow (rev (Path.normalize_onto allow stack xs)) ys.
Proof.
  induction xs as [|seg xs IH]; intros stack; simpl.
  - by rewrite rev_involutive.
  - destruct (String.eqb seg "" || String.eqb seg "."); [apply IH|].
    destruct (String.eqb seg ".."); [|apply IH].
    destruct stack as [|top below]; [apply IH|].
    destruct (String.eqb top ".."); apply IH.
Qed.

(** Below the root, what the loop keeps are plain names. *)
Lemma normalize_onto_plain segs : ∀ stack,
  Forall Path.plain stack →
  Forall (λ seg, Path.has_slash seg = false) segs →
  Forall Path.plain (Path.normalize_onto false stack segs).
Proof.
  induction segs as [|seg segs IH]; intros stack S F; simpl.
  - by apply Forall_rev.
  - apply Forall_cons in F as [H F].
    destruct (String.eqb seg "") eqn:E1; simpl; [by apply IH|].
    destruct (String.eqb seg ".") eqn:E2; simpl; [by apply IH|].
    destruct (String.eqb seg "..") eqn:E3.
    + destruct stack as [|top below]; [by apply IH|].
      destruct (String.eqb top ".."); [by apply IH|].
      apply IH; [|done]. by apply Forall_cons in S as [_ S].
    + apply IH; [|done]. constructor; [|done].
      apply String.eqb_neq in E1, E2, E3. done.
Qed.

(** On segments that are plain or empty the loop only drops the empty
    ones. *)
Lemma normalize_onto_clean allow segs : ∀ stack,
  Forall (λ seg, seg = "" ∨ Path.plain seg) segs →
  Path.normalize_onto allow stack segs =
  (rev stack ++ filter (λ seg, seg ≠ "") segs)%list.
Proof.
  induction segs as [|seg segs IH]; intros stack F; simpl.
  - by rewrite app_nil_r.
  - apply Forall_cons in F as [[-> | (N1 & N2 & N3 & _)] F].
    + simpl. rewrite IH by done. by rewrite filter_cons_False by (intros ?; done).
    + rewrite !eqb_false_neq by done. simpl.
      rewrite IH by done. rewrite filter_cons_True by done.
      simpl. by rewrite <- app_assoc.
Qed.

Lemma starts_with_slash_inv p :
  Path.starts_with_slash p = true → ∃ rest, p = String Path.slash rest.
Proof.
  destruct p as [|c rest]; simpl; [done|].
  intros ->%Ascii.eqb_eq. eauto.
Qed.

(** An absolute path normalizes to [/], plain names separated by [/], and
    at most a trailing [/]: no [..] is left. *)
Lemma normalize_absolute p :
  Path.starts_with_slash p = true →
  ∃ segs t,
    segs = Path.normalize_onto false [] (Path.split p)
    ∧ Forall Path.plain segs
    ∧ (t = "" ∨ t = "/")
    ∧ Path.normalize p = String Path.slash (Path.join_segments segs +:+ t).
Proof.
  intros A. destruct (starts_with_slash_inv _ A) as [rest ->].
  pose proof (normalize_onto_plain (Path.split (String Path.slash rest)) []
                (Forall_nil_2 _) (split_no_slash _)) as P.
  unfold Path.normalize, Path.normalizeString.
  change (String.eqb (String Path.slash rest) "") with false.
  change (Path.starts_with_slash (String Path.slash rest)) with true.
  cbv beta iota zeta. change (negb true) with false.
  set (segs := Path.normalize_onto false [] (Path.split (String Path.slash rest))) in *.
  destruct (String.eqb (Path.join_segments segs) "") eqn:E.
  - apply String.eqb_eq in E. exists segs, "". rewrite E. auto.
  - exists segs. destruct (Path.ends_with_slash _).
    + exists "/". auto.
    + exists "". rewrite append_nil_r. auto.
Qed.

Lemma filter_plain segs :
  Forall Path.plain segs → filter (λ seg, seg ≠ "") segs = segs.
Proof.
  induction 1 as [|seg segs (N & _) F IH]; [done|].
  rewrite filter_cons_True by done. by rewrite IH.
Qed.

(** The segments of a normalized absolute path. *)
Lemma normalized_split segs t :
  Forall Path.plain segs → t = "" ∨ t = "/" →
  Forall (λ seg, seg = "" ∨ Path.plain seg)
    (Path.split (String Path.slash (Path.join_segments segs +:+ t)))
  ∧ Path.names (String Path.slash (Path.join_segments segs +:+ t)) = segs.
Proof.
  intros P T. unfold Path.names. rewrite split_cons_slash.
  assert (Q : Forall (λ seg, seg = "" ∨ Path.plain seg) segs).
  { eapply Forall_impl; [exact P|]. auto. }
  destruct segs as [|seg rest].
  { destruct T as [-> | ->]; split; try reflexivity;
      repeat constructor; auto. }
  assert (S : Path.split (Path.join_segments (seg :: rest)) = seg :: rest).
  { apply split_join; [by apply plain_no_slash|done]. }
  destruct T as [-> | ->].
  - rewrite append_nil_r, S. split; [by constructor; auto|].
    rewrite filter_cons_False by (intros ?; done). by apply filter_plain.
  - change "/" with (String Path.slash "").
    rewrite split_append, S. split.
    + constructor; [auto|]. apply Forall_app. split; [done|].
      repeat constructor; auto.
    + rewrite filter_cons_False by (intros ?; done).
      rewrite filter_app, (filter_plain _ P). simpl.
      rewrite filter_cons_False by (intros ?; done).
      by rewrite app_nil_r.
Qed.

Lemma strip_absolute p :
  Path.starts_with_slash p = true → Path.strip_leading_dotdot p = p.
Proof.
  intros [rest ->]%starts_with_slash_inv.
  by destruct rest as [|b [|c r]].
Qed.

Lemma strip_segments_app ps rs : Path.strip_segments ps (ps ++ rs) = Some rs.
Proof.
  induction ps as [|p ps IH]; simpl; [by destruct rs|].
  by rewrite String.eqb_refl.
Qed.

Lemma plain_not_dotdot segs :
  Forall Path.plain segs →
  forallb (λ seg, negb (String.eqb seg "..")) segs = true.
Proof.
  induction 1 as [|seg segs (_ & _ & N & _) F IH]; simpl; [done|].
  by rewrite eqb_false_neq, IH.
Qed.

(** Joining a normalized absolute path under another only appends its
    names. *)
Lemma join_normalized ps t1 rs t2 :
  Forall Path.plain ps → t1 = "" ∨ t1 = "/" →
  Forall Path.plain rs → t2 = "" ∨ t2 = "/" →
  ∃ t3,
    (t3 = "" ∨ t3 = "/")
    ∧ Path.join (String Path.slash (Path.join_segments ps +:+ t1))
        (String Path.slash (Path.join_segments rs +:+ t2)) =
      String Path.slash (Path.join_segments (ps ++ rs) +:+ t3).
Proof.
  intros P T1 R T2.
  destruct (normalized_split ps t1 P T1) as [FP NP].
  destruct (normalized_split rs t2 R T2) as [FR NR].
  unfold Path.join. change (String.eqb (String _ _) "") with false.
  cbv beta iota.
  set (a := String Path.slash (Path.join_segments ps +:+ t1)) in *.
  set (b := String Path.slash (Path.join_segments rs +:+ t2)) in *.
  change (a +:+ "/" +:+ b) with (a +:+ String Path.slash b).
  destruct (normalize_absolute (a +:+ String Path.slash b))
    as (segs & t3 & S & _ & T3 & N); [done|].
  exists t3. split; [done|]. rewrite N. do 2 f_equal.
  rewrite S, split_append, normalize_onto_clean
    by (apply Forall_app; auto).
  rewrite filter_app. unfold Path.names in NP, NR. by rewrite NP, NR.
Qed.

(** The file a request path stands for lies under the public directory. *)
Lemma resolve_under_root dirname requestPath :
  Path.starts_with_slash dirname = true →
  Path.starts_with_slash requestPath = true →
  Path.under_root (publicDir dirname) (resolve dirname requestPath) = true.
Proof.
  intros D Q.
  assert (∃ ps t1, Forall Path.plain ps ∧ (t1 = "" ∨ t1 = "/")
            ∧ publicDir dirname = String Path.slash (Path.join_segments ps +:+ t1))
    as (ps & t1 & P & T1 & EP).
  { destruct (starts_with_slash_inv _ D) as [rest ->].
    unfold publicDir, Path.join.
    change (String.eqb (String Path.slash rest) "") with false.
    change (String.eqb "public" "") with false. cbv beta iota.
    destruct (normalize_absolute (String Path.slash rest +:+ "/" +:+ "public"))
      as (ps & t1 & _ & P & T1 & E); [done|]. eauto. }
  set (relativePath := if String.eqb requestPath "/" then "/index.html" else requestPath).
  assert (A : Path.starts_with_slash relativePath = true).
  { unfold relativePath. by destruct (String.eqb requestPath "/"). }
  destruct (normalize_absolute relativePath A) as (rs & t2 & _ & R & T2 & ER).
  destruct (join_normalized ps t1 rs t2 P T1 R T2) as (t3 & T3 & EJ).
  unfold resolve. fold relativePath.
  rewrite strip_absolute by (by rewrite ER).
  rewrite ER, EP, EJ. unfold Path.under_root.
  change (Path.starts_with_slash (String Path.slash _)) with true.
  destruct (normalized_split ps t1 P T1) as [_ ->].
  destruct (normalized_split (ps ++ rs) t3) as [_ ->]; [by apply Forall_app|done|].
  rewrite strip_segments_app. simpl. by apply plain_not_dotdot.
Qed.

(** C2, as the code has it.  For every request path (the pathname of a
    URL starts with [/]) the resolver reads exactly one place, and that
    place is the public directory (for a path such as [//]) or lies
    under it: the [..] segments that would climb above the root are
    dropped, not followed.  The outcome is that of reading this place:
    the file with 200 when the read succeeds, 404 when the read reports
    [ENOENT], and, the error being thrown again, the generic 500 of the
    listener when the read fails in any other way (the place is a
    directory, or lies through a file). *)
Theorem C2_static_reads_stay_under_root dirname fs requestPath :
  Path.starts_with_slash dirname = true →
  Path.starts_with_slash requestPath = true →
  ∃ filePath,
    (serveStatic dirname fs requestPath).1 = [filePath]
    ∧ Path.under_root (publicDir dirname) filePath = true
    ∧ (serveStatic dirname fs requestPath).2 =
      match fs filePath with
      | FileData data =>
          Normal (HttpResponse 200 (getContentType filePath) (FileBody data))
      | ENOENT => Normal (HttpResponse 404 "text/plain" (PlainText "Not found"))
      | ReadError e => Throw e
      end
    ∧ ∀ JSON_parse env world order bodyText,
        server JSON_parse env world order dirname fs "GET" requestPath bodyText =
        Handled [] [filePath]
          (Some match fs filePath with
                | FileData data =>
                    HttpResponse 200 (getContentType filePath) (FileBody data)
                | ENOENT => HttpResponse 404 "text/plain" (PlainText "Not found")
                | ReadError _ =>
                    HttpResponse 500 "application/json"
                      (JsonError "Internal server error")
                end).
Proof.
  intros D Q. exists (resolve dirname requestPath).
  split; [done|]. split; [by apply resolve_under_root|]. split; [done|].
  intros JSON_parse env world order bodyText.
  unfold server, serveStatic. simpl. by destruct (fs _).
Qed.

Lemma C2_witness :
  ∃ filePath,
    (serveStatic "/srv/app" (λ _, ENOENT) "/../../etc/passwd").1 = [filePath]
    ∧ filePath = "/srv/app/public/etc/passwd"
    ∧ Path.under_root "/srv/app/public" filePath = true
    ∧ (serveStatic "/srv/app" (λ _, ENOENT) "/../../etc/passwd").2 =
      Normal (HttpResponse 404 "text/plain" (PlainText "Not found")).
Proof.
  destruct (C2_static_reads_stay_under_root "/srv/app" (λ _, ENOENT)
              "/../../etc/passwd" eq_refl eq_refl)
    as (filePath & E & U & N & _).
  exists filePath. injection E as <-.
  split; [reflexivity|]. split; [reflexivity|]. split; [exact U|].
  exact N.
Defined.

(** C2, as stated, fails on a path that would escape the root and, with
    its [..] dropped, names a file that exists: the resolver serves that
    file with 200 instead of answering 404.  (On a live request the URL
    parser has already dropped the [..] of the pathname, with the same
    file served.) *)
Lemma C2_counterexample :
  let fs : file_system := λ p,
    if String.eqb p "/srv/app/public/index.html" then FileData "<!doctype html>"
    else ENOENT in
  Path.escapes "/../index.html" = true
  ∧ serveStatic "/srv/app" fs "/../index.html" =
    (["/srv/app/public/index.html"],
     Normal (HttpResponse 200 "text/html; charset=utf-8"
               (FileBody "<!doctype html>"))).
Proof. split; reflexivity. Qed.

(** * Further properties of the server *)

(** ** Request validation and routing *)

(** X1.  A [POST /api/query] whose body [JSON.parse] rejects is answered
    400 with the error ["Invalid JSON payload"]; nothing is fetched and no
    file is read. *)
Theorem X1_invalid_json_is_400 JSON_parse env world order dirname fs bodyText e :
  JSON_parse (if String.eqb bodyText "" then "{}" else bodyText) = Throw e →
  server JSON_parse env world order dirname fs "POST" "/api/query" bodyText =
  Handled [] [] (Some (HttpResponse 400 "application/json"
                         (JsonError "Invalid JSON payload"))).
Proof. intros J. unfold server, handle_query. simpl. by rewrite J. Qed.

Lemma X1_witness :
  server (λ _, Throw (JsError "SyntaxError" "Unexpected token"))
    (λ _, Some "key") (λ _ _, Throw (Error "offline")) [] "/srv/app"
    (λ _, ENOENT) "POST" "/api/query" "{prompt" =
  Handled [] [] (Some (HttpResponse 400 "application/json"
                         (JsonError "Invalid JSON payload"))).
Proof.
  apply (X1_invalid_json_is_400 _ _ _ _ _ _ _
           (JsError "SyntaxError" "Unexpected token")).
  reflexivity.
Defined.

(** X2.  A [POST /api/query] whose body parses to anything but [null] and
    whose [prompt] is missing, empty or not a string is answered 400 with
    ["Prompt is required"].  The check comes before [providers] and
    [config] are used: whatever they hold, nothing is fetched. *)
Theorem X2_prompt_is_required JSON_parse env world order dirname fs
    bodyText payload prompt :
  JSON_parse (if String.eqb bodyText "" then "{}" else bodyText) = Normal payload →
  get payload "prompt" = Normal prompt →
  truthy prompt = false ∨ is_string prompt = false →
  server JSON_parse env world order dirname fs "POST" "/api/query" bodyText =
  Handled [] [] (Some (HttpResponse 400 "application/json"
                         (JsonError "Prompt is required"))).
Proof.
  intros J P B.
  destruct (get_elsewhere _ _ _ "providers" P) as [p V].
  destruct (get_elsewhere _ _ _ "config" P) as [c C].
  unfold server, handle_query. simpl. rewrite J. run_async.
  rewrite P, V, C.
  assert (negb (truthy prompt) || negb (is_string prompt) = true) as ->; [|done].
  destruct B as [-> | ->]; [done|]. apply orb_true_r.
Qed.

Lemma X2_witness :
  server (λ s, if String.eqb s "{}" then Normal (VObj []) else Throw (Error "bad"))
    (λ _, Some "key") (λ _ _, Throw (Error "offline")) [] "/srv/app"
    (λ _, ENOENT) "POST" "/api/query" "" =
  Handled [] [] (Some (HttpResponse 400 "application/json"
                         (JsonError "Prompt is required"))).
Proof.
  apply (X2_prompt_is_required _ _ _ _ _ _ "" (VObj []) VUndefined);
    [reflexivity | reflexivity | left; reflexivity].
Defined.

(** X3.  A request that is neither a [GET] nor a [POST] to [/api/query]
    (a [POST] to another path included) is answered 405, with no fetch and
    no file read. *)
Theorem X3_other_methods_are_405 JSON_parse env world order dirname fs
    method pathname bodyText :
  method ≠ "GET" →
  method ≠ "POST" ∨ pathname ≠ "/api/query" →
  server JSON_parse env world order dirname fs method pathname bodyText =
  Handled [] [] (Some (HttpResponse 405 "application/json"
                         (JsonError "Method not allowed"))).
Proof.
  intros G P. unfold server.
  rewrite (eqb_false_neq _ _ G).
  assert (String.eqb method "POST" && String.eqb pathname "/api/query" = false)
    as ->; [|done].
  destruct P as [P|P]; rewrite (eqb_false_neq _ _ P); [done|apply andb_false_r].
Qed.

Lemma X3_witness :
  server (λ _, Normal (VObj [("prompt", VStr "hello")]))
    (λ _, Some "key") (λ _ _, Throw (Error "offline")) [] "/srv/app"
    (λ _, FileData "x") "POST" "/api/other" "body" =
  Handled [] [] (Some (HttpResponse 405 "application/json"
                         (JsonError "Method not allowed"))).
Proof.
  apply X3_other_methods_are_405; [discriminate | right; discriminate].
Defined.

(** X4.  With a valid prompt, a [providers] field that is present and not
    an array (a string, a number, an object, [null]) has no [map] to call:
    the request is answered with the generic 500 and nothing is fetched. *)
Theorem X4_providers_not_an_array_is_500 JSON_parse env world order dirname fs
    bodyText payload (prompt : string) providers :
  JSON_parse (if String.eqb bodyText "" then "{}" else bodyText) = Normal payload →
  get payload "prompt" = Normal (VStr prompt) →
  prompt ≠ "" →
  get payload "providers" = Normal providers →
  providers ≠ VUndefined →
  (∀ items, providers ≠ VArr items) →
  server JSON_parse env world order dirname fs "POST" "/api/query" bodyText =
  Handled [] [] (Some (HttpResponse 500 "application/json"
                         (JsonError "Internal server error"))).
Proof.
  intros J P N V U A.
  destruct (get_elsewhere _ _ _ "config" P) as [c C].
  unfold server, handle_query. simpl. rewrite J. run_async.
  rewrite P, V, C, (truthy_nonempty _ N). simpl.
  destruct providers; try done. by destruct (A items).
Qed.

Lemma X4_witness :
  server (λ _, Normal (VObj [("prompt", VStr "hello"); ("providers", VStr "openai")]))
    (λ _, Some "key") (λ _ _, Throw (Error "offline")) [] "/srv/app"
    (λ _, ENOENT) "POST" "/api/query" "body" =
  Handled [] [] (Some (HttpResponse 500 "application/json"
                         (JsonError "Internal server error"))).
Proof.
  apply (X4_providers_not_an_array_is_500 _ _ _ _ _ _ "body"
           (VObj [("prompt", VStr "hello"); ("providers", VStr "openai")])
           "hello" (VStr "openai")); try reflexivity; discriminate.
Defined.

(** ** The response mapping for any identifiers *)

Section ObjectOrderFacts.
Context {A : Type}.
Implicit Types (o : list (string * A)).

Lemma insert_index_perm i k v o : insert_index i k v o ≡ₚ (k, v) :: o.
Proof.
  induction o as [|[k' v'] o IH]; simpl; [done|].
  destruct (array_index k') as [j|]; [|done].
  destruct (j <? i)%N; [|done].
  rewrite IH. apply Permutation_swap.
Qed.

Lemma update_prop_keeps k v o p :
  (∃ r, (p, r) ∈ update_prop k v o) ↔ ∃ r, (p, r) ∈ o.
Proof.
  induction o as [|[k' v'] o IH]; simpl; [done|].
  destruct (String.eqb k k') eqn:E.
  - split; intros [r [[= -> ->]|I]%elem_of_cons];
      eexists; rewrite elem_of_cons; eauto.
  - split; intros [r [[= -> ->]|I]%elem_of_cons].
    + eexists. rewrite elem_of_cons. eauto.
    + destruct (proj1 IH (ex_intro _ r I)) as [r' I'].
      exists r'. rewrite elem_of_cons. eauto.
    + eexists. rewrite elem_of_cons. eauto.
    + destruct (proj2 IH (ex_intro _ r I)) as [r' I'].
      exists r'. rewrite elem_of_cons. eauto.
Qed.

(** [{ ...o, [k]: v }] has the keys of [o] and [k], each once. *)
Lemma keys_define_prop_any k v o :
  keys (define_prop k v o) = keys o ∧ k ∈ keys o
  ∨ keys (define_prop k v o) ≡ₚ k :: keys o ∧ k ∉ keys o.
Proof.
  unfold define_prop. destruct (has_key k o) eqn:H.
  - left. split; [apply keys_update_prop | by apply has_key_elem].
  - right. split.
    + unfold keys. destruct (array_index k) as [i|].
      * by rewrite insert_index_perm.
      * rewrite fmap_app. simpl. by rewrite Permutation_app_comm.
    + intros K%has_key_elem. congruence.
Qed.

Lemma define_prop_entry k v o p r :
  (p, r) ∈ define_prop k v o → (p, r) ∈ o ∨ r = v ∧ p = k.
Proof.
  unfold define_prop. destruct (has_key k o).
  - apply update_prop_elem.
  - destruct (array_index k) as [i|].
    + rewrite insert_index_perm, elem_of_cons. naive_solver.
    + rewrite elem_of_app, elem_of_cons, elem_of_nil. naive_solver.
Qed.
End ObjectOrderFacts.

(** The [reduce] over results that name string identifiers: the mapping
    has a key for each identifier, each once. *)
Lemma collect_strings ids rs acc :
  Forall2 (λ p r, provider r = VStr p) ids rs →
  NoDup (keys acc) →
  ∃ responses,
    collect acc rs = Normal responses
    ∧ (∀ p, p ∈ keys responses ↔ p ∈ keys acc ∨ p ∈ ids)
    ∧ NoDup (keys responses)
    ∧ ∀ p r, (p, r) ∈ responses → (p, r) ∈ acc ∨ provider r = VStr p.
Proof.
  intros F. revert acc. induction F as [|p r ids rs Hp F IH]; intros acc D.
  { exists acc. split; [done|]. split; [|auto].
    intros p. rewrite elem_of_nil. naive_solver. }
  assert (D' : NoDup (keys (define_prop p r acc))
               ∧ ∀ q, q ∈ keys (define_prop p r acc) ↔ q = p ∨ q ∈ keys acc).
  { destruct (keys_define_prop_any p r acc) as [[-> I]|[E I]].
    - split; [done|]. intros q. naive_solver.
    - split.
      + rewrite E. by apply NoDup_cons.
      + intros q. rewrite E. apply elem_of_cons. }
  destruct D' as [D' M'].
  destruct (IH (define_prop p r acc) D') as (responses & E & Ks & N & V).
  exists responses. split; [|split; [|split]].
  - simpl. rewrite Hp. exact E.
  - intros q. rewrite Ks, M', elem_of_cons. naive_solver.
  - done.
  - intros q s Q. destruct (V q s Q) as [I|I]; [|by right].
    apply define_prop_entry in I as [I|[-> ->]]; auto.
Qed.

(** The handler on a list of string identifiers, given or defaulted. *)
Lemma handle_query_strings JSON_parse env world bodyText payload
    (prompt : string) providers (ids : list string) config log :
  JSON_parse (if String.eqb bodyText "" then "{}" else bodyText) = Normal payload →
  get payload "prompt" = Normal (VStr prompt) →
  prompt ≠ "" →
  get payload "providers" = Normal providers →
  defaulted providers (VArr [VStr "openai"; VStr "gemini"; VStr "anthropic"])
    = VArr (VStr <$> ids) →
  get payload "config" = Normal config →
  config ≠ VNull →
  ∃ log' responses,
    (∀ order, order ≡ₚ seq 0 (length ids) →
       handle_query JSON_parse env world order bodyText log =
       (log', Normal (Some (HttpResponse 200 "application/json"
                              (JsonResponses (VStr prompt) responses)))))
    ∧ (∀ p, p ∈ keys responses ↔ p ∈ ids)
    ∧ NoDup (keys responses)
    ∧ (∀ p r, (p, r) ∈ responses → provider r = VStr p)
    ∧ (Forall (λ p, known_provider p = true) ids →
       keys responses = first_occurrences ids).
Proof.
  intros J P N V L C CN.
  destruct (start_tasks_strings env world (VStr prompt)
              (defaulted config (VObj [])) ids) with (i := 0) (log := log)
    as (log' & rs & T & F); [by destruct config..|].
  destruct (collect_strings ids rs [] F) as (responses & E & Ks & D & M);
    [constructor|].
  exists log', responses. split; [|split; [|split; [|split]]].
  - intros order O.
    unfold handle_query. rewrite J. run_async. rewrite P, V, C, L.
    rewrite (truthy_nonempty _ N). simpl. rewrite T.
    rewrite promise_all_fulfilled
      by (by rewrite <- (Forall2_length _ _ _ F)).
    by rewrite E.
  - intros p. rewrite Ks. simpl. rewrite elem_of_nil. naive_solver.
  - done.
  - intros p r I. destruct (M p r I) as [[]%elem_of_nil|]. done.
  - intros K. destruct (collect_known ids rs [] F K) as (responses' & E' & Ks' & _).
    assert (responses' = responses) as -> by congruence.
    rewrite Ks'. simpl. apply filter_all. by intros p ?%elem_of_nil.
Qed.



(** X6.  For any list of string identifiers, known or not, with a valid
    prompt and a [config] that is absent or not [null], the answer is 200
    and [responses] has exactly one entry per requested identifier: its
    keys are the requested identifiers, none twice, and the entry of a key
    is a result for that identifier. *)
Theorem X6_one_entry_per_identifier JSON_parse env world dirname fs
    bodyText payload (prompt : string) (ids : list string) config :
  JSON_parse (if String.eqb bodyText "" then "{}" else bodyText) = Normal payload →
  get payload "prompt" = Normal (VStr prompt) →
  prompt ≠ "" →
  get payload "providers" = Normal (VArr (VStr <$> ids)) →
  get payload "config" = Normal config →
  config ≠ VNull →
  ∃ responses,
    (∀ order, order ≡ₚ seq 0 (length ids) →
       answer (server JSON_parse env world order dirname fs
                 "POST" "/api/query" bodyText) =
       Some (HttpResponse 200 "application/json"
               (JsonResponses (VStr prompt) responses)))
    ∧ (∀ p, p ∈ keys responses ↔ p ∈ ids)
    ∧ NoDup (keys responses)
    ∧ (∀ p r, (p, r) ∈ responses → provider r = VStr p).
Proof.
  intros J P N V C CN.
  destruct (handle_query_strings JSON_parse env world bodyText payload prompt
              (VArr (VStr <$> ids)) ids config [] J P N V eq_refl C CN)
    as (log' & responses & H & M & D & E & _).
  exists responses. split; [|done].
  intros order O. unfold server. simpl. by rewrite (H order O).
Qed.

Lemma X6_witness :
  ∃ responses,
    answer (server
              (λ _, Normal (VObj [("prompt", VStr "hello");
                                  ("providers", VArr (VStr <$> ["mistral"; "7"; "openai"]))]))
              (λ _, None) (λ _ _, Throw (Error "offline")) [0; 1; 2] "/srv/app"
              (λ _, ENOENT) "POST" "/api/query" "body") =
      Some (HttpResponse 200 "application/json"
              (JsonResponses (VStr "hello") responses))
    ∧ keys responses = ["7"; "mistral"; "openai"].
Proof.
  destruct (X6_one_entry_per_identifier
              (λ _, Normal (VObj [("prompt", VStr "hello");
                                  ("providers", VArr (VStr <$> ["mistral"; "7"; "openai"]))]))
              (λ _, None) (λ _ _, Throw (Error "offline")) "/srv/app"
              (λ _, ENOENT) "body"
              (VObj [("prompt", VStr "hello");
                     ("providers", VArr (VStr <$> ["mistral"; "7"; "openai"]))])
              "hello" ["mistral"; "7"; "openai"] VUndefined)
    as (responses & H & _); try reflexivity; try discriminate.
  exists responses. split; [by apply H|].
  specialize (H [0; 1; 2] (reflexivity _)). vm_compute in H.
  by injection H as <-.
Defined.

(** ** The calls a request makes *)

Lemma queryOpenAI_calls env net prompt cfg log :
  calls_of "openai" log (queryOpenAI env net prompt cfg log).
Proof.
  unfold calls_of, queryOpenAI. run_async.
  destruct (get cfg "apiKey") as [key|e]; [|by left].
  destruct (truthy _); simpl; [|by left].
  destruct (get cfg "model") as [model|e]; [|by left].
  destruct (to_string _) as [bearer|e]; [|by left].
  called.
Qed.

Lemma queryGemini_calls env net prompt cfg log :
  calls_of "gemini" log (queryGemini env net prompt cfg log).
Proof.
  unfold calls_of, queryGemini. run_async.
  destruct (get cfg "apiKey") as [key|e]; [|by left].
  destruct (truthy _); simpl; [|by left].
  destruct (get cfg "model") as [model|e]; [|by left].
  destruct (to_string (or_else model _)) as [modelText|e]; [|by left].
  destruct (to_string _) as [keyText|e]; [|by left].
  called.
Qed.

Lemma queryAnthropic_calls env net prompt cfg log :
  calls_of "anthropic" log (queryAnthropic env net prompt cfg log).
Proof.
  unfold calls_of, queryAnthropic. run_async.
  destruct (get cfg "apiKey") as [key|e]; [|by left].
  destruct (truthy _); simpl; [|by left].
  destruct (get cfg "model") as [model|e]; [|by left].
  destruct (get cfg "maxTokens") as [maxTokens|e]; [|by left].
  called.
Qed.

Lemma demoted_fst p run : (demoted p run).1 = run.1.
Proof. by destruct run as [l [r|e]]. Qed.

(** An identifier that is no string, or no known one, selects no adapter. *)
Lemma queryProvider_other env net provider prompt cfg log :
  (∀ p, provider = VStr p → known_provider p = false) →
  (queryProvider env net provider prompt cfg log).1 = log.
Proof.
  intros U. unfold queryProvider, try_catch.
  assert (∀ s, known_provider s = true → is_literal provider s = false) as L.
  { intros s K. destruct provider; try done. simpl.
    destruct (String.eqb s0 s) eqn:E; [|done].
    apply String.eqb_eq in E as ->. by rewrite (U s eq_refl) in K. }
  rewrite !L by done. run_async.
  destruct (to_string provider); simpl; done.
Qed.

Lemma queryProvider_calls env net provider prompt cfg log :
  ∃ extra,
    (queryProvider env net provider prompt cfg log).1 = (log ++ extra)%list
    ∧ (length extra ≤ 1)%nat
    ∧ ∀ req, req ∈ extra →
        fr_method req = "POST"
        ∧ ∃ p, provider = VStr p ∧ vendor_endpoint p (fr_url req) = true.
Proof.
  assert (S : ∀ p run, calls_of p log run → provider = VStr p →
    ∃ extra, (demoted p run).1 = (log ++ extra)%list ∧ (length extra ≤ 1)%nat
      ∧ ∀ req, req ∈ extra → fr_method req = "POST"
          ∧ ∃ p, provider = VStr p ∧ vendor_endpoint p (fr_url req) = true).
  { intros p run [E|(req & E & M & V)] ->; rewrite demoted_fst, E.
    - exists []. rewrite app_nil_r. split; [done|]. split; [simpl; lia|].
      by intros req ?%elem_of_nil.
    - exists [req]. split; [done|]. split; [simpl; lia|].
      intros r ->%list_elem_of_singleton. eauto. }
  assert ((∃ p, provider = VStr p ∧ known_provider p = true)
          ∨ (∀ p, provider = VStr p → known_provider p = false))
    as [(p & -> & K)|U].
  { destruct provider as [| | | |p| |]; try (by right).
    destruct (known_provider p) eqn:K; [left; eauto|].
    right. by intros ? [= <-]. }
  - apply known_provider_cases in K as [-> | [-> | ->]].
    + rewrite queryProvider_openai.
      exact (S _ _ (queryOpenAI_calls _ _ _ _ _) eq_refl).
    + rewrite queryProvider_gemini.
      exact (S _ _ (queryGemini_calls _ _ _ _ _) eq_refl).
    + rewrite queryProvider_anthropic.
      exact (S _ _ (queryAnthropic_calls _ _ _ _ _) eq_refl).
  - exists []. rewrite app_nil_r. split; [|split; [simpl; lia|]].
    + by apply queryProvider_other.
    + by intros req ?%elem_of_nil.
Qed.

Lemma queryOpenAI_sends env net prompt cfg log :
  sends_of env "openai" cfg log (queryOpenAI env net prompt cfg log).
Proof.
  unfold sends_of, api_key, queryOpenAI. run_async.
  destruct (get cfg "apiKey") as [key|e]; [|by left].
  destruct (truthy _) eqn:T; simpl; [|by left].
  destruct (get cfg "model") as [model|e]; [|by left].
  destruct (to_string _) as [bearer|e] eqn:P; [|by left].
  sent net (or_else key (env_get env "OPENAI_API_KEY")).
Qed.

Lemma queryGemini_sends env net prompt cfg log :
  sends_of env "gemini" cfg log (queryGemini env net prompt cfg log).
Proof.
  unfold sends_of, api_key, queryGemini. run_async.
  destruct (get cfg "apiKey") as [key|e]; [|by left].
  destruct (truthy _) eqn:T; simpl; [|by left].
  destruct (get cfg "model") as [model|e]; [|by left].
  destruct (to_string (or_else model _)) as [modelText|e]; [|by left].
  destruct (to_string _) as [keyText|e] eqn:P; [|by left].
  sent net (or_else key (env_get env "GEMINI_API_KEY")).
Qed.

Lemma queryAnthropic_sends env net prompt cfg log :
  sends_of env "anthropic" cfg log (queryAnthropic env net prompt cfg log).
Proof.
  unfold sends_of, api_key, queryAnthropic. run_async.
  destruct (get cfg "apiKey") as [key|e]; [|by left].
  destruct (truthy _) eqn:T; simpl; [|by left].
  destruct (get cfg "model") as [model|e]; [|by left].
  destruct (get cfg "maxTokens") as [maxTokens|e]; [|by left].
  sent net (or_else key (env_get env "ANTHROPIC_API_KEY")).
Qed.

Lemma queryProvider_sends env net provider prompt cfg log :
  ∃ extra,
    (queryProvider env net provider prompt cfg log).1 = (log ++ extra)%list
    ∧ (length extra ≤ 1)%nat
    ∧ ∀ req, req ∈ extra →
        fr_method req = "POST"
        ∧ ∃ p apiKey,
            provider = VStr p
            ∧ vendor_endpoint p (fr_url req) = true
            ∧ api_key env (variable_of p) cfg = Normal apiKey
            ∧ truthy apiKey = true
            ∧ carries_key p apiKey req.
Proof.
  assert (S : ∀ p run, sends_of env p cfg log run → provider = VStr p →
    ∃ extra, (demoted p run).1 = (log ++ extra)%list ∧ (length extra ≤ 1)%nat
      ∧ ∀ req, req ∈ extra → fr_method req = "POST"
          ∧ ∃ p apiKey, provider = VStr p ∧ vendor_endpoint p (fr_url req) = true
              ∧ api_key env (variable_of p) cfg = Normal apiKey
              ∧ truthy apiKey = true
              ∧ carries_key p apiKey req).
  { intros p run [E|(req & apiKey & E & M & V & K & T & C)] ->;
      rewrite demoted_fst, E.
    - exists []. rewrite app_nil_r. split; [done|]. split; [simpl; lia|].
      by intros req ?%elem_of_nil.
    - exists [req]. split; [done|]. split; [simpl; lia|].
      intros r ->%list_elem_of_singleton. split; [done|]. by exists p, apiKey. }
  assert ((∃ p, provider = VStr p ∧ known_provider p = true)
          ∨ (∀ p, provider = VStr p → known_provider p = false))
    as [(p & -> & K)|U].
  { destruct provider as [| | | |p| |]; try (by right).
    destruct (known_provider p) eqn:K; [left; eauto|].
    right. by intros ? [= <-]. }
  - apply known_provider_cases in K as [-> | [-> | ->]].
    + rewrite queryProvider_openai.
      exact (S _ _ (queryOpenAI_sends _ _ _ _ _) eq_refl).
    + rewrite queryProvider_gemini.
      exact (S _ _ (queryGemini_sends _ _ _ _ _) eq_refl).
    + rewrite queryProvider_anthropic.
      exact (S _ _ (queryAnthropic_sends _ _ _ _ _) eq_refl).
  - exists []. rewrite app_nil_r. split; [|split; [simpl; lia|]].
    + by apply queryProvider_other.
    + by intros req ?%elem_of_nil.
Qed.

(** An adapter reads no variable of the environment but its own. *)
Lemma queryProvider_own_variable env env' net provider prompt cfg log :
  (∀ p, provider = VStr p → env' (variable_of p) = env (variable_of p)) →
  queryProvider env' net provider prompt cfg log
  = queryProvider env net provider prompt cfg log.
Proof.
  intros H. destruct provider as [| | | |p| |]; try reflexivity.
  specialize (H p eq_refl).
  destruct (known_provider p) eqn:K.
  - apply known_provider_cases in K as [-> | [-> | ->]].
    + rewrite !queryProvider_openai. f_equal.
      change (env' "OPENAI_API_KEY" = env "OPENAI_API_KEY") in H.
      unfold queryOpenAI, env_get. by rewrite H.
    + rewrite !queryProvider_gemini. f_equal.
      change (env' "GEMINI_API_KEY" = env "GEMINI_API_KEY") in H.
      unfold queryGemini, env_get. by rewrite H.
    + rewrite !queryProvider_anthropic. f_equal.
      change (env' "ANTHROPIC_API_KEY" = env "ANTHROPIC_API_KEY") in H.
      unfold queryAnthropic, env_get. by rewrite H.
  - by rewrite !unknown_dispatch.
Qed.

(** X7.  [queryProvider] makes at most one [fetch] call and keeps the log
    of earlier calls.  The call is a [POST] to the endpoint of the
    provider it was asked for, and the key it carries is that provider's
    own: [apiKey] of the configuration it was given, or else the
    provider's own environment variable, as the bearer token (OpenAI),
    in the address (Gemini) or in the [x-api-key] header (Anthropic).
    The variables of the other vendors are never read: changing them
    changes neither the calls nor the result.  An identifier that is not
    a known string calls no one. *)
Theorem X7_at_most_one_call_to_the_vendor env net provider prompt cfg log :
  (∃ extra,
     (queryProvider env net provider prompt cfg log).1 = (log ++ extra)%list
     ∧ (length extra ≤ 1)%nat
     ∧ ∀ req, req ∈ extra →
         fr_method req = "POST"
         ∧ ∃ p apiKey,
             provider = VStr p
             ∧ vendor_endpoint p (fr_url req) = true
             ∧ api_key env (variable_of p) cfg = Normal apiKey
             ∧ truthy apiKey = true
             ∧ carries_key p apiKey req)
  ∧ (∀ env',
       (∀ p, provider = VStr p → env' (variable_of p) = env (variable_of p)) →
       queryProvider env' net provider prompt cfg log
       = queryProvider env net provider prompt cfg log).
Proof.
  split; [apply queryProvider_sends|].
  intros env'. apply queryProvider_own_variable.
Qed.

(** X8.  The [catch] of [queryProvider] prints the identifier too: for an
    identifier that cannot be converted to a string (an object with its
    own [toString] key) the call rejects with the conversion's error and
    fetches nothing. *)
Theorem X8_unprintable_identifier_rejects env net provider prompt cfg log e :
  to_string provider = Throw e →
  queryProvider env net provider prompt cfg log = (log, Throw e).
Proof.
  intros T. unfold queryProvider, try_catch.
  assert (∀ s, is_literal provider s = false) as L.
  { intros s. by destruct provider. }
  rewrite !L. run_async. by rewrite T.
Qed.

Lemma X7_witness :
  ∃ req,
    head (queryProvider
            (λ name, if String.eqb name "ANTHROPIC_API_KEY" then Some "sk-ant"
                     else Some "another-key")
            (λ _, Throw (Error "offline"))
            (VStr "anthropic") (VStr "hello") (VObj []) []).1 = Some req
    ∧ fr_method req = "POST"
    ∧ fr_url req = "https://api.anthropic.com/v1/messages"
    ∧ fr_headers req = [("Content-Type", VStr "application/json");
                        ("x-api-key", VStr "sk-ant");
                        ("anthropic-version", VStr "2023-06-01")].
Proof.
  destruct (X7_at_most_one_call_to_the_vendor
              (λ name, if String.eqb name "ANTHROPIC_API_KEY" then Some "sk-ant"
                       else Some "another-key")
              (λ _, Throw (Error "offline")) (VStr "anthropic") (VStr "hello")
              (VObj []) []) as [(extra & E & _ & F) _].
  simpl app in E. eexists. split; [reflexivity|].
  edestruct F as (M & p & apiKey & [= <-] & V & K & _ & C); [rewrite <- E; left|].
  injection K as <-.
  split; [exact M|]. split; [reflexivity|exact C].
Defined.

Lemma X8_witness :
  queryProvider (λ _, Some "key") (λ _, Throw (Error "offline"))
    (VObj [("toString", VNull)]) (VStr "hello") (VObj []) [] =
  ([], Throw (TypeError "Cannot convert object to primitive value")).
Proof. apply X8_unprintable_identifier_rejects. reflexivity. Defined.

Lemma start_tasks_cons env world prompt config i v rest log :
  start_tasks env world prompt config i (v :: rest) log =
  match to_string v with
  | Throw e => (log, Throw e)
  | Normal key =>
      match get config key with
      | Throw e => (log, Throw e)
      | Normal entry =>
          let run := queryProvider env (world i) v prompt
                       (or_else entry (VObj [])) log in
          match start_tasks env world prompt config (S i) rest run.1 with
          | (log2, Normal tasks) => (log2, Normal (run.2 :: tasks))
          | (log2, Throw e) => (log2, Throw e)
          end
      end
  end.
Proof.
  cbn [start_tasks]. run_async. unfold start.
  destruct (to_string v) as [key|]; [|done].
  destruct (get config key) as [entry|]; [|done].
  destruct (queryProvider _ _ _ _ _ _) as [log1 c]. simpl.
  by destruct (start_tasks _ _ _ _ _ _ _) as [log2 [tasks|]].
Qed.

(** An item that cannot be converted to a property key stops the [map]. *)
Lemma start_tasks_unprintable env world prompt config items item e :
  item ∈ items → to_string item = Throw e →
  ∀ i log, ∃ log' e',
    start_tasks env world prompt config i items log = (log', Throw e').
Proof.
  intros I T. induction items as [|v rest IH]; intros i log.
  { by apply elem_of_nil in I. }
  rewrite start_tasks_cons.
  destruct (to_string v) as [key|e1] eqn:V; [|eauto].
  destruct (get config key) as [entry|e2]; [|eauto].
  apply elem_of_cons in I as [->|I]; [congruence|]. simpl.
  destruct (IH I (S i)
              (queryProvider env (world i) v prompt (or_else entry (VObj [])) log).1)
    as (log' & e' & ->). eauto.
Qed.

(** X9.  With a valid prompt, a [providers] array that holds an item
    which cannot be converted to a string is answered with the generic
    500: reading [config[provider]] for that item throws out of the
    [map]. *)
Theorem X9_unprintable_item_is_500 JSON_parse env world order dirname fs
    bodyText payload (prompt : string) items item e :
  JSON_parse (if String.eqb bodyText "" then "{}" else bodyText) = Normal payload →
  get payload "prompt" = Normal (VStr prompt) →
  prompt ≠ "" →
  get payload "providers" = Normal (VArr items) →
  item ∈ items →
  to_string item = Throw e →
  answer (server JSON_parse env world order dirname fs
            "POST" "/api/query" bodyText) =
  Some (HttpResponse 500 "application/json" (JsonError "Internal server error")).
Proof.
  intros J P N V I T.
  destruct (get_elsewhere _ _ _ "config" P) as [c C].
  destruct (start_tasks_unprintable env world (VStr prompt)
              (defaulted c (VObj [])) items item e I T 0 [])
    as (log' & e' & S).
  unfold server, handle_query. simpl. rewrite J. run_async.
  rewrite P, V, C, (truthy_nonempty _ N). simpl. by rewrite S.
Qed.

Lemma X9_witness :
  answer (server
            (λ _, Normal (VObj [("prompt", VStr "hello");
                                ("providers",
                                 VArr [VStr "openai"; VObj [("toString", VNull)]])]))
            (λ _, Some "key")
            (λ _ _, Normal (Response 200 (Normal "{}") (Normal (VObj []))))
            [0; 1] "/srv/app" (λ _, ENOENT) "POST" "/api/query" "body") =
  Some (HttpResponse 500 "application/json" (JsonError "Internal server error")).
Proof.
  apply (X9_unprintable_item_is_500 _ _ _ _ _ _ "body"
           (VObj [("prompt", VStr "hello");
                  ("providers",
                   VArr [VStr "openai"; VObj [("toString", VNull)]])])
           "hello" [VStr "openai"; VObj [("toString", VNull)]]
           (VObj [("toString", VNull)])
           (TypeError "Cannot convert object to primitive value"));
    try reflexivity; try discriminate.
  rewrite !elem_of_cons. auto.
Defined.

(** The tasks of a [map] log at most one call each, each a [POST] to a
    vendor's endpoint, and leave one settled promise per item. *)
Lemma start_tasks_calls env world prompt config items : ∀ i log,
  ∃ extra,
    (start_tasks env world prompt config i items log).1 = (log ++ extra)%list
    ∧ (length extra ≤ length items)%nat
    ∧ (∀ req, req ∈ extra →
         fr_method req = "POST" ∧ ∃ p, vendor_endpoint p (fr_url req) = true)
    ∧ ∀ tasks, (start_tasks env world prompt config i items log).2 = Normal tasks →
               length tasks = length items.
Proof.
  induction items as [|v rest IH]; intros i log.
  { exists []. rewrite app_nil_r. split; [done|]. split; [done|]. split.
    - by intros req ?%elem_of_nil.
    - by intros tasks [= <-]. }
  assert (Z : ∀ e, ∃ extra,
    ((log, @Throw (list (completion result)) e)).1 = (log ++ extra)%list
    ∧ (length extra ≤ length (v :: rest))%nat
    ∧ (∀ req, req ∈ extra →
         fr_method req = "POST" ∧ ∃ p, vendor_endpoint p (fr_url req) = true)
    ∧ ∀ tasks, ((log, @Throw (list (completion result)) e)).2 = Normal tasks →
               length tasks = length (v :: rest)).
  { intros e. exists []. rewrite app_nil_r.
    split; [done|]. split; [simpl; lia|]. split; [|done].
    by intros req ?%elem_of_nil. }
  rewrite start_tasks_cons.
  destruct (to_string v) as [key|e1]; [|apply Z].
  destruct (get config key) as [entry|e2]; [|apply Z]. simpl.
  destruct (queryProvider_calls env (world i) v prompt
              (or_else entry (VObj [])) log) as (one & E1 & L1 & M1).
  destruct (IH (S i)
              (queryProvider env (world i) v prompt (or_else entry (VObj [])) log).1)
    as (more & E2 & L2 & M2 & T2).
  exists (one ++ more)%list.
  destruct (start_tasks _ _ _ _ _ _ _) as [log2 c]. simpl in *.
  assert (log2 = (log ++ one ++ more)%list) as ->.
  { rewrite E2, E1. by rewrite app_assoc. }
  split; [by destruct c|]. split; [rewrite length_app; lia|]. split.
  - intros req [I|I]%elem_of_app; [|by apply M2].
    destruct (M1 req I) as (? & p & _ & ?). eauto.
  - destruct c as [tasks|]; [|done]. intros ? [= <-]. simpl.
    by rewrite (T2 tasks eq_refl).
Qed.

(** The handler logs what the tasks of its [map] log, or nothing. *)
Lemma handle_query_log JSON_parse env world order bodyText log :
  (handle_query JSON_parse env world order bodyText log).1 = log
  ∨ ∃ payload providers items prompt config,
      JSON_parse (if String.eqb bodyText "" then "{}" else bodyText) = Normal payload
      ∧ get payload "providers" = Normal providers
      ∧ defaulted providers (VArr [VStr "openai"; VStr "gemini"; VStr "anthropic"])
        = VArr items
      ∧ (handle_query JSON_parse env world order bodyText log).1 =
        (start_tasks env world prompt config 0 items log).1.
Proof.
  unfold handle_query.
  destruct (JSON_parse _) as [payload|] eqn:J; [|by left]. run_async.
  destruct (get payload "prompt") as [prompt|]; [|by left].
  destruct (get payload "providers") as [providers|] eqn:V; [|by left].
  destruct (get payload "config") as [config|]; [|by left].
  destruct (negb (truthy prompt) || negb (is_string prompt)); [by left|].
  destruct (array_items _) as [items|] eqn:A; [|by left].
  right. exists payload, providers, items, prompt, (defaulted config (VObj [])).
  split; [done|]. split; [done|]. split.
  { destruct (defaulted providers _); by inversion A. }
  destruct (start_tasks _ _ _ _ _ _ _) as [log' [tasks|]]; [|done]. simpl.
  destruct (promise_all order tasks) as [[results|]|]; try done.
  by destruct (collect [] results).
Qed.

(** X10.  The server calls [fetch] only for a [POST /api/query], only
    with [POST] requests to the endpoints of the three vendors, and at
    most once per item of the [providers] list (given or defaulted). *)
Theorem X10_calls_are_bounded_by_providers JSON_parse env world order dirname fs
    method pathname bodyText :
  (∀ req,
     req ∈ fetched (server JSON_parse env world order dirname fs
                      method pathname bodyText) →
     fr_method req = "POST" ∧ ∃ p, vendor_endpoint p (fr_url req) = true)
  ∧ (fetched (server JSON_parse env world order dirname fs
                method pathname bodyText) = []
     ∨ method = "POST" ∧ pathname = "/api/query"
       ∧ ∃ payload providers items,
           JSON_parse (if String.eqb bodyText "" then "{}" else bodyText)
             = Normal payload
           ∧ get payload "providers" = Normal providers
           ∧ defaulted providers
               (VArr [VStr "openai"; VStr "gemini"; VStr "anthropic"])
             = VArr items
           ∧ (length (fetched (server JSON_parse env world order dirname fs
                                 method pathname bodyText))
              ≤ length items)%nat).
Proof.
  assert (N : ∀ req : fetch_request, req ∈ [] →
            fr_method req = "POST" ∧ ∃ p, vendor_endpoint p (fr_url req) = true).
  { by intros req ?%elem_of_nil. }
  unfold server.
  destruct (String.eqb method "POST" && String.eqb pathname "/api/query") eqn:Q.
  - apply andb_true_iff in Q as [->%String.eqb_eq ->%String.eqb_eq].
    pose proof (handle_query_log JSON_parse env world order bodyText []) as L.
    destruct (handle_query _ _ _ _ _ _) as [log c]. simpl in *.
    destruct L as [->|(payload & providers & items & prompt & config & J & V & D & ->)];
      [by auto|].
    destruct (start_tasks_calls env world prompt config items 0 [])
      as (extra & -> & B & M & _). simpl.
    split; [exact M|]. right. split; [done|]. split; [done|]. eauto 10.
  - destruct (String.eqb method "GET").
    + destruct (serveStatic dirname fs pathname) as [reads c]. simpl. auto.
    + simpl. auto.
Qed.

Lemma X10_witness :
  ∃ req,
    head (fetched (server (λ _, Normal (fr_body typed_request)) (λ _, None)
                     offline [1; 0] "/srv/app" (λ _, ENOENT)
                     "POST" "/api/query" "body")) = Some req
    ∧ fr_method req = "POST".
Proof.
  destruct (X10_calls_are_bounded_by_providers
              (λ _, Normal (fr_body typed_request)) (λ _, None)
              offline [1; 0] "/srv/app" (λ _, ENOENT)
              "POST" "/api/query" "body") as [F _].
  eexists. split; [reflexivity|].
  apply F. left.
Defined.

(** ** Every request is answered *)

Section PromiseAllSettles.
Context {A : Type}.
Implicit Types (settled : list (completion A)) (values : list (option A)).

Lemma settle_all_any settled order values :
  length values = length settled →
  (∃ e, settle_all order settled values = Throw e)
  ∨ ∃ values',
      settle_all order settled values = Normal values'
      ∧ length values' = length settled
      ∧ ∀ j, (j ∈ order → (j < length settled)%nat → ∃ a, values' !! j = Some (Some a))
             ∧ (j ∉ order → values' !! j = values !! j).
Proof.
  revert values. induction order as [|i later IH]; intros values L; simpl.
  { right. exists values. split; [done|]. split; [done|]. intros j.
    split; [|done]. by intros ?%elem_of_nil. }
  destruct (settled !! i) as [[a|e]|] eqn:X; [|left; eauto|].
  - destruct (IH (<[i:=Some a]> values)) as [?|(values' & E & L' & V)];
      [by rewrite length_insert|by left|].
    right. exists values'. split; [done|]. split; [done|]. intros j.
    destruct (V j) as [V1 V2]. destruct (decide (j ∈ later)) as [J|J].
    + split; [auto|]. by intros [_ ?]%not_elem_of_cons.
    + rewrite (V2 J). split.
      * intros [->|?]%elem_of_cons _; [|done]. exists a.
        apply list_lookup_insert_eq. rewrite L. by eapply lookup_lt_Some.
      * intros [? _]%not_elem_of_cons. by rewrite list_lookup_insert_ne.
  - destruct (IH values L) as [?|(values' & E & L' & V)]; [by left|].
    right. exists values'. split; [done|]. split; [done|]. intros j.
    destruct (V j) as [V1 V2]. destruct (decide (j ∈ later)) as [J|J].
    + split; [auto|]. by intros [_ ?]%not_elem_of_cons.
    + rewrite (V2 J). split; [|done].
      intros [->|?]%elem_of_cons B; [|done].
      apply lookup_ge_None in X. lia.
Qed.

Lemma all_filled_total values :
  (∀ j, (j < length values)%nat → ∃ a, values !! j = Some (Some a)) →
  is_Some (all_filled values).
Proof.
  induction values as [|v values IH]; intros F; simpl; [by eexists|].
  destruct (F 0) as [a E]; [simpl; lia|]. simpl in E. injection E as ->.
  destruct IH as [l ->]; [|by eexists].
  intros j B. apply (F (S j)). simpl. lia.
Qed.

(** Once every promise has settled, [Promise.all] has settled. *)
Lemma promise_all_settles settled order :
  order ≡ₚ seq 0 (length settled) → is_Some (promise_all order settled).
Proof.
  intros P. unfold promise_all.
  destruct (settle_all_any settled order (replicate (length settled) None))
    as [[e ->]|(values' & -> & L & V)]; [by rewrite length_replicate|by eexists|].
  destruct (all_filled_total values') as [l ->]; [|by eexists].
  intros j B. apply V; [|lia]. rewrite P. apply elem_of_seq. lia.
Qed.
End PromiseAllSettles.

(** X11.  Once every task of the request has settled (the settlement
    order covers the indices of the [providers] list, given or
    defaulted), the server answers, and its status is 200, 400, 404, 405
    or 500: no exception escapes the listener. *)
Theorem X11_every_request_is_answered JSON_parse env world order dirname fs
    method pathname bodyText :
  (∀ payload providers items,
     JSON_parse (if String.eqb bodyText "" then "{}" else bodyText) = Normal payload →
     get payload "providers" = Normal providers →
     defaulted providers (VArr [VStr "openai"; VStr "gemini"; VStr "anthropic"])
       = VArr items →
     order ≡ₚ seq 0 (length items)) →
  ∃ resp,
    answer (server JSON_parse env world order dirname fs method pathname bodyText)
      = Some resp
    ∧ code resp ∈ server_codes.
Proof.
  intros O.
  assert (C : ∀ n, n ∈ server_codes ↔ n = 200 ∨ n = 400 ∨ n = 404 ∨ n = 405 ∨ n = 500).
  { intros n. unfold server_codes. rewrite !elem_of_cons, elem_of_nil. naive_solver. }
  assert (E : ∀ A (c : completion A) k,
            (∀ a, c = Normal a → ∃ resp, k a = Some resp ∧ code resp ∈ server_codes) →
            ∃ resp, or_500 c k = Some resp ∧ code resp ∈ server_codes).
  { intros A [a|e] k H; simpl; [by apply H|].
    eexists. split; [done|]. apply C. simpl. auto 10. }
  unfold server.
  destruct (String.eqb method "POST" && String.eqb pathname "/api/query").
  - destruct (handle_query _ _ _ _ _ _) as [log c] eqn:H. simpl.
    apply E. intros a ->. unfold handle_query in H.
    destruct (JSON_parse _) as [payload|] eqn:J.
    2:{ injection H as _ <-. eexists. split; [done|]. apply C. simpl. auto. }
    run_async.
    destruct (get payload "prompt") as [prompt|]; [|done].
    destruct (get payload "providers") as [providers|] eqn:V; [|done].
    destruct (get payload "config") as [config|]; [|done].
    destruct (negb (truthy prompt) || negb (is_string prompt)).
    { injection H as _ <-. eexists. split; [done|]. apply C. simpl. auto. }
    destruct (array_items _) as [items|] eqn:I; [|done].
    assert (D : defaulted providers
                  (VArr [VStr "openai"; VStr "gemini"; VStr "anthropic"]) = VArr items).
    { destruct (defaulted providers _); by inversion I. }
    destruct (start_tasks_calls env world prompt (defaulted config (VObj []))
                items 0 []) as (_ & _ & _ & _ & T).
    destruct (start_tasks _ _ _ _ _ _ _) as [log' [tasks|]]; [|done]. simpl in *.
    destruct (promise_all_settles tasks order) as [settled S].
    { rewrite (T tasks eq_refl). eauto. }
    rewrite S in H. destruct settled as [results|]; [|done].
    destruct (collect [] results); [|done].
    injection H as _ <-. eexists. split; [done|]. apply C. simpl. auto.
  - destruct (String.eqb method "GET").
    + unfold serveStatic. simpl.
      destruct (fs _); simpl; eexists; (split; [done|]); apply C; simpl; auto 10.
    + simpl. eexists. split; [done|]. apply C. simpl. auto 10.
Qed.

Lemma X11_witness :
  ∃ resp,
    answer (server
              (λ _, Normal (VObj [("prompt", VStr "hello");
                                  ("providers", VArr [VStr "openai"; VNull])]))
              (λ _, Some "key") (λ _ _, Throw (Error "offline")) [1; 0]
              "/srv/app" (λ _, ENOENT) "POST" "/api/query" "body") = Some resp
    ∧ code resp ∈ server_codes.
Proof.
  apply X11_every_request_is_answered.
  intros payload providers items [= <-] [= <-] [= <-].
  apply Permutation_swap.
Defined.

(** * Further properties of the adapters *)

(** X12.  A non-empty [apiKey] string in the per-request configuration is
    the key that is sent, whatever the environment holds: as the bearer
    token for OpenAI, in the [key] parameter of the address for Gemini
    (when the model name can be printed), in the [x-api-key] header for
    Anthropic. *)
Theorem X12_request_key_overrides_environment env net prompt cfg log k :
  get cfg "apiKey" = Normal (VStr k) →
  k ≠ "" →
  (∃ req c, queryOpenAI env net prompt cfg log = ((log ++ [req])%list, c)
            ∧ ("Authorization", VStr ("Bearer " +:+ k)) ∈ fr_headers req)
  ∧ (∀ m modelText,
       get cfg "model" = Normal m →
       to_string (or_else m (VStr "gemini-1.5-flash")) = Normal modelText →
       ∃ req c, queryGemini env net prompt cfg log = ((log ++ [req])%list, c)
                ∧ fr_url req =
                  "https://generativelanguage.googleapis.com/v1beta/models/"
                  +:+ modelText +:+ ":generateContent?key=" +:+ k)
  ∧ (∃ req c, queryAnthropic env net prompt cfg log = ((log ++ [req])%list, c)
              ∧ ("x-api-key", VStr k) ∈ fr_headers req).
Proof.
  intros K Hk.
  destruct (get_elsewhere _ _ _ "model" K) as [m M].
  destruct (get_elsewhere _ _ _ "maxTokens" K) as [t T].
  assert (O : ∀ fallback, or_else (VStr k) fallback = VStr k).
  { intros fallback. unfold or_else. by rewrite (truthy_nonempty _ Hk). }
  split; [|split].
  - unfold queryOpenAI. run_async. rewrite K, M, O, (truthy_nonempty _ Hk). simpl.
    answered net; do 2 eexists; (split; [reflexivity|]); simpl;
      rewrite !elem_of_cons; auto.
  - intros m' modelText M' P.
    unfold queryGemini. run_async. rewrite K, M', O, (truthy_nonempty _ Hk). simpl.
    rewrite P. simpl. answered net; do 2 eexists; split; reflexivity.
  - unfold queryAnthropic. run_async.
    rewrite K, M, T, O, (truthy_nonempty _ Hk). simpl.
    answered net; do 2 eexists; (split; [reflexivity|]); simpl;
      rewrite !elem_of_cons; auto.
Qed.

Lemma X12_witness :
  ∃ req c,
    queryAnthropic (λ _, Some "from-env") (λ _, Throw (Error "offline"))
      (VStr "hello") (VObj [("apiKey", VStr "from-request")]) [] = ([req], c)
    ∧ ("x-api-key", VStr "from-request") ∈ fr_headers req.
Proof.
  apply (X12_request_key_overrides_environment (λ _, Some "from-env")
           (λ _, Throw (Error "offline")) (VStr "hello")
           (VObj [("apiKey", VStr "from-request")]) [] "from-request");
    [reflexivity | discriminate].
Defined.

Lemma or_else_text s :
  s ≠ "" → or_else (VStr s) no_response = VStr s.
Proof. intros N. unfold or_else. by rewrite (truthy_nonempty _ N). Qed.

(** X13.  When the call of an adapter is answered with a status in
    200-299 and a JSON body that holds text, the adapter returns the
    [success] result whose message is that text without the white space
    around it (for Gemini and Anthropic: the [text] fields joined by line
    breaks), and whose [raw] is the whole body.  An adapter that has a
    key does make that call. *)
Theorem X13_success_carries_the_trimmed_text env net prompt cfg log r data :
  resp_ok r = true →
  resp_json r = Normal data →
  (∀ s,
     openai_content data = Normal (VStr s) → trim s ≠ "" →
     (∀ req c,
        net req = Normal r →
        queryOpenAI env net prompt cfg log = ((log ++ [req])%list, c) →
        c = Normal (Result (VStr "openai") Success (VStr (trim s)) (Some data)))
     ∧ (ready env "openai" cfg → answers "openai" net r →
        ∃ req,
          queryOpenAI env net prompt cfg log =
          ((log ++ [req])%list,
           Normal (Result (VStr "openai") Success (VStr (trim s)) (Some data)))))
  ∧ (∀ items texts s,
       gemini_parts data = Normal (VArr items) →
       mapM (λ item, get item "text") items = Normal texts →
       join newline texts = Normal s → trim s ≠ "" →
       (∀ req c,
          net req = Normal r →
          queryGemini env net prompt cfg log = ((log ++ [req])%list, c) →
          c = Normal (Result (VStr "gemini") Success (VStr (trim s)) (Some data)))
       ∧ (ready env "gemini" cfg → answers "gemini" net r →
          ∃ req,
            queryGemini env net prompt cfg log =
            ((log ++ [req])%list,
             Normal (Result (VStr "gemini") Success (VStr (trim s)) (Some data)))))
  ∧ (∀ items texts s,
       get data "content" = Normal (VArr items) →
       mapM (λ item, get item "text") items = Normal texts →
       join newline texts = Normal s → trim s ≠ "" →
       (∀ req c,
          net req = Normal r →
          queryAnthropic env net prompt cfg log = ((log ++ [req])%list, c) →
          c = Normal (Result (VStr "anthropic") Success (VStr (trim s)) (Some data)))
       ∧ (ready env "anthropic" cfg → answers "anthropic" net r →
          ∃ req,
            queryAnthropic env net prompt cfg log =
            ((log ++ [req])%list,
             Normal (Result (VStr "anthropic") Success (VStr (trim s))
                       (Some data))))).
Proof.
  intros O J. split; [|split].
  - intros s C T.
    assert (E : reply "openai" "OpenAI" openai_text r =
                Normal (Result (VStr "openai") Success (VStr (trim s)) (Some data))).
    { unfold reply, openai_text. run_async. rewrite O, J, C. simpl.
      by rewrite (or_else_text _ T). }
    split.
    + intros req c N Q.
      by rewrite (shape_answered _ _ _ _ _ _ _ _ _ (queryOpenAI_shape _ _ _ _ _) Q), N.
    + intros R N.
      destruct (queryOpenAI_reaches env net prompt cfg log R) as (req & V & ->).
      exists req. rewrite (N req V). f_equal. exact E.
  - intros items texts s C M S T.
    assert (E : reply "gemini" "Gemini" gemini_text r =
                Normal (Result (VStr "gemini") Success (VStr (trim s)) (Some data))).
    { unfold reply, gemini_text, joined_text. run_async. rewrite O, J, C. simpl.
      run_async. rewrite M, S. simpl. by rewrite (or_else_text _ T). }
    split.
    + intros req c N Q.
      by rewrite (shape_answered _ _ _ _ _ _ _ _ _ (queryGemini_shape _ _ _ _ _) Q), N.
    + intros R N.
      destruct (queryGemini_reaches env net prompt cfg log R) as (req & V & ->).
      exists req. rewrite (N req V). f_equal. exact E.
  - intros items texts s C M S T.
    assert (E : reply "anthropic" "Anthropic" anthropic_text r =
                Normal (Result (VStr "anthropic") Success (VStr (trim s)) (Some data))).
    { unfold reply, anthropic_text, joined_text. run_async. rewrite O, J, C. simpl.
      run_async. rewrite M, S. simpl. by rewrite (or_else_text _ T). }
    split.
    + intros req c N Q.
      by rewrite (shape_answered _ _ _ _ _ _ _ _ _ (queryAnthropic_shape _ _ _ _ _) Q), N.
    + intros R N.
      destruct (queryAnthropic_reaches env net prompt cfg log R) as (req & V & ->).
      exists req. rewrite (N req V). f_equal. exact E.
Qed.

Lemma X13_witness :
  queryAnthropic (λ _, Some "key") (always two_block_data)
    (VStr "hello") (VObj []) [] =
  ([anthropic_request "key" (VStr "hello")],
   Normal (Result (VStr "anthropic") Success
             (VStr ("Hi" +:+ newline +:+ "there")) (Some two_block_data))).
Proof.
  destruct (X13_success_carries_the_trimmed_text (λ _, Some "key")
              (always two_block_data) (VStr "hello") (VObj []) []
              (Response 200 (Normal "") (Normal two_block_data))
              two_block_data eq_refl eq_refl) as (_ & _ & A).
  destruct (A _ [VStr "  Hi"; VStr "there "] ("  Hi" +:+ newline +:+ "there ")
              eq_refl eq_refl eq_refl) as [_ B]; [discriminate|].
  destruct B as [req Q].
  - exists (VStr "key").
    split; [reflexivity|]. split; [reflexivity|].
    split; [intros _; exists "key"; reflexivity|]. intros [=].
  - intros req _. reflexivity.
  - rewrite Q. injection Q as <-. reflexivity.
Defined.

Lemma demoted_answered net id vendor variable extract log run req r e res :
  adapter_shape net id vendor variable extract log run →
  demoted id run = ((log ++ [req])%list, Normal res) →
  net req = Normal r →
  reply id vendor extract r = Throw e →
  res = Result (VStr id) Failed
          (VStr (if decide (err_message e = "") then "Unexpected error"
                 else err_message e)) None.
Proof.
  intros S D N R. pose proof (demoted_log _ _ _ _ D) as L.
  destruct run as [l c]. simpl in L. subst l.
  rewrite (shape_answered _ _ _ _ _ _ _ _ _ S eq_refl) in D.
  rewrite N in D. run_async. rewrite R, demoted_throw in D. congruence.
Qed.

Lemma reply_unparsed id vendor extract r e :
  resp_ok r = true → resp_json r = Throw e →
  reply id vendor extract r = Throw e.
Proof. intros O J. unfold reply. run_async. by rewrite O, J. Qed.

Lemma reply_unextracted id vendor extract r data e :
  resp_ok r = true → resp_json r = Normal data → extract data = Throw e →
  reply id vendor extract r = Throw e.
Proof. intros O J E. unfold reply. run_async. by rewrite O, J, E. Qed.

Lemma known_answered env net (p : string) prompt cfg log log' res :
  known_provider p = true →
  queryProvider env net (VStr p) prompt cfg log = (log', Normal res) →
  ∃ vendor variable extract run,
    adapter_shape net p vendor variable extract log run
    ∧ demoted p run = (log', Normal res)
    ∧ ((p, extract) = ("openai", openai_text)
       ∨ (p, extract) = ("gemini", gemini_text)
       ∨ (p, extract) = ("anthropic", anthropic_text)).
Proof.
  intros K Q. apply known_provider_cases in K as [-> | [-> | ->]].
  - rewrite queryProvider_openai in Q.
    do 4 eexists. split; [apply queryOpenAI_shape|]. split; [exact Q|]. auto.
  - rewrite queryProvider_gemini in Q.
    do 4 eexists. split; [apply queryGemini_shape|]. split; [exact Q|]. auto.
  - rewrite queryProvider_anthropic in Q.
    do 4 eexists. split; [apply queryAnthropic_shape|]. split; [exact Q|]. auto.
Qed.

Lemma unusable_answers env net (p : string) prompt cfg log req r res :
  known_provider p = true →
  queryProvider env net (VStr p) prompt cfg log = ((log ++ [req])%list, Normal res) →
  net req = Normal r →
  resp_ok r = true →
  (∀ e, resp_json r = Throw e →
        res = Result (VStr p) Failed
                (VStr (if decide (err_message e = "") then "Unexpected error"
                       else err_message e)) None)
  ∧ (resp_json r = Normal VNull → status_of res = Failed ∧ raw res = None)
  ∧ (∀ data content,
       p = "openai" → resp_json r = Normal data →
       openai_content data = Normal content →
       nullish content = false → is_string content = false →
       status_of res = Failed ∧ raw res = None).
Proof.
  intros K Q N O.
  destruct (known_answered _ _ _ _ _ _ _ _ K Q)
    as (vendor & variable & extract & run & S & D & X).
  assert (F : ∀ e, reply p vendor extract r = Throw e →
                   status_of res = Failed ∧ raw res = None).
  { intros e R. by rewrite (demoted_answered _ _ _ _ _ _ _ _ _ _ _ S D N R). }
  split; [|split].
  - intros e J. eapply demoted_answered; eauto using reply_unparsed.
  - intros J.
    assert (∃ e, extract VNull = Throw e) as [e E].
    { destruct X as [[= _ ->]|[[= _ ->]|[= _ ->]]]; by eexists. }
    eapply F, reply_unextracted; eauto.
  - intros data content -> J C NN NS.
    assert (extract = openai_text) as ->.
    { by destruct X as [[= ->]|[[=]|[=]]]. }
    assert (∃ e, openai_text data = Throw e) as [e E].
    { unfold openai_text. run_async. rewrite C, NN.
      destruct content; try done; by eexists. }
    eapply F, reply_unextracted; eauto.
Qed.

(** X14.  A vendor answer with a status in 200-299 that cannot be used
    is reported as an [error], never as a [success]: when reading its
    body as JSON rejects, the message is the rejection's (or the fallback
    text when that is empty); when the body is the JSON value [null], or
    an OpenAI [content] is present but is not a string, the result has
    status [error] and no [raw].  A provider that has a key does make
    the call and returns such a result. *)
Theorem X14_unusable_answers_are_errors env net (p : string) prompt cfg log r :
  known_provider p = true →
  resp_ok r = true →
  (∀ req res,
     queryProvider env net (VStr p) prompt cfg log
       = ((log ++ [req])%list, Normal res) →
     net req = Normal r →
     (∀ e, resp_json r = Throw e →
           res = Result (VStr p) Failed
                   (VStr (if decide (err_message e = "") then "Unexpected error"
                          else err_message e)) None)
     ∧ (resp_json r = Normal VNull → status_of res = Failed ∧ raw res = None)
     ∧ (∀ data content,
          p = "openai" → resp_json r = Normal data →
          openai_content data = Normal content →
          nullish content = false → is_string content = false →
          status_of res = Failed ∧ raw res = None))
  ∧ (ready env p cfg → answers p net r →
     ∃ req res,
       queryProvider env net (VStr p) prompt cfg log
         = ((log ++ [req])%list, Normal res)
       ∧ net req = Normal r).
Proof.
  intros K O. split.
  - intros req res Q N. by eapply unusable_answers.
  - by apply queryProvider_called.
Qed.

Lemma X14_witness :
  ∃ res,
    queryProvider (λ _, Some "key") (always VNull)
      (VStr "anthropic") (VStr "hello") (VObj []) [] =
      ([anthropic_request "key" (VStr "hello")], Normal res)
    ∧ status_of res = Failed ∧ raw res = None.
Proof.
  destruct (X14_unusable_answers_are_errors (λ _, Some "key") (always VNull)
              "anthropic" (VStr "hello") (VObj []) []
              (Response 200 (Normal "") (Normal VNull)) eq_refl eq_refl)
    as [A B].
  destruct B as (req & res & Q & N).
  - exists (VStr "key").
    split; [reflexivity|]. split; [reflexivity|].
    split; [intros C; by destruct C|]. intros [=].
  - intros req _. reflexivity.
  - exists res. split; [|destruct (A req res Q N) as (_ & F & _); exact (F eq_refl)].
    rewrite Q. injection Q as <- _. reflexivity.
Defined.

(** * Further properties of the static file resolver *)

Lemma normalize_absolute_exact rest :
  Path.normalize (String Path.slash rest) =
  match Path.normalize_onto false [] (Path.split (String Path.slash rest)) with
  | [] => "/"
  | segs =>
      String Path.slash
        (Path.join_segments segs
         +:+ (if Path.ends_with_slash (String Path.slash rest) then "/" else ""))
  end.
Proof.
  pose proof (normalize_onto_plain (Path.split (String Path.slash rest)) []
                (Forall_nil_2 _) (split_no_slash _)) as P.
  unfold Path.normalize, Path.normalizeString.
  change (String.eqb (String Path.slash rest) "") with false.
  change (Path.starts_with_slash (String Path.slash rest)) with true.
  cbv beta iota zeta. change (negb true) with false.
  set (segs := Path.normalize_onto false [] (Path.split (String Path.slash rest))) in *.
  destruct (String.eqb (Path.join_segments segs) "") eqn:E.
  - apply String.eqb_eq in E. by rewrite (join_segments_empty _ P E).
  - destruct segs as [|seg segs']; [done|].
    destruct (Path.ends_with_slash _); [done|]. by rewrite append_nil_r.
Qed.

Lemma append_not_empty a b : b ≠ "" → a +:+ b ≠ "".
Proof. by destruct a, b. Qed.

Lemma ends_with_slash_cons c s :
  s ≠ "" → Path.ends_with_slash (String c s) = Path.ends_with_slash s.
Proof. by destruct s. Qed.

Lemma ends_with_slash_append a b :
  b ≠ "" → Path.ends_with_slash (a +:+ b) = Path.ends_with_slash b.
Proof.
  intros B. induction a as [|c a IH]; [done|].
  change (String c a +:+ b) with (String c (a +:+ b)).
  rewrite ends_with_slash_cons; [done|]. by destruct a, b.
Qed.

Lemma ends_with_slash_plain seg :
  seg ≠ "" → Path.has_slash seg = false → Path.ends_with_slash seg = false.
Proof.
  induction seg as [|c seg IH]; [done|]. intros _ [C H]%orb_false_elim.
  destruct seg as [|c' seg']; [done|].
  rewrite ends_with_slash_cons by done. by apply IH.
Qed.

Lemma ends_with_slash_join segs :
  Forall Path.plain segs → segs ≠ [] →
  Path.ends_with_slash (Path.join_segments segs) = false.
Proof.
  induction 1 as [|seg segs (N & _ & _ & H) F IH]; [done|]. intros _.
  destruct segs as [|seg' segs'].
  - simpl. by apply ends_with_slash_plain.
  - rewrite join_segments_cons by done.
    rewrite ends_with_slash_append by done.
    rewrite ends_with_slash_cons; [by apply IH|].
    intros E. by apply join_segments_empty in E.
Qed.

Lemma join_segments_app ps rs :
  ps ≠ [] → rs ≠ [] →
  Path.join_segments (ps ++ rs) =
  Path.join_segments ps +:+ String Path.slash (Path.join_segments rs).
Proof.
  intros P R. induction ps as [|p ps IH]; [done|].
  destruct ps as [|p' ps'].
  - simpl. by destruct rs.
  - change ((p :: p' :: ps') ++ rs)%list with (p :: ((p' :: ps') ++ rs))%list.
    rewrite !join_segments_cons by done.
    rewrite IH by done. by rewrite <- append_assoc.
Qed.

(** The public directory is a normalized absolute path without a trailing
    separator. *)
Lemma publicDir_shape dirname :
  Path.starts_with_slash dirname = true →
  ∃ ps, ps ≠ [] ∧ Forall Path.plain ps
        ∧ publicDir dirname = String Path.slash (Path.join_segments ps).
Proof.
  intros [rest ->]%starts_with_slash_inv.
  unfold publicDir, Path.join.
  change (String.eqb (String Path.slash rest) "") with false.
  change (String.eqb "public" "") with false. cbv beta iota.
  change (String Path.slash rest +:+ "/" +:+ "public")
    with (String Path.slash (rest +:+ String Path.slash "public")).
  rewrite normalize_absolute_exact.
  pose proof (normalize_onto_plain
                (Path.split (String Path.slash (rest +:+ String Path.slash "public")))
                [] (Forall_nil_2 _) (split_no_slash _)) as P.
  change (String Path.slash (rest +:+ String Path.slash "public"))
    with (String Path.slash rest +:+ String Path.slash "public") in *.
  rewrite split_append, normalize_onto_app in *.
  set (xs := Path.normalize_onto false [] (Path.split (String Path.slash rest))) in *.
  change (Path.normalize_onto false (rev xs) (Path.split "public"))
    with (rev ("public" :: rev xs)) in *.
  simpl rev in *. rewrite rev_involutive in *.
  rewrite ends_with_slash_append by done.
  change (Path.ends_with_slash (String Path.slash "public")) with false.
  exists (xs ++ ["public"])%list.
  destruct (xs ++ ["public"])%list as [|seg segs] eqn:E.
  { by destruct xs. }
  rewrite append_nil_r. done.
Qed.

(** X15.  For a request path other than [/] (and an absolute
    [__dirname]) the file that is read is the public directory followed by
    the normalized request path, [..] above the root dropped; for [/] it
    is the index document. *)
Theorem X15_resolved_file_is_public_plus_path dirname requestPath :
  Path.starts_with_slash dirname = true →
  Path.starts_with_slash requestPath = true →
  resolve dirname requestPath =
  publicDir dirname
  +:+ Path.normalize (if String.eqb requestPath "/" then "/index.html"
                      else requestPath).
Proof.
  intros D Q. destruct (publicDir_shape dirname D) as (ps & NP & P & EP).
  unfold resolve.
  set (relativePath := if String.eqb requestPath "/" then "/index.html" else requestPath).
  assert (A : Path.starts_with_slash relativePath = true).
  { unfold relativePath. by destruct (String.eqb requestPath "/"). }
  destruct (starts_with_slash_inv _ A) as [rest ER].
  pose proof (normalize_onto_plain (Path.split relativePath) []
                (Forall_nil_2 _) (split_no_slash _)) as R.
  assert (∃ body, Path.normalize relativePath = String Path.slash body
            ∧ Forall (λ seg, seg = "" ∨ Path.plain seg) (Path.split body)
            ∧ filter (λ seg, seg ≠ "") (Path.split body)
              = Path.normalize_onto false [] (Path.split relativePath)
            ∧ (Path.normalize_onto false [] (Path.split relativePath) ≠ [] →
               body = Path.join_segments
                        (Path.normalize_onto false [] (Path.split relativePath))
                      +:+ (if Path.ends_with_slash relativePath then "/" else "")))
    as (body & EN & FB & NB & XB).
  { destruct (normalize_absolute relativePath A) as (rs & t & -> & _ & T & E).
    exists (Path.join_segments
              (Path.normalize_onto false [] (Path.split relativePath)) +:+ t).
    destruct (normalized_split _ t R T) as [F N].
    rewrite split_cons_slash in F. apply Forall_cons in F as [_ F].
    unfold Path.names in N. rewrite split_cons_slash in N.
    rewrite filter_cons_False in N by (intros ?; done).
    split; [done|]. split; [done|]. split; [done|].
    intros NE. rewrite ER in E. rewrite normalize_absolute_exact in E.
    rewrite <- ER in E.
    destruct (Path.normalize_onto false [] (Path.split relativePath)); [done|].
    by injection E. }
  rewrite EN, strip_absolute by done. rewrite EP.
  unfold Path.join. change (String.eqb (String _ _) "") with false.
  cbv beta iota.
  change (String Path.slash (Path.join_segments ps) +:+ "/" +:+ String Path.slash body)
    with (String Path.slash
            (Path.join_segments ps +:+ String Path.slash (String Path.slash body))).
  rewrite normalize_absolute_exact.
  change (String Path.slash
            (Path.join_segments ps +:+ String Path.slash (String Path.slash body)))
    with (String Path.slash (Path.join_segments ps)
          +:+ String Path.slash (String Path.slash body)).
  rewrite split_append.
  destruct (normalized_split ps "" P (or_introl eq_refl)) as [FP NPs].
  rewrite append_nil_r in FP, NPs. unfold Path.names in NPs.
  rewrite normalize_onto_clean
    by (apply Forall_app; split; [done|];
        rewrite split_cons_slash; constructor; auto).
  rewrite filter_app, NPs. simpl rev. rewrite app_nil_l.
  rewrite split_cons_slash.
  rewrite filter_cons_False by (intros ?; done). rewrite NB.
  rewrite ends_with_slash_append by done.
  rewrite ends_with_slash_cons by done.
  set (rs := Path.normalize_onto false [] (Path.split relativePath)) in *.
  destruct (ps ++ rs)%list as [|seg segs] eqn:E; [by destruct ps|].
  rewrite <- E. clear E seg segs.
  change (String Path.slash (Path.join_segments ps) +:+ String Path.slash body)
    with (String Path.slash (Path.join_segments ps +:+ String Path.slash body)).
  f_equal. destruct rs as [|r rs'] eqn:RS.
  - rewrite app_nil_r.
    assert (body = "") as ->.
    { rewrite ER in EN. rewrite normalize_absolute_exact in EN.
      rewrite <- ER in EN. fold rs in EN. rewrite RS in EN. by injection EN. }
    done.
  - rewrite (XB ltac:(done)). rewrite join_segments_app by done.
    rewrite <- append_assoc.
    change (String Path.slash (Path.join_segments (r :: rs'))
            +:+ (if Path.ends_with_slash
                      (String Path.slash
                         (Path.join_segments (r :: rs')
                          +:+ (if Path.ends_with_slash relativePath then "/" else "")))
                 then "/" else ""))
      with (String Path.slash
              (Path.join_segments (r :: rs')
               +:+ (if Path.ends_with_slash
                         (String Path.slash
                            (Path.join_segments (r :: rs')
                             +:+ (if Path.ends_with_slash relativePath then "/" else "")))
                    then "/" else ""))).
    do 2 f_equal.
    destruct (Path.ends_with_slash relativePath).
    + rewrite ends_with_slash_cons by (by apply append_not_empty).
      by rewrite ends_with_slash_append.
    + rewrite append_nil_r.
      rewrite ends_with_slash_cons
        by (intros Z; by apply join_segments_empty in Z).
      rewrite ends_with_slash_join by done. apply append_nil_r.
Qed.

Lemma X15_witness :
  resolve "/srv/app" "/a/../css/./site.css" = "/srv/app/public/css/site.css".
Proof.
  rewrite (X15_resolved_file_is_public_plus_path "/srv/app" "/a/../css/./site.css")
    by reflexivity.
  reflexivity.
Defined.

(** X16.  A [GET] reads exactly one file, the one its path resolves to,
    and fetches nothing, whatever the body.  The answer is the file with
    200 and the content type of its extension, 404 in plain text when
    [readFile] reports [ENOENT], and the generic 500 when it fails in any
    other way. *)
Theorem X16_get_serves_the_resolved_file JSON_parse env world order dirname fs
    pathname bodyText :
  server JSON_parse env world order dirname fs "GET" pathname bodyText =
  Handled [] [resolve dirname pathname]
    (Some match fs (resolve dirname pathname) with
          | FileData data =>
              HttpResponse 200 (getContentType (resolve dirname pathname))
                (FileBody data)
          | ENOENT => HttpResponse 404 "text/plain" (PlainText "Not found")
          | ReadError _ =>
              HttpResponse 500 "application/json" (JsonError "Internal server error")
          end).
Proof. unfold server, serveStatic. simpl. by destruct (fs _). Qed.

(** ** Content types *)

Lemma from_last_dot_none s : has_dot s = false → Path.from_last_dot s = None.
Proof.
  induction s as [|c s IH]; simpl; [done|].
  intros [C H]%orb_false_elim. by rewrite (IH H), C.
Qed.

Lemma from_last_dot_append a ext :
  has_dot ext = false →
  Path.from_last_dot (a +:+ String Path.dot ext) = Some (String Path.dot ext).
Proof.
  intros H. induction a as [|c a IH].
  - change ("" +:+ String Path.dot ext) with (String Path.dot ext).
    simpl. by rewrite (from_last_dot_none _ H).
  - change (String c a +:+ String Path.dot ext)
      with (String c (a +:+ String Path.dot ext)).
    simpl. by rewrite IH.
Qed.

(** The last component of [dir/name]. *)
Lemma last_component dir name :
  name ≠ "" → Path.has_slash name = false →
  last (filter (λ seg, seg ≠ "") (Path.split (dir +:+ String Path.slash name)))
  = Some name.
Proof.
  intros N H. rewrite split_append, (split_plain _ H), filter_app.
  rewrite (filter_cons_True _ name) by done. simpl. apply last_snoc.
Qed.

Lemma extname_of_name dir stem ext :
  stem ≠ "" → Path.has_slash stem = false →
  ext ≠ "" → Path.has_slash ext = false → has_dot ext = false →
  Path.extname (dir +:+ String Path.slash (stem +:+ String Path.dot ext))
  = String Path.dot ext.
Proof.
  intros N S E SE D. unfold Path.extname.
  rewrite last_component.
  - destruct stem as [|c stem]; [done|]. simpl default.
    change (String c stem +:+ String Path.dot ext)
      with (String c (stem +:+ String Path.dot ext)).
    cbv beta iota. rewrite from_last_dot_append by done.
    destruct (String.eqb _ "..") eqn:Z; [|done].
    apply String.eqb_eq in Z. destruct stem as [|? [|]], ext; done.
  - by destruct stem.
  - clear N. induction stem as [|c stem IH].
    + simpl. change (Ascii.eqb Path.dot Path.slash) with false. done.
    + simpl in *. apply orb_false_elim in S as [-> S]. by apply IH.
Qed.

Lemma extname_without_dot dir name :
  name ≠ "" → Path.has_slash name = false → has_dot name = false →
  Path.extname (dir +:+ String Path.slash name) = ""
  ∧ Path.extname (dir +:+ String Path.slash (String Path.dot name)) = "".
Proof.
  intros N S D. unfold Path.extname. split.
  - rewrite last_component by done. destruct name as [|c name]; [done|].
    simpl default. simpl in D. apply orb_false_elim in D as [_ D].
    cbv beta iota. rewrite (from_last_dot_none _ D).
    by destruct (String.eqb _ _).
  - rewrite last_component; [|done|].
    + simpl default. cbv beta iota. rewrite (from_last_dot_none _ D).
      by destruct (String.eqb _ _).
    + simpl. by rewrite S.
Qed.

(** X17.  A file whose name is a non-empty stem, a dot and one of the
    extensions [html], [css], [js], [json], [svg] gets the content type of
    that extension, in whatever directory it lies; with any other
    extension (the comparison is exact, so [HTML] and [jsx] are others) it
    gets [application/octet-stream]. *)
Theorem X17_content_type_by_extension dir stem :
  stem ≠ "" → Path.has_slash stem = false →
  getContentType (dir +:+ "/" +:+ stem +:+ ".html") = "text/html; charset=utf-8"
  ∧ getContentType (dir +:+ "/" +:+ stem +:+ ".css") = "text/css; charset=utf-8"
  ∧ getContentType (dir +:+ "/" +:+ stem +:+ ".js")
    = "application/javascript; charset=utf-8"
  ∧ getContentType (dir +:+ "/" +:+ stem +:+ ".json")
    = "application/json; charset=utf-8"
  ∧ getContentType (dir +:+ "/" +:+ stem +:+ ".svg") = "image/svg+xml"
  ∧ ∀ ext, ext ≠ "" → Path.has_slash ext = false → has_dot ext = false →
           ext ∉ known_extensions →
           getContentType (dir +:+ "/" +:+ stem +:+ "." +:+ ext)
           = "application/octet-stream".
Proof.
  intros N S.
  assert (E : ∀ ext, ext ≠ "" → Path.has_slash ext = false → has_dot ext = false →
            Path.extname (dir +:+ "/" +:+ stem +:+ "." +:+ ext) = "." +:+ ext).
  { intros ext. apply (extname_of_name dir stem ext N S). }
  unfold getContentType.
  change ".html" with ("." +:+ "html"). change ".css" with ("." +:+ "css").
  change ".json" with ("." +:+ "json"). change ".js" with ("." +:+ "js").
  change ".svg" with ("." +:+ "svg").
  split; [by rewrite (E "html")|]. split; [by rewrite (E "css")|].
  split; [by rewrite (E "js")|]. split; [by rewrite (E "json")|].
  split; [by rewrite (E "svg")|].
  intros ext X SE D K. rewrite (E ext X SE D).
  unfold known_extensions in K. rewrite !not_elem_of_cons in K.
  destruct K as (K1 & K2 & K3 & K4 & K5 & _).
  assert (F : ∀ known, ext ≠ known → String.eqb ("." +:+ ext) ("." +:+ known) = false).
  { intros known Z. apply String.eqb_neq. by intros [= ?]. }
  by rewrite !F.
Qed.

Lemma X17_witness :
  getContentType ("/srv/app/public/css" +:+ "/" +:+ "site" +:+ ".css")
  = "text/css; charset=utf-8".
Proof.
  apply (X17_content_type_by_extension "/srv/app/public/css" "site");
    [discriminate | reflexivity].
Defined.

(** X18.  A file whose name holds no dot, or only a leading one (a hidden
    file, [.html] itself included), has no extension for
    [getContentType] and is served as [application/octet-stream]. *)
Theorem X18_no_extension_is_octet_stream dir name :
  name ≠ "" → Path.has_slash name = false → has_dot name = false →
  getContentType (dir +:+ "/" +:+ name) = "application/octet-stream"
  ∧ getContentType (dir +:+ "/" +:+ "." +:+ name) = "application/octet-stream".
Proof.
  intros N S D. unfold getContentType.
  destruct (extname_without_dot dir name N S D) as [E1 E2].
  change (dir +:+ "/" +:+ name) with (dir +:+ String Path.slash name).
  change (dir +:+ "/" +:+ "." +:+ name)
    with (dir +:+ String Path.slash (String Path.dot name)).
  by rewrite E1, E2.
Qed.

Lemma X18_witness :
  getContentType ("/srv/app/public" +:+ "/" +:+ "." +:+ "html")
  = "application/octet-stream".
Proof.
  apply (X18_no_extension_is_octet_stream "/srv/app/public" "html");
    [discriminate | reflexivity | reflexivity].
Defined.

(** * Properties of the client *)

(** X19.  [toggleProvider] flips the membership of the one provider and
    of no other, so toggling the same provider twice gives the set back;
    the size of the set moves by exactly one. *)
Theorem X19_toggle_flips_one_provider (providerId : string) (prev : gset string) :
  (∀ q, q ∈ Client.toggleProvider providerId prev ↔
        (q = providerId ∧ providerId ∉ prev) ∨ (q ≠ providerId ∧ q ∈ prev))
  ∧ Client.toggleProvider providerId (Client.toggleProvider providerId prev) = prev
  ∧ size (Client.toggleProvider providerId prev) =
    (if bool_decide (providerId ∈ prev) then size prev - 1 else size prev + 1)%nat.
Proof.
  unfold Client.toggleProvider. split; [|split].
  - intros q. case_bool_decide; set_solver.
  - repeat case_bool_decide; try set_solver.
    apply set_eq. intros q. rewrite elem_of_union, elem_of_difference,
      elem_of_singleton. destruct (decide (q = providerId)); naive_solver.
  - case_bool_decide as I.
    + rewrite size_difference by set_solver. by rewrite size_singleton.
    + rewrite size_union by set_solver. by rewrite size_singleton.
Qed.

Section PropFacts.
Context {A : Type}.
Implicit Types (o : list (string * A)).

Lemma prop_of_absent k o : has_key k o = false → prop_of o k = None.
Proof.
  induction o as [|[k' v'] o IH]; simpl; [done|].
  intros [-> H]%orb_false_elim. auto.
Qed.

Lemma prop_of_update k v o q :
  has_key k o = true →
  prop_of (update_prop k v o) q = if String.eqb q k then Some v else prop_of o q.
Proof.
  induction o as [|[k' v'] o IH]; simpl; [done|].
  destruct (String.eqb k k') eqn:E.
  - apply String.eqb_eq in E as ->. intros _. simpl. by destruct (String.eqb q k').
  - simpl. intros H. destruct (String.eqb q k') eqn:Q.
    + apply String.eqb_eq in Q as ->. rewrite String.eqb_sym in E. by rewrite E.
    + by apply IH.
Qed.

Lemma prop_of_insert_index i k v o q :
  has_key k o = false →
  prop_of (insert_index i k v o) q = if String.eqb q k then Some v else prop_of o q.
Proof.
  induction o as [|[k' v'] o IH]; simpl; [done|].
  intros [E H]%orb_false_elim.
  destruct (array_index k') as [j|]; [|done].
  destruct (j <? i)%N; [|done]. simpl.
  destruct (String.eqb q k') eqn:Q; [|by apply IH].
  apply String.eqb_eq in Q as ->. rewrite String.eqb_sym in E. by rewrite E.
Qed.

Lemma prop_of_append k v o q :
  has_key k o = false →
  prop_of (o ++ [(k, v)]) q = if String.eqb q k then Some v else prop_of o q.
Proof.
  induction o as [|[k' v'] o IH]; simpl; [done|].
  intros [E H]%orb_false_elim.
  destruct (String.eqb q k') eqn:Q; [|by apply IH].
  apply String.eqb_eq in Q as ->. rewrite String.eqb_sym in E. by rewrite E.
Qed.

(** Reading [{ ...o, [k]: v }]: [v] at [k], and [o] everywhere else. *)
Lemma prop_of_define k v o q :
  prop_of (define_prop k v o) q = if String.eqb q k then Some v else prop_of o q.
Proof.
  unfold define_prop. destruct (has_key k o) eqn:H.
  - by apply prop_of_update.
  - destruct (array_index k); [by apply prop_of_insert_index|by apply prop_of_append].
Qed.
End PropFacts.

(** X20.  After [handleApiKeyChange] the key stored for the provider is
    the text typed, the keys of the other providers are what they were,
    and the configuration sent for the provider carries that key, or is
    empty when the field was cleared. *)
Theorem X20_key_change_sets_one_key (providerId value : string)
    (prev : list (string * string)) :
  prop_of (Client.handleApiKeyChange providerId value prev) providerId = Some value
  ∧ (∀ q, q ≠ providerId →
          prop_of (Client.handleApiKeyChange providerId value prev) q = prop_of prev q)
  ∧ Client.key_config (Client.handleApiKeyChange providerId value prev) providerId =
    (if decide (value = "") then VObj [] else VObj [("apiKey", VStr value)])
  ∧ (∀ q, q ≠ providerId →
          Client.key_config (Client.handleApiKeyChange providerId value prev) q
          = Client.key_config prev q).
Proof.
  unfold Client.handleApiKeyChange, Client.key_config.
  assert (H1 : prop_of (define_prop providerId value prev) providerId = Some value).
  { by rewrite prop_of_define, String.eqb_refl. }
  assert (H2 : ∀ q, q ≠ providerId →
                 prop_of (define_prop providerId value prev) q = prop_of prev q).
  { intros q N. by rewrite prop_of_define, eqb_false_neq. }
  split; [done|]. split; [done|]. split.
  - rewrite H1. case_decide as E; [by rewrite E|by rewrite eqb_false_neq].
  - intros q N. by rewrite (H2 q N).
Qed.

Lemma X20_witness :
  prop_of (Client.handleApiKeyChange "openai" "sk-2"
             [("openai", "sk-1"); ("gemini", "AIza")]) "gemini" = Some "AIza".
Proof.
  destruct (X20_key_change_sets_one_key "openai" "sk-2"
              [("openai", "sk-1"); ("gemini", "AIza")]) as (_ & O & _).
  exact (eq_trans (O "gemini" ltac:(discriminate)) eq_refl).
Defined.

Lemma selected_cases (enabled : gset string) :
  Client.selectedProviders enabled =
  ((if bool_decide ("openai" ∈ enabled) then ["openai"] else [])
   ++ (if bool_decide ("gemini" ∈ enabled) then ["gemini"] else [])
   ++ (if bool_decide ("anthropic" ∈ enabled) then ["anthropic"] else []))%list.
Proof.
  unfold Client.selectedProviders, Client.PROVIDERS.
  rewrite !filter_cons, filter_nil. simpl.
  repeat case_decide; repeat case_bool_decide; done.
Qed.

Lemma selected_providers_spec (enabled : gset string) :
  Client.selectedProviders enabled `sublist_of` ["openai"; "gemini"; "anthropic"]
  ∧ NoDup (Client.selectedProviders enabled)
  ∧ ∀ q, q ∈ Client.selectedProviders enabled ↔
         q ∈ enabled ∧ known_provider q = true.
Proof.
  rewrite selected_cases.
  split; [|split].
  - repeat case_bool_decide; simpl;
      repeat first [apply sublist_nil | apply sublist_skip; [] | apply sublist_cons
                   | apply sublist_skip].
  - repeat case_bool_decide; simpl; apply NoDup_ListNoDup;
      repeat constructor; simpl; intuition congruence.
  - intros q. split.
    + intros I. repeat case_bool_decide; simpl in I;
        rewrite ?elem_of_cons, ?elem_of_nil in I;
        intuition (subst; auto).
    + intros [I K]. apply known_provider_cases in K as [-> | [-> | ->]];
        repeat case_bool_decide; simpl; rewrite ?elem_of_cons; intuition.
Qed.

(** X21.  The providers [handleSubmit] selects are the enabled ones among
    the three the client knows, each once and in the order of
    [PROVIDERS], whatever else the set may hold. *)
Theorem X21_selected_providers (enabled : gset string) :
  Client.selectedProviders enabled `sublist_of` ["openai"; "gemini"; "anthropic"]
  ∧ NoDup (Client.selectedProviders enabled)
  ∧ ∀ q, q ∈ Client.selectedProviders enabled ↔
         q ∈ enabled ∧ known_provider q = true.
Proof. apply selected_providers_spec. Qed.

(** X22.  [handleSubmit] sends nothing for a prompt that is empty or
    white space only, whatever is enabled, and nothing when no known
    provider is enabled: it stops loading, clears the results and shows
    the message of the first check that fails, the prompt's first. *)
Theorem X22_submit_validates_first (st : Client.state) :
  (all_white (Client.prompt st) = true →
   Client.handleSubmit st =
   Client.Refused
     (Client.State (Client.prompt st) (Client.enabledProviders st)
        (Client.apiKeys st) (VObj []) false
        (Some "Please provide a prompt before querying the models.")))
  ∧ (trim (Client.prompt st) ≠ "" →
     (∀ q, q ∈ Client.enabledProviders st → known_provider q = false) →
     Client.handleSubmit st =
     Client.Refused
       (Client.State (Client.prompt st) (Client.enabledProviders st)
          (Client.apiKeys st) (VObj []) false
          (Some "Select at least one model provider to compare responses."))).
Proof.
  unfold Client.handleSubmit. split.
  - intros W. by rewrite (trim_all_white _ W).
  - intros T N. rewrite (truthy_nonempty _ T). simpl.
    assert (Client.selectedProviders (Client.enabledProviders st) = []) as ->; [|done].
    apply elem_of_nil_inv. intros q [I K]%selected_providers_spec.
    rewrite (N q I) in K. done.
Qed.

Lemma X22_witness :
  Client.handleSubmit
    (Client.State "  " (list_to_set ["openai"]) [] (VObj []) false None) =
  Client.Refused
    (Client.State "  " (list_to_set ["openai"]) [] (VObj []) false
       (Some "Please provide a prompt before querying the models.")).
Proof.
  exact (proj1 (X22_submit_validates_first
                  (Client.State "  " (list_to_set ["openai"]) [] (VObj []) false None))
               eq_refl).
Defined.

Lemma trim_nonempty s : trim s ≠ "" → s ≠ "".
Proof. by intros T ->. Qed.

(** What [handleSubmit] sends, when it sends. *)
Lemma handleSubmit_sent st st' req :
  Client.handleSubmit st = Client.Sent st' req →
  trim (Client.prompt st) ≠ ""
  ∧ Client.selectedProviders (Client.enabledProviders st) ≠ []
  ∧ st' = Client.State (Client.prompt st) (Client.enabledProviders st)
            (Client.apiKeys st) (VObj []) true None
  ∧ req = FetchRequest "/api/query" "POST"
            [("Content-Type", VStr "application/json")]
            (Client.request_body st
               (Client.selectedProviders (Client.enabledProviders st))).
Proof.
  unfold Client.handleSubmit. simpl.
  destruct (String.eqb (trim (Client.prompt st)) "") eqn:T; simpl; [done|].
  apply String.eqb_neq in T.
  destruct (Client.selectedProviders _) as [|p ps] eqn:S; simpl; [done|].
  by intros [= <- <-].
Qed.

(** The configuration sent holds, for each selected provider, the
    configuration of its key. *)
Lemma request_config_entries keys (enabled : gset string) :
  fromEntries ((λ p, (p, Client.key_config keys p))
               <$> Client.selectedProviders enabled)
  = (λ p, (p, Client.key_config keys p)) <$> Client.selectedProviders enabled.
Proof. rewrite selected_cases. by repeat case_bool_decide. Qed.

Lemma own_prop_mapped (f : string → value) (ps : list string) p :
  p ∈ ps → own_prop p ((λ q, (q, f q)) <$> ps) = f p.
Proof.
  induction ps as [|q ps IH]; [by intros ?%elem_of_nil|].
  intros I. simpl. destruct (String.eqb p q) eqn:E.
  - by apply String.eqb_eq in E as ->.
  - apply elem_of_cons in I as [->|I]; [by rewrite String.eqb_refl in E|auto].
Qed.

Lemma handleSubmit_sends st :
  trim (Client.prompt st) ≠ "" →
  Client.selectedProviders (Client.enabledProviders st) ≠ [] →
  Client.handleSubmit st =
  Client.Sent
    (Client.State (Client.prompt st) (Client.enabledProviders st)
       (Client.apiKeys st) (VObj []) true None)
    (FetchRequest "/api/query" "POST" [("Content-Type", VStr "application/json")]
       (Client.request_body st
          (Client.selectedProviders (Client.enabledProviders st)))).
Proof.
  intros T S. unfold Client.handleSubmit.
  rewrite (truthy_nonempty _ T). simpl.
  by destruct (Client.selectedProviders _).
Qed.

(** X23.  [handleSubmit] sends whenever the prompt is not blank (it
    holds more than white space) and a known provider is enabled, and
    only then.  It sends one [POST] to [/api/query] and shows the loader;
    the body carries the prompt as typed, the selected providers in the
    order of [PROVIDERS], and a [config] with one entry per selected
    provider: [{ apiKey }] with the key typed for it, or [{}] when none
    was typed. *)
Theorem X23_submit_sends_a_well_formed_query st :
  (trim (Client.prompt st) ≠ "" →
   Client.selectedProviders (Client.enabledProviders st) ≠ [] →
   ∃ st' req, Client.handleSubmit st = Client.Sent st' req)
  ∧ ∀ st' req,
      Client.handleSubmit st = Client.Sent st' req →
      fr_url req = "/api/query" ∧ fr_method req = "POST"
      ∧ Client.isLoading st' = true ∧ Client.error st' = None
      ∧ trim (Client.prompt st) ≠ ""
      ∧ Client.prompt st ≠ ""
      ∧ Client.selectedProviders (Client.enabledProviders st) ≠ []
      ∧ get (fr_body req) "prompt" = Normal (VStr (Client.prompt st))
      ∧ get (fr_body req) "providers" =
        Normal (VArr (VStr <$> Client.selectedProviders (Client.enabledProviders st)))
      ∧ ∃ config,
          get (fr_body req) "config" = Normal (VObj config)
          ∧ keys config = Client.selectedProviders (Client.enabledProviders st)
          ∧ ∀ p, p ∈ Client.selectedProviders (Client.enabledProviders st) →
                 get (VObj config) p
                 = Normal (Client.key_config (Client.apiKeys st) p).
Proof.
  split.
  { intros T S. rewrite (handleSubmit_sends st T S). eauto. }
  intros st' req (T & S & -> & ->)%handleSubmit_sent.
  repeat (split; [done || by apply trim_nonempty|]).
  eexists. split; [reflexivity|]. rewrite request_config_entries. split.
  - unfold keys. rewrite <- list_fmap_compose. apply list_fmap_id.
  - intros p I. simpl. f_equal.
    apply (own_prop_mapped (Client.key_config (Client.apiKeys st))). done.
Qed.

Lemma typed_state_sends :
  Client.handleSubmit typed_state =
  Client.Sent
    (Client.State "hello" (list_to_set ["anthropic"; "openai"])
       [("openai", "sk-1")] (VObj []) true None)
    typed_request.
Proof.
  assert (S : Client.selectedProviders (Client.enabledProviders typed_state)
              = ["openai"; "anthropic"]) by reflexivity.
  unfold Client.handleSubmit. rewrite S. reflexivity.
Qed.

Lemma X23_witness :
  trim (Client.prompt typed_state) ≠ ""
  ∧ ∃ config,
      get (fr_body typed_request) "config" = Normal (VObj config)
      ∧ keys config = Client.selectedProviders (Client.enabledProviders typed_state).
Proof.
  destruct (X23_submit_sends_a_well_formed_query typed_state) as [_ F].
  destruct (F _ _ typed_state_sends)
    as (_ & _ & _ & _ & T & _ & _ & _ & _ & config & C & K & _).
  split; [exact T|]. exists config. split; [exact C|exact K].
Defined.

(** * The client and the server together *)

Lemma selected_known (enabled : gset string) :
  Forall (λ p, known_provider p = true) (Client.selectedProviders enabled).
Proof.
  apply Forall_forall. intros p I. by apply selected_providers_spec in I as [_ K].
Qed.

Lemma selected_first_occurrences (enabled : gset string) :
  first_occurrences (Client.selectedProviders enabled)
  = Client.selectedProviders enabled.
Proof. rewrite selected_cases. by repeat case_bool_decide. Qed.

(** The server on a request the client has sent. *)
Lemma server_on_client_request JSON_parse env world dirname fs bodyText st st' req :
  Client.handleSubmit st = Client.Sent st' req →
  JSON_parse (if String.eqb bodyText "" then "{}" else bodyText)
    = Normal (fr_body req) →
  ∃ responses,
    (∀ order,
       order ≡ₚ seq 0 (length (Client.selectedProviders (Client.enabledProviders st))) →
       answer (server JSON_parse env world order dirname fs
                 (fr_method req) (fr_url req) bodyText) =
       Some (HttpResponse 200 "application/json"
               (JsonResponses (VStr (Client.prompt st)) responses)))
    ∧ keys responses = Client.selectedProviders (Client.enabledProviders st)
    ∧ ∀ p r, (p, r) ∈ responses → provider r = VStr p.
Proof.
  intros (T & S & -> & ->)%handleSubmit_sent J. simpl in *.
  destruct (handle_query_known JSON_parse env world bodyText
              (Client.request_body st
                 (Client.selectedProviders (Client.enabledProviders st)))
              (Client.prompt st)
              (Client.selectedProviders (Client.enabledProviders st))
              (VObj (fromEntries
                       ((λ p, (p, Client.key_config (Client.apiKeys st) p))
                        <$> Client.selectedProviders (Client.enabledProviders st))))
              [] J eq_refl (trim_nonempty _ T) eq_refl (selected_known _)
              eq_refl ltac:(done))
    as (log' & responses & H & K & M).
  exists responses. split; [|split; [|done]].
  - intros order O. unfold server. simpl. by rewrite (H order O).
  - by rewrite K, selected_first_occurrences.
Qed.

(** X24.  Whatever the client sends is a query the server accepts: when
    the body is parsed to the object the client wrote, the server answers
    200 with one entry per selected provider, in the client's order,
    whatever order the tasks settle in. *)
Theorem X24_server_accepts_what_the_client_sends JSON_parse env world dirname fs
    bodyText st st' req :
  Client.handleSubmit st = Client.Sent st' req →
  JSON_parse (if String.eqb bodyText "" then "{}" else bodyText)
    = Normal (fr_body req) →
  ∃ responses,
    (∀ order,
       order ≡ₚ seq 0 (length (Client.selectedProviders (Client.enabledProviders st))) →
       answer (server JSON_parse env world order dirname fs
                 (fr_method req) (fr_url req) bodyText) =
       Some (HttpResponse 200 "application/json"
               (JsonResponses (VStr (Client.prompt st)) responses)))
    ∧ keys responses = Client.selectedProviders (Client.enabledProviders st)
    ∧ ∀ p r, (p, r) ∈ responses → provider r = VStr p.
Proof. apply server_on_client_request. Qed.

Lemma X24_witness :
  ∃ responses,
    answer (server (λ _, Normal (fr_body typed_request)) (λ _, None)
              (λ _ _, Throw (Error "offline")) [1; 0] "/srv/app" (λ _, ENOENT)
              "POST" "/api/query" "body") =
      Some (HttpResponse 200 "application/json"
              (JsonResponses (VStr "hello") responses))
    ∧ keys responses = ["openai"; "anthropic"].
Proof.
  destruct (X24_server_accepts_what_the_client_sends
              (λ _, Normal (fr_body typed_request)) (λ _, None)
              (λ _ _, Throw (Error "offline")) "/srv/app" (λ _, ENOENT)
              "body" typed_state _ _ typed_state_sends eq_refl)
    as (responses & H & K & _).
  exists responses. split; [|exact K].
  apply (H [1; 0]). apply Permutation_swap.
Defined.

(** * What the client shows *)

Lemma own_prop_results p (responses : list (string * result)) :
  p ∈ keys responses →
  ∃ r, (p, r) ∈ responses
       ∧ own_prop p (prod_map id result_json <$> responses) = result_json r.
Proof.
  unfold keys. induction responses as [|[q r] responses IH]; simpl.
  { by intros ?%elem_of_nil. }
  intros I. destruct (String.eqb p q) eqn:E.
  - apply String.eqb_eq in E as ->. exists r. split; [left|done].
  - apply elem_of_cons in I as [->|I]; [by rewrite String.eqb_refl in E|].
    destruct (IH I) as (r' & R & O). exists r'. split; [by right|done].
Qed.

Lemma StatusChip_of_status s :
  Client.StatusChip (VStr (status_text s))
  = Normal (Client.Chip ("status-chip status-" +:+ status_text s)
              (Client.replace_underscores (status_text s))).
Proof. by destruct s. Qed.

Lemma status_of_result_json r :
  get (result_json r) "status" = Normal (VStr (status_text (status_of r))).
Proof. done. Qed.

(** X25.  After a submission the server has answered with 200, the
    client stops loading, shows no error, and shows for every enabled
    provider of [PROVIDERS] the status of the result the server holds
    under its identifier, with underscores as spaces. *)
Theorem X25_each_enabled_provider_shows_its_status JSON_parse env world dirname fs
    bodyText text st st' req order http resp :
  Client.handleSubmit st = Client.Sent st' req →
  JSON_parse (if String.eqb bodyText "" then "{}" else bodyText)
    = Normal (fr_body req) →
  order ≡ₚ seq 0 (length (Client.selectedProviders (Client.enabledProviders st))) →
  answer (server JSON_parse env world order dirname fs
            (fr_method req) (fr_url req) bodyText) = Some http →
  on_the_wire text http = Some resp →
  ∃ responses,
    payload_of http = JsonResponses (VStr (Client.prompt st)) responses
    ∧ Client.isLoading (Client.settle st' (Normal resp)) = false
    ∧ Client.error (Client.settle st' (Normal resp)) = None
    ∧ ∀ descriptor,
        descriptor ∈ Client.PROVIDERS →
        Client.id descriptor ∈ Client.enabledProviders st →
        ∃ r, (Client.id descriptor, r) ∈ responses
             ∧ provider r = VStr (Client.id descriptor)
             ∧ Client.status_shown (Client.settle st' (Normal resp)) descriptor
               = Normal (Some (Client.Chip
                                 ("status-chip status-" +:+ status_text (status_of r))
                                 (Client.replace_underscores
                                    (status_text (status_of r))))).
Proof.
  intros Hs J O A W.
  destruct (server_on_client_request JSON_parse env world dirname fs bodyText
              st st' req Hs J) as (responses & H & K & M).
  rewrite (H order O) in A. injection A as <-.
  apply handleSubmit_sent in Hs as (T & S & -> & ->).
  unfold on_the_wire in W. simpl in W. injection W as <-.
  exists responses. split; [done|]. split; [done|]. split; [done|].
  intros d P E.
  assert (I : Client.id d ∈ keys responses).
  { rewrite K. apply selected_providers_spec. split; [done|].
    revert P. unfold Client.PROVIDERS. rewrite !elem_of_cons, elem_of_nil.
    by intros [->|[->|[->|[]]]]. }
  destruct (own_prop_results _ _ I) as (r & R & G).
  exists r. split; [done|]. split; [by apply M|].
  unfold Client.status_shown, Client.settle. simpl.
  unfold mbind, completion_bind, cbind. simpl. rewrite G.
  change (truthy (result_json r)) with true. cbv beta iota. simpl negb. cbv iota.
  rewrite status_of_result_json, StatusChip_of_status. done.
Qed.

Lemma X25_witness :
  ∃ resp shown,
    on_the_wire "" typed_answer = Some resp
    ∧ Client.status_shown (Client.settle typed_sent (Normal resp))
        (Client.Descriptor "anthropic" "Claude"
           "Anthropic focus on constitutional safety" "#38bdf8" "sk-ant-...")
      = Normal (Some shown).
Proof.
  eexists _.
  destruct (X25_each_enabled_provider_shows_its_status
              (λ _, Normal (fr_body typed_request)) (λ _, None) offline
              "/srv/app" (λ _, ENOENT) "body" "" typed_state _ _ [1; 0]
              typed_answer _
              typed_state_sends eq_refl (Permutation_swap 0 1 [])
              eq_refl eq_refl)
    as (responses & _ & _ & _ & F).
  destruct (F (Client.Descriptor "anthropic" "Claude"
                 "Anthropic focus on constitutional safety" "#38bdf8" "sk-ant-..."))
    as (r & _ & _ & Sh).
  - unfold Client.PROVIDERS. rewrite !elem_of_cons. auto.
  - simpl. set_solver.
  - eexists. split; [reflexivity|exact Sh].
Defined.

(** A response that is not ok never reaches [setResults]. *)
Lemma received_not_ok resp :
  resp_ok resp = false → ∃ e, Client.received (Normal resp) = Throw e.
Proof.
  intros N. unfold Client.received. simpl. rewrite N. simpl.
  unfold mbind, completion_bind, cbind.
  destruct (get _ "error"); [|by eexists].
  destruct (to_string _); by eexists.
Qed.

(** X26.  When the request fails, the client keeps the results it has,
    stops loading and shows a message: the rejection's message when
    [fetch] rejects; for a response that is not ok, the [error] text of
    its JSON body when that is a non-empty string, and
    "Unable to fetch responses." when the body is no JSON or an object
    without a truthy [error]. *)
Theorem X26_failed_request_shows_a_message (st : Client.state) :
  let shows outcome msg :=
    Client.settle st outcome
    = Client.State (Client.prompt st) (Client.enabledProviders st)
        (Client.apiKeys st) (Client.results st) false (Some msg) in
  (∀ e, shows (Throw e) (err_message e))
  ∧ (∀ resp, resp_ok resp = false →
       ∃ msg, shows (Normal resp) msg)
  ∧ (∀ text n msg resp,
       on_the_wire text (json_error n msg) = Some resp →
       resp_ok resp = false → msg ≠ "" →
       shows (Normal resp) msg)
  ∧ (∀ resp e, resp_ok resp = false → resp_json resp = Throw e →
       shows (Normal resp) "Unable to fetch responses.")
  ∧ (∀ resp props, resp_ok resp = false → resp_json resp = Normal (VObj props) →
       truthy (own_prop "error" props) = false →
       shows (Normal resp) "Unable to fetch responses.").
Proof.
  intros shows. subst shows. cbv beta. split; [done|]. split; [|split; [|split]].
  - intros resp N. destruct (received_not_ok resp N) as [e E].
    exists (err_message e). unfold Client.settle. by rewrite E.
  - intros text n msg resp [= <-] N M. unfold Client.settle, Client.received.
    simpl in *. rewrite N. simpl. unfold or_else. simpl.
    by rewrite eqb_false_neq.
  - intros resp e N J. unfold Client.settle, Client.received. simpl.
    rewrite N, J. done.
  - intros resp props N J F. unfold Client.settle, Client.received. simpl.
    rewrite N, J. simpl. unfold or_else. by rewrite F.
Qed.

Lemma X26_witness :
  Client.settle typed_sent
    (Normal (Response 400 (Normal "") (Normal (VObj [("error", VStr "Prompt is required")]))))
  = Client.State "hello" (list_to_set ["anthropic"; "openai"])
      [("openai", "sk-1")] (VObj []) false (Some "Prompt is required").
Proof.
  destruct (X26_failed_request_shows_a_message typed_sent) as (_ & _ & W & _).
  apply (W "" 400 "Prompt is required"); [reflexivity|reflexivity|discriminate].
Defined.

Lemma replace_underscores_length s :
  String.length (Client.replace_underscores s) = String.length s.
Proof. induction s as [|c s IH]; simpl; congruence. Qed.

Lemma replace_underscores_get s i :
  String.get i (Client.replace_underscores s)
  = (λ c, if Ascii.eqb c "_" then " "%char else c) <$> String.get i s.
Proof.
  revert i. induction s as [|c s IH]; intros i; [done|].
  destruct i; simpl; [reflexivity|apply IH].
Qed.

Lemma replace_underscores_clean s i : String.get i (Client.replace_underscores s) ≠ Some "_"%char.
Proof.
  rewrite replace_underscores_get. destruct (String.get i s) as [c|]; [|done].
  simpl. destruct (Ascii.eqb c "_") eqn:E; [done|].
  apply Ascii.eqb_neq in E. congruence.
Qed.

Lemma replace_underscores_id s :
  (∀ i, String.get i s ≠ Some "_"%char) → Client.replace_underscores s = s.
Proof.
  induction s as [|c s IH]; intros N; [done|]. simpl.
  rewrite IH by (intros i; apply (N (S i))).
  destruct (Ascii.eqb c (ascii_of_nat 95)) eqn:E; [|done].
  apply Ascii.eqb_eq in E as ->. by destruct (N 0%nat).
Qed.

Lemma replace_underscores_map s i :
  String.get i (Client.replace_underscores s) =
  match String.get i s with
  | Some c => Some (if Ascii.eqb c (ascii_of_nat 95) then ascii_of_nat 32 else c)
  | None => None
  end.
Proof.
  revert i. induction s as [|c s IH]; intros i; [done|].
  destruct i; simpl; [reflexivity|apply IH].
Qed.

(** X27.  [StatusChip] shows "pending" for a falsy status; for a
    non-empty string it puts the status as it is in the class name and
    shows it with every underscore replaced by a space: the label has
    the length of the status, a space wherever the status has an
    underscore and the character of the status everywhere else; for any
    other truthy status it throws. *)
Theorem X27_status_chip (status : value) :
  (truthy status = false →
     Client.StatusChip status
     = Normal (Client.Chip "status-chip status-pending" "pending"))
  ∧ (∀ s, status = VStr s → s ≠ "" →
       ∃ label,
         Client.StatusChip status
         = Normal (Client.Chip ("status-chip status-" +:+ s) label)
         ∧ String.length label = String.length s
         ∧ (∀ i, String.get i s = Some "_"%char →
                 String.get i label = Some " "%char)
         ∧ (∀ i c, String.get i s = Some c → c ≠ "_"%char →
                   String.get i label = Some c)
         ∧ (∀ i, String.get i label ≠ Some "_"%char)
         ∧ ((∀ i, String.get i s ≠ Some "_"%char) → label = s))
  ∧ (truthy status = true → (∀ s, status ≠ VStr s) →
       ∃ e, Client.StatusChip status = Throw e).
Proof.
  split; [|split].
  - intros F. unfold Client.StatusChip, or_else. by rewrite F.
  - intros s -> N. exists (Client.replace_underscores s).
    unfold Client.StatusChip, or_else. rewrite (truthy_nonempty _ N).
    split; [done|]. split; [apply replace_underscores_length|].
    split; [|split; [|split]].
    + intros i G. by rewrite replace_underscores_map, G.
    + intros i c G C. rewrite replace_underscores_map, G.
      destruct (Ascii.eqb c (ascii_of_nat 95)) eqn:E; [|done].
      by apply Ascii.eqb_eq in E.
    + apply replace_underscores_clean.
    + apply replace_underscores_id.
  - intros T N. unfold Client.StatusChip, or_else. rewrite T.
    destruct status; try by eexists. by destruct (N s).
Qed.

Lemma X27_witness :
  ∃ label,
    Client.StatusChip (VStr "missing_credentials")
    = Normal (Client.Chip "status-chip status-missing_credentials" label)
    ∧ String.length label = 19%nat
    ∧ String.get 7 label = Some " "%char
    ∧ String.get 8 label = Some "c"%char.
Proof.
  destruct (X27_status_chip (VStr "missing_credentials")) as (_ & S & _).
  destruct (S "missing_credentials" eq_refl ltac:(discriminate))
    as (label & E & L & U & K & _).
  exists label. split; [exact E|]. split; [exact L|].
  split; [apply U; reflexivity|apply K; [reflexivity|discriminate]].
Defined.
